(** * Finance platform: the financial aggregation engine

    A shallow embedding of the reporting core of the bookkeeping front end
    (the Profit & Loss calculator, the month aggregators, the series aligner
    and the invoice totaller) together with the properties its specification
    states about them.

    Conventions of the embedding.
    - A JavaScript number is [NaN], an infinity or a finite value; a finite
      value is an exact rational ([Qc]), as every finite double and every
      decimal amount is.  Rounding and overflow of IEEE-754 doubles are not
      part of the model: sums and products of finite values are exact.
    - A JavaScript string is a [string]; its characters are its code units
      (those below 256) and [<] on strings is the lexicographic order on
      code units.
    - Fields that the code only reads as loosely typed numbers ([amount],
      [qty], [price]) hold an arbitrary primitive [value]; date, type and
      reference fields hold a string or are absent ([option string]).
    - A [Map] is an association list in insertion order; an array is a list.
    - What the script asks of the engine it runs on (string to number
      conversion, [Date] parsing in the local time zone) is the class
      [Host]. *)

From Stdlib Require Import ZArith QArith Qcanon List String Ascii Bool Lia.
From Stdlib Require Import DecimalString Sorted Permutation.
From Stdlib Require OrderedTypeEx.
Import ListNotations.

Set Implicit Arguments.
Close Scope Qc_scope.
Close Scope Q_scope.
Local Open Scope string_scope.

(** ** The JavaScript values the engine manipulates *)

Module Js.

Inductive number : Type :=
| NaN
| PosInf
| NegInf
| Fin (q : Qc).

Inductive value : Type :=
| Undefined
| Null
| Boolean (b : bool)
| Num (n : number)
| Str (s : string).

(** The finite number of an integer. *)
Definition int (z : Z) : Qc := Q2Qc (inject_Z z).

Definition num (z : Z) : value := Num (Fin (int z)).

(** [ToBoolean]. *)
Definition truthy (v : value) : bool :=
  match v with
  | Undefined | Null => false
  | Boolean b => b
  | Num NaN => false
  | Num (Fin q) => negb (Qc_eq_bool q 0)
  | Num _ => true
  | Str s => negb (s =? "")
  end.

(** [a || b]. *)
Definition or (a b : value) : value := if truthy a then a else b.

(** A field that holds a string or is missing: [!f], [f || d], [f < s],
    [f > s], [f === s]. *)
Definition truthy_field (f : option string) : bool :=
  match f with
  | Some s => negb (s =? "")
  | None => false
  end.

Definition or_field (f : option string) (d : string) : string :=
  match f with
  | Some s => if truthy_field f then s else d
  | None => d
  end.

(** A relational comparison involving [undefined] goes through [NaN] and is
    false; two strings compare by code units. *)
Definition lt_field (f : option string) (s : string) : bool :=
  match f with
  | Some d => String.ltb d s
  | None => false
  end.

Definition gt_field (f : option string) (s : string) : bool :=
  match f with
  | Some d => String.ltb s d
  | None => false
  end.

Definition eq_field (f : option string) (s : string) : bool :=
  match f with
  | Some d => d =? s
  | None => false
  end.

(** [isFinite] on numbers, as used by [Number.isFinite]. *)
Definition isFinite (n : number) : bool :=
  match n with
  | Fin _ => true
  | _ => false
  end.

(** ** Strings *)

(** [toLowerCase] on one code unit: the Latin capital letters, basic and
    Latin-1, move 32 places up; the multiplication sign (215) does not. *)
Definition lower_unit (c : ascii) : ascii :=
  let n := N_of_ascii c in
  if ((65 <=? n) && (n <=? 90) ||
      (192 <=? n) && (n <=? 222) && negb (n =? 215))%N
  then ascii_of_N (n + 32)
  else c.

Fixpoint toLowerCase (s : string) : string :=
  match s with
  | EmptyString => EmptyString
  | String c r => String (lower_unit c) (toLowerCase r)
  end.

Definition startsWith (s p : string) : bool := String.prefix p s.

(** [String(n)] for an integer. *)
Definition string_of_Z (z : Z) : string := NilZero.string_of_int (Z.to_int z).

Fixpoint repeat_unit (c : ascii) (n : nat) : string :=
  match n with
  | O => EmptyString
  | S k => String c (repeat_unit c k)
  end.

(** [s.padStart(n, c)] with a one character filler. *)
Definition padStart (n : nat) (c : ascii) (s : string) : string :=
  repeat_unit c (n - String.length s) ++ s.

(** ** Maps in insertion order, with string keys *)

Section MapOps.
Variable V : Type.

Definition map := list (string * V).

Fixpoint get (m : map) (k : string) : option V :=
  match m with
  | [] => None
  | (k', v) :: r => if k' =? k then Some v else get r k
  end.

Definition has (m : map) (k : string) : bool :=
  match get m k with
  | Some _ => true
  | None => false
  end.

(** [m.set(k, v)]: an existing key keeps its place, a new one goes last. *)
Fixpoint set (m : map) (k : string) (v : V) : map :=
  match m with
  | [] => [(k, v)]
  | (k', v') :: r => if k' =? k then (k', v) :: r else (k', v') :: set r k v
  end.

(** [m.get(k)[i] += x] and the like: the value stored under [k] is
    changed in place by [f]. *)
Fixpoint modify (m : map) (k : string) (f : V -> V) : map :=
  match m with
  | [] => []
  | (k', v) :: r => if k' =? k then (k', f v) :: r else (k', v) :: modify r k f
  end.

Definition keys (m : map) : list string := List.map fst m.
Definition values (m : map) : list V := List.map snd m.

(** [new Map(entries)]. *)
Definition of_entries (l : list (string * V)) : map :=
  fold_left (fun m kv => set m (fst kv) (snd kv)) l [].

(** A lookup whose key may be [undefined]: no string key equals it. *)
Definition get_field (m : map) (k : option string) : option V :=
  match k with
  | Some s => get m s
  | None => None
  end.
End MapOps.

(** ** Sets of strings in insertion order *)

Definition set_has (l : list string) (x : string) : bool :=
  existsb (fun y => y =? x) l.

Definition set_add (l : list string) (x : string) : list string :=
  if set_has l x then l else l ++ [x].

(** ** Arrays *)

(** The elements of an array paired with their indices, as the callbacks
    of [map] and [forEach] receive them. *)
Definition indexed (A : Type) (l : list A) : list (nat * A) :=
  combine (seq 0 (List.length l)) l.

(** [arr.indexOf(x)] on strings; [None] stands for -1. *)
Fixpoint indexOf (l : list string) (x : string) : option nat :=
  match l with
  | [] => None
  | y :: r => if y =? x then Some 0
              else match indexOf r x with
                   | Some i => Some (S i)
                   | None => None
                   end
  end.

(** [arr.sort()] on strings: ascending by code units. *)
Fixpoint insert_sorted (x : string) (l : list string) : list string :=
  match l with
  | [] => [x]
  | y :: r => if String.leb x y then x :: l else y :: insert_sorted x r
  end.

Definition sort (l : list string) : list string :=
  fold_right insert_sorted [] l.

End Js.

Import Js.

(** ** The host *)

(** Calendar dates written [YYYY-MM-DD]. *)
Definition digit (c : ascii) : option nat :=
  let n := nat_of_ascii c in
  if ((48 <=? n) && (n <=? 57))%nat then Some (n - 48) else None.

Definition isLeap (y : nat) : bool :=
  (((y mod 4 =? 0) && negb (y mod 100 =? 0)) || (y mod 400 =? 0))%nat.

Definition daysInMonth (y m : nat) : nat :=
  match m with
  | 2 => if isLeap y then 29 else 28
  | 4 | 6 | 9 | 11 => 30
  | _ => 31
  end.

(** The three numeric fields of a string shaped [dddd-dd-dd]. *)
Definition dateFields (s : string) : option (nat * nat * nat) :=
  match s with
  | String y1 (String y2 (String y3 (String y4 (String "-"
      (String m1 (String m2 (String "-" (String d1 (String d2 EmptyString))))))))) =>
      match digit y1, digit y2, digit y3, digit y4,
            digit m1, digit m2, digit d1, digit d2 with
      | Some a, Some b, Some c, Some d, Some e, Some f, Some g, Some h =>
          Some (1000 * a + 100 * b + 10 * c + d, 10 * e + f, 10 * g + h)
      | _, _, _, _, _, _, _, _ => None
      end
  | _ => None
  end.

Definition isCalendarDay (y m d : nat) : bool :=
  ((1 <=? m) && (m <=? 12) && (1 <=? d) && (d <=? daysInMonth y m))%nat.

(** The year, month (1 to 12) and day of a zero-padded [YYYY-MM-DD] string
    that denotes a day of the calendar. *)
Definition parseCalendarDate (s : string) : option (nat * nat * nat) :=
  match dateFields s with
  | Some (y, m, d) => if isCalendarDay y m d then Some (y, m, d) else None
  | None => None
  end.

Definition isCalendarDate (s : string) : bool :=
  match parseCalendarDate s with
  | Some _ => true
  | None => false
  end.

(** What the script takes from the engine it runs on.
    - [StringToNumber s] is [Number(s)] for a string; the empty string
      reads as 0.
    - [DateFields s] describes [new Date(s)]: [None] for an invalid date,
      otherwise its [getFullYear()] and [getMonth()] in the local time
      zone.  [getMonth()] is a month index below 12, and the date-only ISO
      form of a calendar day always denotes a valid date. *)
Class Host : Type := {
  StringToNumber : string -> number;
  DateFields : string -> option (Z * nat);
  empty_string_zero : StringToNumber "" = Fin 0%Qc;
  getMonth_below_12 : forall s y m, DateFields s = Some (y, m) -> m < 12;
  calendar_date_valid : forall s, isCalendarDate s = true -> DateFields s <> None
}.

(** ** Ledger records

    Only the fields the engine reads.  The fields [date], [type], [amount],
    [id] and [name] occur in several records and carry the record's initials
    here. *)

Record SellEntry : Type := {
  se_date : option string;
  se_type : option string;
  se_amount : value
}.

Record LineItem : Type := {
  qty : value;
  price : value
}.

Record Invoice : Type := {
  invoiceDate : option string;
  inv_type : option string;
  items : list LineItem
}.

Record ExpenseType : Type := {
  et_id : string;
  et_name : string
}.

Record OtherExpense : Type := {
  oe_date : option string;
  typeId : option string;
  oe_amount : value
}.

Record State : Type := {
  sellEntries : list SellEntry;
  invoices : list Invoice;
  expenseTypes : list ExpenseType;
  otherExpenses : list OtherExpense
}.

Section Engine.
Context {host : Host}.

(** [Number(input)]. *)
Definition ToNumber (v : value) : number :=
  match v with
  | Undefined => NaN
  | Null => Fin 0%Qc
  | Boolean b => Fin (if b then 1 else 0)%Qc
  | Num n => n
  | Str s => StringToNumber s
  end.

(** [Number.isFinite(n) ? n : 0] for [n = Number(input)]. *)
Definition parseNumber (input : value) : Qc :=
  let n := ToNumber input in
  match n with
  | Fin q => q
  | _ => 0%Qc
  end.

(** [items.reduce((sum, i) => sum + parseNumber(i.qty || 1) * parseNumber(i.price), 0)] *)
Definition computeInvoiceTotal (its : list LineItem) : Qc :=
  fold_left
    (fun sum i => (sum + parseNumber (or (qty i) (Num (Fin 1%Qc))) * parseNumber (price i))%Qc)
    its 0%Qc.

End Engine.

(** The earlier script, [src/scripts/app.js], has the same helpers except
    for the invoice total, which does not read the quantity. *)
Module Legacy.
Section LegacyEngine.
Context {host : Host}.

(** [items.reduce((sum, i) => sum + parseNumber(i.price), 0)] *)
Definition computeInvoiceTotal (its : list LineItem) : Qc :=
  fold_left (fun sum i => (sum + parseNumber (price i))%Qc) its 0%Qc.

End LegacyEngine.
End Legacy.

(** ** Rows of the Profit & Loss table *)

Definition Row := list Qc.

(** [months.map(() => 0)]: twelve zeros. *)
Definition initRow : Row := repeat 0%Qc 12.

(** [row[i] += v] for an index of the row.  Every row of the engine has
    twelve slots and every index it computes is a month index, so the
    index is always in range; outside it the row is returned as it is. *)
Fixpoint add_at (i : nat) (v : Qc) (r : Row) : Row :=
  match r, i with
  | [], _ => []
  | x :: r', O => (x + v)%Qc :: r'
  | x :: r', S j => x :: add_at j v r'
  end.

(** [row[idx] += v] where [idx] comes from [getMonth()]: for an invalid
    date [idx] is [NaN], the assignment then writes a property named "NaN"
    and none of the twelve slots. *)
Definition add_at_index (idx : option nat) (v : Qc) (r : Row) : Row :=
  match idx with
  | Some i => add_at i v r
  | None => r
  end.

(** [arr.reduce((a, b) => a + b, 0)] *)
Definition totals (arr : Row) : Qc := fold_left Qcplus arr 0%Qc.

(** [sumCols]: [rows.forEach(r => r.forEach((v, i) => sums[i] += v))] *)
Definition sumCols (rows : list Row) : Row :=
  fold_left
    (fun sums r => fold_left (fun s iv => add_at (fst iv) (snd iv) s) (indexed r) sums)
    rows initRow.

Record Totals : Type := {
  t_sales : Qc;
  t_cogs : Qc;
  t_grossProfit : Qc;
  t_otherExpenses : Qc;
  t_ebit : Qc;
  t_net : Qc
}.

Record PLTable : Type := {
  months : list string;
  sales : Row;
  cogs : Row;
  grossProfit : Row;
  expenseRows : Js.map Row;
  otherExpensesSum : Row;
  ebit : Row;
  net : Row;
  pl_totals : Totals
}.

Record Series : Type := {
  labels : list string;
  values : list Qc
}.

Record Aligned : Type := {
  a_labels : list string;
  alignedValues : list (list Qc)
}.

(** The records a drill-down lists: invoices for the two invoice rows,
    other expenses for every other row. *)
Inductive Details : Type :=
| InvoiceDetails (l : list Invoice)
| ExpenseDetails (l : list OtherExpense).

Definition string_of_nat (n : nat) : string := string_of_Z (Z.of_nat n).

(** [`${year}-01-01`] and [`${year}-12-31`] *)
Definition yearStart (year : Z) : string := string_of_Z year ++ "-01-01".
Definition yearEnd (year : Z) : string := string_of_Z year ++ "-12-31".

(** [!d || d < yearStart || d > yearEnd]: the record is skipped. *)
Definition outsideYear (year : Z) (d : option string) : bool :=
  negb (truthy_field d) || lt_field d (yearStart year) || gt_field d (yearEnd year).

(** [(inv.type || '').toLowerCase() === 'product'] *)
Definition isProduct (inv : Invoice) : bool :=
  toLowerCase (or_field (inv_type inv) "") =? "product".

(** [mapToSortedSeries]; [map.get(l) || 0] *)
Definition mapToSortedSeries (m : Js.map Qc) : Series :=
  let labels := Js.sort (Js.keys m) in
  let values := List.map (fun l => match Js.get m l with
                                   | Some v => v
                                   | None => 0%Qc
                                   end) labels in
  {| labels := labels; values := values |}.

(** [alignSeriesLabels]; [s.values[idx] || 0] *)
Definition alignSeriesLabels (seriesList : list Series) : Aligned :=
  let labelSet :=
    fold_left (fun set s => fold_left set_add (labels s) set) seriesList [] in
  let labels' := Js.sort labelSet in
  let aligned :=
    List.map (fun s => List.map (fun l =>
      match indexOf (labels s) l with
      | Some idx => nth idx (values s) 0%Qc
      | None => 0%Qc
      end) labels') seriesList in
  {| a_labels := labels'; alignedValues := aligned |}.

Section Reports.
Context {host : Host}.

(** [new Date(d).getMonth()]; [None] is [NaN]. *)
Definition getMonth (d : option string) : option nat :=
  match d with
  | Some s => match DateFields s with
              | Some (_, m) => Some m
              | None => None
              end
  | None => None
  end.

(** The sales loop of [calcPLForYear]. *)
Definition salesRow (year : Z) (es : list SellEntry) : Row :=
  fold_left
    (fun sales e =>
       if outsideYear year (se_date e) then sales
       else
         let idx := getMonth (se_date e) in
         add_at_index idx (parseNumber (se_amount e)) sales)
    es initRow.

(** One turn of the invoice loop, on the pair of [cogs] and
    [invoiceExpenseRows]. *)
Definition invoiceStep (year : Z) (acc : Row * Js.map Row) (inv : Invoice)
  : Row * Js.map Row :=
  let (cogs, invoiceExpenseRows) := acc in
  if outsideYear year (invoiceDate inv) then acc
  else
    let idx := getMonth (invoiceDate inv) in
    let total := computeInvoiceTotal (items inv) in
    if isProduct inv then (add_at_index idx total cogs, invoiceExpenseRows)
    else
      let rows :=
        if negb (Js.has invoiceExpenseRows "Invoice Expenses")
        then Js.set invoiceExpenseRows "Invoice Expenses" initRow
        else invoiceExpenseRows in
      (cogs, Js.modify rows "Invoice Expenses" (add_at_index idx total)).

Definition invoiceRows (year : Z) (invs : list Invoice) : Row * Js.map Row :=
  fold_left (invoiceStep year) invs (initRow, []).

(** [new Map(state.expenseTypes.map(t => [t.id, t.name]))] *)
Definition typeById (ts : list ExpenseType) : Js.map string :=
  Js.of_entries (List.map (fun t => (et_id t, et_name t)) ts).

(** [typeById.get(exp.typeId) || 'Other'] *)
Definition expenseName (ts : list ExpenseType) (exp : OtherExpense) : string :=
  or_field (Js.get_field (typeById ts) (typeId exp)) "Other".

(** One turn of the other-expenses loop. *)
Definition expenseStep (year : Z) (ts : list ExpenseType)
  (expenseRows : Js.map Row) (exp : OtherExpense) : Js.map Row :=
  if outsideYear year (oe_date exp) then expenseRows
  else
    let idx := getMonth (oe_date exp) in
    let name := expenseName ts exp in
    let rows :=
      if negb (Js.has expenseRows name) then Js.set expenseRows name initRow
      else expenseRows in
    Js.modify rows name (add_at_index idx (parseNumber (oe_amount exp))).

(** [expenseRows] before the other-expenses loop: the copy of
    [invoiceExpenseRows], then one fresh row per name of the catalog. *)
Definition seededRows (ts : list ExpenseType) (invoiceExpenseRows : Js.map Row)
  : Js.map Row :=
  let names := Js.values (typeById ts) in
  fold_left (fun rows name => Js.set rows name initRow) names invoiceExpenseRows.

Definition calcPLForYear (st : State) (year : Z) : PLTable :=
  let months :=
    List.map (fun i => string_of_Z year ++ "-" ++ padStart 2 "0" (string_of_nat (i + 1)))
             (seq 0 12) in
  let sales := salesRow year (sellEntries st) in
  let (cogs, invoiceExpenseRows) := invoiceRows year (invoices st) in
  let expenseRows :=
    fold_left (expenseStep year (expenseTypes st)) (otherExpenses st)
              (seededRows (expenseTypes st) invoiceExpenseRows) in
  let grossProfit := List.map (fun iv => (snd iv - nth (fst iv) cogs 0)%Qc) (indexed sales) in
  let otherExpensesSum := sumCols (Js.values expenseRows) in
  let ebit :=
    List.map (fun iv => (snd iv - nth (fst iv) otherExpensesSum 0)%Qc) (indexed grossProfit) in
  let net := ebit in
  {| months := months;
     sales := sales; cogs := cogs; grossProfit := grossProfit;
     expenseRows := expenseRows; otherExpensesSum := otherExpensesSum;
     ebit := ebit; net := net;
     pl_totals :=
       {| t_sales := totals sales; t_cogs := totals cogs;
          t_grossProfit := totals grossProfit;
          t_otherExpenses := totals otherExpensesSum;
          t_ebit := totals ebit; t_net := totals net |} |}.

(** The record selection of [openPLDetails]: [month] is the two-digit
    text of the clicked cell. *)
Definition openPLDetails (st : State) (year : Z) (month label : string) : Details :=
  let monthStr := string_of_Z year ++ "-" ++ month in
  if label =? "Invoice Expenses" then
    InvoiceDetails
      (filter (fun inv => startsWith (or_field (invoiceDate inv) "") monthStr)
         (filter (fun inv => negb (isProduct inv)) (invoices st)))
  else if label =? "Cost of Goods Sold (Purchases)" then
    InvoiceDetails
      (filter (fun inv => startsWith (or_field (invoiceDate inv) "") monthStr)
         (filter isProduct (invoices st)))
  else
    let type := find (fun t => et_name t =? label) (expenseTypes st) in
    let id := match type with
              | Some t => or_field (Some (et_id t)) ""
              | None => ""
              end in
    ExpenseDetails
      (filter (fun e => startsWith (or_field (oe_date e) "") monthStr)
         (filter (fun e => eq_field (typeId e) id) (otherExpenses st))).

(** [monthKey] *)
Definition monthKey (dateStr : option string) : string :=
  if negb (truthy_field dateStr) then "Unknown"
  else
    match dateStr with
    | Some s =>
        match DateFields s with
        | None => "Unknown"
        | Some (y, m) => string_of_Z y ++ "-" ++ padStart 2 "0" (string_of_nat (m + 1))
        end
    | None => "Unknown"
    end.

(** [map.set(key, (map.get(key) || 0) + x)] *)
Definition accumulate (m : Js.map Qc) (key : string) (x : Qc) : Js.map Qc :=
  Js.set m key ((match Js.get m key with
                 | Some v => v
                 | None => 0
                 end) + x)%Qc.

(** [fromDate && d < fromDate] or [toDate && d > toDate]: the record is
    skipped. *)
Definition outsideBounds (fromDate toDate : string) (d : option string) : bool :=
  (negb (fromDate =? "") && lt_field d fromDate) ||
  (negb (toDate =? "") && gt_field d toDate).

Definition sellStep (fromDate toDate : string) (acc : Js.map Qc * Js.map Qc)
  (e : SellEntry) : Js.map Qc * Js.map Qc :=
  let (fiscalMap, nonFiscalMap) := acc in
  if outsideBounds fromDate toDate (se_date e) then acc
  else
    let key := monthKey (se_date e) in
    if eq_field (se_type e) "fiscal"
    then (accumulate fiscalMap key (parseNumber (se_amount e)), nonFiscalMap)
    else (fiscalMap, accumulate nonFiscalMap key (parseNumber (se_amount e))).

(** [aggregateByMonthSell]: the pair of the fiscal and the non-fiscal
    series. *)
Definition aggregateByMonthSell (st : State) (fromDate toDate : string)
  : Series * Series :=
  let (fiscalMap, nonFiscalMap) :=
    fold_left (sellStep fromDate toDate) (sellEntries st) ([], []) in
  (mapToSortedSeries fiscalMap, mapToSortedSeries nonFiscalMap).

Definition purchaseStep (fromDate toDate : string) (purchasesMap : Js.map Qc)
  (inv : Invoice) : Js.map Qc :=
  if outsideBounds fromDate toDate (invoiceDate inv) then purchasesMap
  else
    let key := monthKey (invoiceDate inv) in
    let total := computeInvoiceTotal (items inv) in
    accumulate purchasesMap key total.

Definition otherStep (fromDate toDate : string) (expensesMap : Js.map Qc)
  (exp : OtherExpense) : Js.map Qc :=
  if outsideBounds fromDate toDate (oe_date exp) then expensesMap
  else
    let key := monthKey (oe_date exp) in
    accumulate expensesMap key (parseNumber (oe_amount exp)).

(** [aggregateByMonthExpenses]: the pair of the purchases and the
    expenses series. *)
Definition aggregateByMonthExpenses (st : State) (fromDate toDate : string)
  : Series * Series :=
  let purchasesMap := fold_left (purchaseStep fromDate toDate) (invoices st) [] in
  let expensesMap := fold_left (otherStep fromDate toDate) (otherExpenses st) [] in
  (mapToSortedSeries purchasesMap, mapToSortedSeries expensesMap).

End Reports.

(** ** A reference host

    An engine whose local time zone is UTC, for the examples.  Its [Number]
    reads blank strings, optionally signed decimal literals and the
    infinities; its [Date] reads the date-only form [YYYY-MM-DD], the form
    the date inputs of the application produce.  It takes anything else for
    not a number and not a date, so it stands for a JavaScript engine on
    these forms only (no exponents, no hexadecimal literals, no other date
    formats). *)

Definition isBlank (c : ascii) : bool :=
  let n := nat_of_ascii c in
  ((n =? 32) || (n =? 9) || (n =? 10) || (n =? 13))%nat.

Fixpoint skipBlank (s : string) : string :=
  match s with
  | EmptyString => EmptyString
  | String c r => if isBlank c then skipBlank r else s
  end.

Fixpoint allBlank (s : string) : bool :=
  match s with
  | EmptyString => true
  | String c r => isBlank c && allBlank r
  end.

(** The leading digits of [s]: their value after [acc], their number
    after [count], and the rest of the string. *)
Fixpoint readDigits (s : string) (acc count : nat) : nat * nat * string :=
  match s with
  | EmptyString => (acc, count, EmptyString)
  | String c r =>
      match digit c with
      | Some d => readDigits r (10 * acc + d) (S count)
      | None => (acc, count, s)
      end
  end.

(** [i] followed by the [nf] decimals [f]. *)
Definition decimal (i f nf : nat) : Qc :=
  Q2Qc ((Z.of_nat i * 10 ^ Z.of_nat nf + Z.of_nat f) # Z.to_pos (10 ^ Z.of_nat nf)).

(** A decimal literal without sign and exponent, blanks allowed after it. *)
Definition unsignedLiteral (s : string) : number :=
  let '(i, ni, rest) := readDigits s 0 0 in
  match rest with
  | String "." r =>
      let '(f, nf, rest') := readDigits r 0 0 in
      if negb (ni + nf =? 0)%nat && allBlank rest' then Fin (decimal i f nf) else NaN
  | _ =>
      if negb (ni =? 0)%nat && allBlank rest then Fin (decimal i 0 0)
      else if (ni =? 0)%nat && startsWith rest "Infinity"
                && allBlank (substring 8 (String.length rest) rest)
      then PosInf else NaN
  end.

Definition negate (n : number) : number :=
  match n with
  | NaN => NaN
  | PosInf => NegInf
  | NegInf => PosInf
  | Fin q => Fin (- q)%Qc
  end.

Definition utcStringToNumber (s : string) : number :=
  match skipBlank s with
  | EmptyString => Fin 0%Qc
  | String "-" r => negate (unsignedLiteral r)
  | String "+" r => unsignedLiteral r
  | t => unsignedLiteral t
  end.

Definition utcDateFields (s : string) : option (Z * nat) :=
  match parseCalendarDate s with
  | Some (y, m, _) => Some (Z.of_nat y, m - 1)
  | None => None
  end.

Definition utcHost : Host.
Proof.
  refine {| StringToNumber := utcStringToNumber; DateFields := utcDateFields |}.
  - reflexivity.
  - intros s y m. unfold utcDateFields, parseCalendarDate.
    destruct (dateFields s) as [[[y0 m0] d0]|]; [|discriminate].
    destruct (isCalendarDay y0 m0 d0) eqn:E; [|discriminate].
    intros H; inversion H; subst.
    unfold isCalendarDay in E.
    repeat (apply andb_prop in E; destruct E as [E ?]).
    apply Nat.leb_le in E.
    match goal with H1 : (m0 <=? 12)%nat = true |- _ => apply Nat.leb_le in H1 end.
    lia.
  - intros s. unfold isCalendarDate, utcDateFields.
    destruct (parseCalendarDate s) as [[[y m] d]|]; [discriminate|].
    intros H; discriminate H.
Defined.

(** ** The vocabulary of the specification *)

Definition sumList (l : list Qc) : Qc := fold_right Qcplus 0%Qc l.

(** The sum of [f] over the records of [l]. *)
Definition sumOver (A : Type) (f : A -> Qc) (l : list A) : Qc := sumList (List.map f l).

Section Vocabulary.
Context {host : Host}.

(** The invoice total in the words of the specification: an absent
    quantity is 1, a negative or non-numeric quantity or price is 0. *)
Definition specCoerce (v : value) : Qc :=
  match ToNumber v with
  | Fin q => if Qclt_le_dec q 0 then 0%Qc else q
  | _ => 0%Qc
  end.

Definition specQuantity (v : value) : Qc :=
  match v with
  | Undefined => 1%Qc
  | _ => specCoerce v
  end.

Definition specInvoiceTotal (its : list LineItem) : Qc :=
  sumOver (fun i => (specQuantity (qty i) * specCoerce (price i))%Qc) its.

(** What a quantity counts for in the code: 1 when it is absent or falsy
    in any other way, its numeric reading otherwise. *)
Definition quantityOf (v : value) : Qc :=
  match v with
  | Undefined | Null | Boolean false | Num NaN | Str "" => 1%Qc
  | Num (Fin q) => if Qc_eq_bool q 0 then 1%Qc else q
  | _ => parseNumber v
  end.

(** An item on which both readings agree: the quantity is absent or
    reads as a positive number, the price does not read as a negative
    one. *)
Definition plainItem (i : LineItem) : Prop :=
  (qty i = Undefined \/ (0 < parseNumber (qty i))%Qc) /\ (0 <= parseNumber (price i))%Qc.
End Vocabulary.

(** ** Sample ledgers *)

(** One line of two units at 30. *)
Definition twoAtThirty : list LineItem :=
  [ {| qty := num 2; price := num 30 |} ].

(** One line with a negative quantity. *)
Definition minusTwoAtThree : list LineItem :=
  [ {| qty := num (-2); price := num 3 |} ].

(** ** Buckets *)

(** The date lies in ["{year}-01-01", "{year}-12-31"] in the lexicographic
    order of strings. *)
Definition inYear (year : Z) (d : option string) : bool :=
  match d with
  | Some s => String.leb (yearStart year) s && String.leb s (yearEnd year)
  | None => false
  end.

(** The field is a zero-padded [YYYY-MM-DD] string that denotes a day of
    the calendar. *)
Definition calendarField (d : option string) : Prop :=
  exists s, d = Some s /\ isCalendarDate s = true.

(** The month index is [m]. *)
Definition isMonth (m : nat) (idx : option nat) : bool :=
  match idx with
  | Some i => (i =? m)%nat
  | None => false
  end.

(** The loop shared by the rows of the table: every record that is kept
    adds its value to the slot of its month index. *)
Definition bucketFold (A : Type) (keep : A -> bool) (idx : A -> option nat)
  (val : A -> Qc) (l : list A) (r0 : Row) : Row :=
  fold_left (fun r a => if keep a then add_at_index (idx a) (val a) r else r) l r0.

(** The sum of [val] over the kept records of [l] whose month index is [m]. *)
Definition monthSum (A : Type) (keep : A -> bool) (idx : A -> option nat)
  (val : A -> Qc) (m : nat) (l : list A) : Qc :=
  sumOver val (filter (fun a => keep a && isMonth m (idx a)) l).

(** The scenario of the specification, with one more sale in the year
    before and one on the last day of the year. *)
Definition scenario : State := {|
  sellEntries :=
    [ {| se_date := Some "2024-01-15"; se_type := Some "fiscal"; se_amount := num 100 |};
      {| se_date := Some "2023-12-31"; se_type := Some "fiscal"; se_amount := num 7 |};
      {| se_date := Some "2024-12-31"; se_type := Some "non-fiscal"; se_amount := Str "25" |} ];
  invoices :=
    [ {| invoiceDate := Some "2024-01-20"; inv_type := Some "Product"; items := twoAtThirty |};
      {| invoiceDate := Some "2024-03-05"; inv_type := Some "service";
           items := [ {| qty := Undefined; price := num 12 |} ] |} ];
  expenseTypes := [ {| et_id := "rent"; et_name := "Rent" |} ];
  otherExpenses :=
    [ {| oe_date := Some "2024-02-01"; typeId := Some "rent"; oe_amount := num 50 |};
      {| oe_date := Some "2024-02-10"; typeId := Some "ghost"; oe_amount := num 9 |} ]
|}.

(** The names of a list in the order of their first occurrence. *)
Definition firstOccurrences (l : list string) : list string := fold_left set_add l [].

(** The row stored under [k], or a fresh row where there is none yet. *)
Definition rowOrFresh (rows : Js.map Row) (k : string) : Row :=
  match Js.get rows k with
  | Some r => r
  | None => initRow
  end.

(** Every row of a map has twelve slots. *)
Definition twelveWide (rows : Js.map Row) : Prop :=
  Forall (fun r => List.length r = 12) (Js.values rows).

Section Selections.
Context {host : Host}.

Definition invoiceTotal (inv : Invoice) : Qc := computeInvoiceTotal (items inv).

(** The invoices of the year that are product invoices, and those that
    are not. *)
Definition productOfYear (year : Z) (inv : Invoice) : bool :=
  inYear year (invoiceDate inv) && isProduct inv.

Definition otherOfYear (year : Z) (inv : Invoice) : bool :=
  inYear year (invoiceDate inv) && negb (isProduct inv).

(** The other expenses of the year whose row is [name]. *)
Definition expenseOfRow (year : Z) (ts : list ExpenseType) (name : string)
  (e : OtherExpense) : bool :=
  inYear year (oe_date e) && (expenseName ts e =? name).

(** No expense type of the catalogue has the id the expense refers to. *)
Definition unmatched (ts : list ExpenseType) (e : OtherExpense) : Prop :=
  forall t, In t ts -> typeId e <> Some (et_id t).
End Selections.

(** A catalogue with an expense type named like the synthetic invoice row,
    and no invoice at all. *)
Definition collidingCatalogue : State := {|
  sellEntries := [];
  invoices := [];
  expenseTypes := [ {| et_id := "ext_1"; et_name := "Invoice Expenses" |} ];
  otherExpenses := []
|}.

(** ** Series *)

(** Strictly ascending order of strings, by code units. *)
Definition strLt (a b : string) : Prop := String.ltb a b = true.

(** The union of the labels of a list of series, as a set. *)
Definition unionLabels (seriesList : list Series) : list string :=
  nodup string_dec (List.concat (List.map labels seriesList)).

(** The value a series has at a label: labels and values are read side
    by side and the first pair with this label gives the value. *)
Fixpoint lookupSeries (ls : list string) (vs : list Qc) (l : string) : option Qc :=
  match ls, vs with
  | x :: ls', v :: vs' => if x =? l then Some v else lookupSeries ls' vs' l
  | _, _ => None
  end.

Definition valueAt (s : Series) (l : string) : Qc :=
  match lookupSeries (labels s) (values s) l with
  | Some v => v
  | None => 0%Qc
  end.

(** ** Month aggregation *)

(** The loop shared by the month aggregators: every record that is kept
    adds its value under its key. *)
Definition groupFold (A : Type) (keep : A -> bool) (key : A -> string)
  (val : A -> Qc) (l : list A) (m0 : Js.map Qc) : Js.map Qc :=
  fold_left (fun m a => if keep a then accumulate m (key a) (val a) else m) l m0.

(** The value stored under [k], 0 where there is none. *)
Definition getOrZero (m : Js.map Qc) (k : string) : Qc :=
  match Js.get m k with
  | Some v => v
  | None => 0%Qc
  end.

(** The ledger without the records whose bucketing date is the empty
    string. *)
Definition withoutEmptyDates (st : State) : State := {|
  sellEntries := filter (fun e => negb (eq_field (se_date e) "")) (sellEntries st);
  invoices := filter (fun inv => negb (eq_field (invoiceDate inv) "")) (invoices st);
  expenseTypes := expenseTypes st;
  otherExpenses := filter (fun e => negb (eq_field (oe_date e) "")) (otherExpenses st)
|}.

Section Unknown.
Context {host : Host}.

(** The date is missing, empty, or not a date the host can read. *)
Definition unknownDate (d : option string) : bool :=
  match d with
  | Some s => (s =? "") || match DateFields s with
                           | Some _ => false
                           | None => true
                           end
  | None => true
  end.

(** Sell entries of unknown date that go to the same series as [e]: the
    fiscal one when the type is "fiscal", the non-fiscal one otherwise. *)
Definition sameUnknownBucket (e x : SellEntry) : bool :=
  unknownDate (se_date x)
  && Bool.eqb (eq_field (se_type x) "fiscal") (eq_field (se_type e) "fiscal").
End Unknown.

(** Three sales without a usable date, and one with a date. *)
Definition undatedSales : State := {|
  sellEntries :=
    [ {| se_date := Some ""; se_type := Some "fiscal"; se_amount := num 40 |};
      {| se_date := Some "2024-03-09"; se_type := Some "fiscal"; se_amount := num 5 |};
      {| se_date := None; se_type := Some "fiscal"; se_amount := num 2 |};
      {| se_date := Some ""; se_type := Some "non-fiscal"; se_amount := num 8 |} ];
  invoices :=
    [ {| invoiceDate := Some ""; inv_type := Some "product"; items := twoAtThirty |} ];
  expenseTypes := [];
  otherExpenses :=
    [ {| oe_date := Some ""; typeId := Some "rent"; oe_amount := num 50 |} ]
|}.

Section Kept.
Context {host : Host}.

(** The sell entries the aggregator keeps for its fiscal and for its
    non-fiscal series, and the key it files them under. *)
Definition fiscalKept (fromDate toDate : string) (e : SellEntry) : bool :=
  negb (outsideBounds fromDate toDate (se_date e)) && eq_field (se_type e) "fiscal".

Definition nonFiscalKept (fromDate toDate : string) (e : SellEntry) : bool :=
  negb (outsideBounds fromDate toDate (se_date e)) && negb (eq_field (se_type e) "fiscal").

Definition sellKey (e : SellEntry) : string := monthKey (se_date e).
Definition sellAmount (e : SellEntry) : Qc := parseNumber (se_amount e).
End Kept.

(** A catalogue in which two expense types share one id. *)
Definition sharedId : State := {|
  sellEntries := [];
  invoices := [];
  expenseTypes := [ {| et_id := "ext_1"; et_name := "Travel" |};
                    {| et_id := "ext_1"; et_name := "Fuel" |} ];
  otherExpenses := []
|}.

(** ** The dashboard *)

(** [f >= s] and [f <= s] on a field that may be missing: a missing
    field makes either test false. *)
Definition ge_field (f : option string) (s : string) : bool :=
  match f with
  | Some d => String.leb s d
  | None => false
  end.

Definition le_field (f : option string) (s : string) : bool :=
  match f with
  | Some d => String.leb d s
  | None => false
  end.

(** [(!fromDate || d >= fromDate) && (!toDate || d <= toDate)]: the
    record counts for the totals of the dashboard. *)
Definition insideBounds (fromDate toDate : string) (d : option string) : bool :=
  ((fromDate =? "") || ge_field d fromDate) && ((toDate =? "") || le_field d toDate).

(** The figures [renderDashboard] writes to the page and the data it
    hands to the two month charts. *)
Record Dashboard : Type := {
  fiscalSales : Qc;
  nonFiscalSales : Qc;
  totalSales : Qc;
  totalPurchases : Qc;
  totalOtherExpenses : Qc;
  totalExpenses : Qc;
  netResult : Qc;
  sellLabels : list string;
  fiscalVals : list Qc;
  nonFiscalVals : list Qc;
  expLabels : list string;
  purchaseVals : list Qc;
  expenseVals : list Qc
}.

Section DashboardFigures.
Context {host : Host}.

Definition renderDashboard (st : State) (fromDate toDate : string) : Dashboard :=
  let fiscalSales :=
    fold_left (fun s e => (s + parseNumber (se_amount e))%Qc)
      (filter (fun e => eq_field (se_type e) "fiscal"
                        && insideBounds fromDate toDate (se_date e))
         (sellEntries st)) 0%Qc in
  let nonFiscalSales :=
    fold_left (fun s e => (s + parseNumber (se_amount e))%Qc)
      (filter (fun e => eq_field (se_type e) "non-fiscal"
                        && insideBounds fromDate toDate (se_date e))
         (sellEntries st)) 0%Qc in
  let totalSales := (fiscalSales + nonFiscalSales)%Qc in
  let totalPurchases :=
    fold_left (fun s inv => (s + computeInvoiceTotal (items inv))%Qc)
      (filter (fun inv => insideBounds fromDate toDate (invoiceDate inv)) (invoices st))
      0%Qc in
  let totalOtherExpenses :=
    fold_left (fun s e => (s + parseNumber (oe_amount e))%Qc)
      (filter (fun e => insideBounds fromDate toDate (oe_date e)) (otherExpenses st))
      0%Qc in
  let totalExpenses := (totalPurchases + totalOtherExpenses)%Qc in
  let netResult := (totalSales - totalExpenses)%Qc in
  let sellSeries := aggregateByMonthSell st fromDate toDate in
  let expensesSeries := aggregateByMonthExpenses st fromDate toDate in
  let sellAligned := alignSeriesLabels [fst sellSeries; snd sellSeries] in
  let expAligned := alignSeriesLabels [fst expensesSeries; snd expensesSeries] in
  {| fiscalSales := fiscalSales;
     nonFiscalSales := nonFiscalSales;
     totalSales := totalSales;
     totalPurchases := totalPurchases;
     totalOtherExpenses := totalOtherExpenses;
     totalExpenses := totalExpenses;
     netResult := netResult;
     sellLabels := a_labels sellAligned;
     fiscalVals := nth 0 (alignedValues sellAligned) [];
     nonFiscalVals := nth 1 (alignedValues sellAligned) [];
     expLabels := a_labels expAligned;
     purchaseVals := nth 0 (alignedValues expAligned) [];
     expenseVals := nth 1 (alignedValues expAligned) [] |}.

(** [aggregateByMonthBuy] *)
Definition aggregateByMonthBuy (st : State) : Series :=
  let map :=
    fold_left
      (fun map inv =>
         let key := monthKey (invoiceDate inv) in
         let total := computeInvoiceTotal (items inv) in
         accumulate map key total)
      (invoices st) [] in
  mapToSortedSeries map.

End DashboardFigures.

(** The sum of the values a map holds. *)
Definition mapSum (m : Js.map Qc) : Qc := sumList (Js.values m).

(** The date is missing although the dashboard has a bound. *)
Definition undatedUnderBounds (fromDate toDate : string) (d : option string) : bool :=
  negb ((fromDate =? "") && (toDate =? ""))
  && match d with
     | Some _ => false
     | None => true
     end.

(** The sell entries the non-fiscal chart series shows and the non-fiscal
    total leaves out: entries of type "non-fiscal" without a date under a
    bound, and entries of any third type that the bounds keep. *)
Definition nonFiscalChartOnly (fromDate toDate : string) (e : SellEntry) : bool :=
  negb (eq_field (se_type e) "fiscal")
  && (if eq_field (se_type e) "non-fiscal"
      then undatedUnderBounds fromDate toDate (se_date e)
      else negb (outsideBounds fromDate toDate (se_date e))).

(** ** Totals of the expense rows *)

(** The sum of all slots of all rows of a map. *)
Definition mapTotal (rows : Js.map Row) : Qc := sumOver sumList (Js.values rows).

(** A name of the catalogue map [typeById] is the name of the synthetic
    invoice row. *)
Definition declaresInvoiceExpenses (ts : list ExpenseType) : bool :=
  set_has (Js.values (typeById ts)) "Invoice Expenses".

(** ** Dates as text *)

(** The character of a decimal digit, and the text of a date with the
    given digits. *)
Definition digitChar (n : nat) : ascii := ascii_of_nat (48 + n).

Definition fourDigits (a b c d : nat) : string :=
  String (digitChar a) (String (digitChar b) (String (digitChar c)
    (String (digitChar d) EmptyString))).

Definition monthDayText (e f g h : nat) : string :=
  String "-" (String (digitChar e) (String (digitChar f)
    (String "-" (String (digitChar g) (String (digitChar h) EmptyString))))).

(** A test that holds for all four digits. *)
Definition forDigits (p : nat -> nat -> nat -> nat -> bool) : bool :=
  forallb (fun a => forallb (fun b => forallb (fun c => forallb (fun d => p a b c d)
    (seq 0 10)) (seq 0 10)) (seq 0 10)) (seq 0 10).

(** ** Text written to the page and to CSV files *)

(** The double quote and the line feed, by their code units. *)
Definition dquote : ascii := ascii_of_nat 34.
Definition newline : ascii := ascii_of_nat 10.

(** [s.replaceAll(c, r)] for a pattern [c] of one character. *)
Fixpoint replaceAll (c : ascii) (r : string) (s : string) : string :=
  match s with
  | EmptyString => EmptyString
  | String x s' =>
      if Ascii.eqb x c then (r ++ replaceAll c r s')%string
      else String x (replaceAll c r s')
  end.

(** [String(v ?? '')] on a string that may be missing. *)
Definition orEmpty (v : option string) : string :=
  match v with
  | Some s => s
  | None => ""
  end.

(** [escapeHtml] *)
Definition escapeHtml (str : option string) : string :=
  replaceAll "'" "&#039;"
    (replaceAll dquote "&quot;"
       (replaceAll ">" "&gt;"
          (replaceAll "<" "&lt;"
             (replaceAll "&" "&amp;" (orEmpty str))))).

(** The test of [downloadCsv]: the text holds a double quote, a comma or
    a line feed. *)
Fixpoint needsQuotes (s : string) : bool :=
  match s with
  | EmptyString => false
  | String x s' =>
      Ascii.eqb x dquote || Ascii.eqb x "," || Ascii.eqb x newline || needsQuotes s'
  end.

(** The cell callback of [downloadCsv]. *)
Definition csvCell (v : option string) : string :=
  let s := orEmpty v in
  if needsQuotes s
  then String dquote (replaceAll dquote (String dquote (String dquote "")) s
                      ++ String dquote "")
  else s.

(** [arr.join(sep)] on strings. *)
Fixpoint join (sep : string) (l : list string) : string :=
  match l with
  | [] => ""
  | [x] => x
  | x :: r => x ++ sep ++ join sep r
  end.

(** The text [downloadCsv] puts in the file. *)
Definition downloadCsv (rows : list (list (option string))) : string :=
  join (String newline "") (List.map (fun r => join "," (List.map csvCell r)) rows).

(** *** Reading the text back *)

(** The text an entity-decoding reader shows for an escaped text: the five
    entities [escapeHtml] writes stand for their characters.  [skip] counts
    the characters of an entity still to pass over. *)
Fixpoint decodeEntities (skip : nat) (s : string) : string :=
  match s with
  | EmptyString => EmptyString
  | String x s' =>
      match skip with
      | S k => decodeEntities k s'
      | 0 =>
          if String.prefix "&amp;" s then String "&" (decodeEntities 4 s')
          else if String.prefix "&lt;" s then String "<" (decodeEntities 3 s')
          else if String.prefix "&gt;" s then String ">" (decodeEntities 3 s')
          else if String.prefix "&quot;" s then String dquote (decodeEntities 5 s')
          else if String.prefix "&#039;" s then String "'" (decodeEntities 5 s')
          else String x (decodeEntities 0 s')
      end
  end.

(** One character of a text and its escaped form. *)
Definition escapeChar (x : ascii) : string :=
  if Ascii.eqb x "&" then "&amp;"
  else if Ascii.eqb x "<" then "&lt;"
  else if Ascii.eqb x ">" then "&gt;"
  else if Ascii.eqb x dquote then "&quot;"
  else if Ascii.eqb x "'" then "&#039;"
  else String x "".

Fixpoint escapeText (s : string) : string :=
  match s with
  | EmptyString => EmptyString
  | String x s' => (escapeChar x ++ escapeText s')%string
  end.

(** The characters of a string. *)
Fixpoint chars (s : string) : list ascii :=
  match s with
  | EmptyString => []
  | String x s' => x :: chars s'
  end.

(** A reader of comma separated text: fields end at a comma, records at
    a line feed; a field in double quotes runs to its closing quote and a
    doubled quote inside stands for one quote.  The result is read from the
    right: the text that follows has been read already and the character
    at hand goes in front of its first field. *)
Definition addChar (c : ascii) (rows : list (list string)) : list (list string) :=
  match rows with
  | (f :: fs) :: rs => (String c f :: fs) :: rs
  | _ => rows
  end.

Definition newField (rows : list (list string)) : list (list string) :=
  match rows with
  | r :: rs => ("" :: r) :: rs
  | [] => []
  end.

Definition newRecord (rows : list (list string)) : list (list string) := [""] :: rows.

Fixpoint readCsv (quoted : bool) (s : string) : list (list string) :=
  match s with
  | EmptyString => [[""]]
  | String c s' =>
      if quoted then
        if Ascii.eqb c dquote then
          match s' with
          | String c2 s'' =>
              if Ascii.eqb c2 dquote then addChar dquote (readCsv true s'')
              else readCsv false s'
          | EmptyString => readCsv false s'
          end
        else addChar c (readCsv true s')
      else if Ascii.eqb c dquote then readCsv true s'
      else if Ascii.eqb c "," then newField (readCsv false s')
      else if Ascii.eqb c newline then newRecord (readCsv false s')
      else addChar c (readCsv false s')
  end.

(** The characters that open or close markup or an attribute value. *)
Definition markup (c : ascii) : bool :=
  Ascii.eqb c "<" || Ascii.eqb c ">" || Ascii.eqb c dquote || Ascii.eqb c "'".

(** The reader puts a whole text in front of the field at hand. *)
Definition addText (t : string) (rows : list (list string)) : list (list string) :=
  fold_right addChar rows (chars t).

(** The text does not begin with a double quote. *)
Definition noQuoteAhead (s : string) : Prop :=
  match s with
  | EmptyString => True
  | String c _ => Ascii.eqb c dquote = false
  end.

(** ** The Profit & Loss export *)

Section ProfitLossExport.
Context {host : Host}.

(** [n.toFixed(2)], which the model leaves to the engine. *)
Variable toFixed2 : Qc -> string.

Definition plHead : list string :=
  ["Line"; "01-Jan"; "02-Feb"; "03-Mar"; "04-Apr"; "05-May"; "06-Jun"; "07-Jul";
   "08-Aug"; "09-Sep"; "10-Oct"; "11-Nov"; "12-Dec"; "Full Year"].

(** The row [push(label, vals)] appends. *)
Definition push (label : string) (vals : Row) : list string :=
  (label :: List.map toFixed2 vals ++ [toFixed2 (fold_left Qcplus vals 0%Qc)])%list.

(** The rows [exportPLCsv] hands to [downloadCsv], and the text of the
    file. *)
Definition exportPLRows (st : State) (year : Z) : list (list string) :=
  let d := calcPLForYear st year in
  ([plHead;
    push "Net Sales" (sales d);
    push "COGS (Products)" (cogs d);
    push "Gross Profit" (grossProfit d);
    ["Operating Expenses"]]
   ++ List.map (fun entry => push (fst entry) (snd entry)) (expenseRows d)
   ++ [push "Total Operating Expenses" (otherExpensesSum d);
       push "EBIT" (ebit d);
       push "Net Earnings" (net d)])%list.

Definition exportPLCsv (st : State) (year : Z) : string :=
  downloadCsv (List.map (List.map Some) (exportPLRows st year)).

End ProfitLossExport.

(** ** Payments

    What the payment code reads and writes of an invoice or of an other
    expense: its id and its two payment fields. *)
Record Payable : Type := {
  p_id : string;
  paymentMethod : option string;
  paymentDate : option string
}.

Record Ledger : Type := {
  paidInvoices : list Payable;
  paidExpenses : list Payable
}.

(** The record a payment button refers to: [{ type, id }]. *)
Record Target : Type := {
  targetType : string;
  targetId : string
}.

(** [paymentBtnText] *)
Definition paymentBtnText (method : string) : string :=
  if method =? "card" then "Card"
  else if method =? "cash" then "Cash"
  else "Not paid".

(** [getPaymentState]: the pair of [method] and [date]. *)
Definition getPaymentState (led : Ledger) (target : Target) : string * string :=
  if targetType target =? "invoice" then
    match find (fun i => p_id i =? targetId target) (paidInvoices led) with
    | Some inv => (or_field (paymentMethod inv) "", or_field (paymentDate inv) "")
    | None => ("", "")
    end
  else if targetType target =? "other" then
    match find (fun e => p_id e =? targetId target) (paidExpenses led) with
    | Some exp => (or_field (paymentMethod exp) "", or_field (paymentDate exp) "")
    | None => ("", "")
    end
  else ("", "").

(** The assignment to the record [find] returns: the first record with
    the id changes in place. *)
Fixpoint assignFirst (id : string) (f : Payable -> Payable) (l : list Payable)
  : list Payable :=
  match l with
  | [] => []
  | x :: r => if p_id x =? id then f x :: r else x :: assignFirst id f r
  end.

(** [setPaymentState] *)
Definition setPaymentState (led : Ledger) (target : Target) (method date : string)
  : Ledger :=
  let assign := fun x : Payable =>
    {| p_id := p_id x;
       paymentMethod := Some method;
       paymentDate := Some (if negb (method =? "") then date else "") |} in
  if targetType target =? "invoice" then
    {| paidInvoices := assignFirst (targetId target) assign (paidInvoices led);
       paidExpenses := paidExpenses led |}
  else if targetType target =? "other" then
    {| paidInvoices := paidInvoices led;
       paidExpenses := assignFirst (targetId target) assign (paidExpenses led) |}
  else led.

(** One turn of either loop of [aggregatePaymentsByMethod], on the pair
    of [cash] and [bank]. *)
Definition paymentStep (fromDate toDate : string) (acc : nat * nat) (x : Payable)
  : nat * nat :=
  let (cash, bank) := acc in
  if negb (truthy_field (paymentMethod x)) then acc
  else if negb (fromDate =? "") && truthy_field (paymentDate x)
          && lt_field (paymentDate x) fromDate then acc
  else if negb (toDate =? "") && truthy_field (paymentDate x)
          && gt_field (paymentDate x) toDate then acc
  else
    let cash := if eq_field (paymentMethod x) "cash" then S cash else cash in
    let bank := if eq_field (paymentMethod x) "bank" then S bank else bank in
    (cash, bank).

(** [aggregatePaymentsByMethod]: the pair of [cash] and [bank]. *)
Definition aggregatePaymentsByMethod (led : Ledger) (fromDate toDate : string)
  : nat * nat :=
  fold_left (paymentStep fromDate toDate) (paidExpenses led)
    (fold_left (paymentStep fromDate toDate) (paidInvoices led) (0, 0)).

(** The bounds of the payments chart keep the record: it has no payment
    date, or its payment date is not before [fromDate] and not after
    [toDate], a bound that is empty not being applied. *)
Definition paymentKept (fromDate toDate : string) (x : Payable) : bool :=
  negb (truthy_field (paymentDate x))
  || (((fromDate =? "") || negb (lt_field (paymentDate x) fromDate))
      && ((toDate =? "") || negb (gt_field (paymentDate x) toDate))).

(** The number of records that satisfy a test. *)
Definition count (A : Type) (p : A -> bool) (l : list A) : nat :=
  List.length (filter p l).

(** The record exists that a payment target refers to. *)
Definition targetRecord (led : Ledger) (target : Target) : option Payable :=
  if targetType target =? "invoice"
  then find (fun i => p_id i =? targetId target) (paidInvoices led)
  else if targetType target =? "other"
  then find (fun e => p_id e =? targetId target) (paidExpenses led)
  else None.

(** The record counts for the cash (for the bank) column of the payments
    chart. *)
Definition countsAs (method fromDate toDate : string) (x : Payable) : bool :=
  eq_field (paymentMethod x) method && paymentKept fromDate toDate x.

Definition allPayables (led : Ledger) : list Payable :=
  (paidInvoices led ++ paidExpenses led)%list.

(** An unpaid invoice and an expense paid by bank transfer. *)
Definition sampleLedger : Ledger := {|
  paidInvoices := [ {| p_id := "inv_1"; paymentMethod := None; paymentDate := None |} ];
  paidExpenses := [ {| p_id := "oex_1"; paymentMethod := Some "bank";
                       paymentDate := Some "2024-03-02" |} ]
|}.

(** The sum over all rows of a map of one measure of a row. *)
Definition mapWeight (w : Row -> Qc) (rows : Js.map Row) : Qc := sumOver w (Js.values rows).

(** The click handler of the delete button of an expense type;
    [confirmed] is the answer to the question it asks. *)
Definition deleteExpenseType (st : State) (id : string) (confirmed : bool) : State :=
  let used := existsb (fun e => eq_field (typeId e) id) (otherExpenses st) in
  if used then st
  else if negb confirmed then st
  else {| sellEntries := sellEntries st;
          invoices := invoices st;
          expenseTypes := filter (fun t => negb (et_id t =? id)) (expenseTypes st);
          otherExpenses := otherExpenses st |}.

(** A map without a key. *)
Definition without (V : Type) (id : string) (m : Js.map V) : Js.map V :=
  filter (fun kv => negb (fst kv =? id)) m.

(** ** The invoice form *)

(** [x < y] and [x <= y] on finite numbers. *)
Definition Qcltb (x y : Qc) : bool := if Qclt_le_dec x y then true else false.
Definition Qcleb (x y : Qc) : bool := if Qclt_le_dec y x then false else true.

(** A row of the form: the value of its item select and of its quantity
    input, either of which the code allows to be missing, and the value of
    its price input. *)
Record ItemRow : Type := {
  itemSelect : option string;
  itemQty : option string;
  itemPrice : string
}.

(** An item as the form reads it. *)
Record FormItem : Type := {
  fi_itemId : option string;
  fi_qty : Qc;
  fi_price : Qc
}.

Section InvoiceForm.
Context {host : Host}.

(** [parseNumber(row.querySelector('.item-qty')?.value || 1)] *)
Definition rowQty (row : ItemRow) : Qc :=
  parseNumber (match itemQty row with
               | Some v => or (Str v) (Num (Fin 1%Qc))
               | None => Num (Fin 1%Qc)
               end).

(** The object the submit handler makes of a row. *)
Definition readItem (row : ItemRow) : FormItem :=
  {| fi_itemId := match itemSelect row with
                  | Some v => if truthy_field (Some v) then Some v else None
                  | None => None
                  end;
     fi_qty := rowQty row;
     fi_price := parseNumber (Str (itemPrice row)) |}.

(** [(i.itemId || i.price > 0) && i.price >= 0 && i.qty > 0] *)
Definition keepItem (i : FormItem) : bool :=
  (truthy_field (fi_itemId i) || Qcltb 0 (fi_price i))
  && Qcleb 0 (fi_price i) && Qcltb 0 (fi_qty i).

Definition formItems (rows : list ItemRow) : list FormItem :=
  filter keepItem (List.map readItem rows).

(** The item as the ledger stores it and the engine reads it. *)
Definition lineItem (i : FormItem) : LineItem :=
  {| qty := Num (Fin (fi_qty i)); price := Num (Fin (fi_price i)) |}.

(** The items of the invoice the submit handler saves. *)
Definition savedItems (rows : list ItemRow) : list LineItem :=
  List.map lineItem (formItems rows).

(** [recalcInvoiceTotal]: the total shown on the form. *)
Definition recalcInvoiceTotal (rows : list ItemRow) : Qc :=
  fold_left
    (fun sum row =>
       let qty := rowQty row in
       let price := parseNumber (or (Str (itemPrice row)) (Num (Fin 0%Qc))) in
       (sum + qty * price)%Qc)
    rows 0%Qc.

(** One row's part of the total shown. *)
Definition rowAmount (row : ItemRow) : Qc :=
  (rowQty row * parseNumber (Str (itemPrice row)))%Qc.

End InvoiceForm.

(** ** Users *)

(** [ToInt32]: the value wrapped to the signed 32-bit range. *)
Definition toInt32 (z : Z) : Z := ((z + 2 ^ 31) mod 2 ^ 32 - 2 ^ 31)%Z.

(** [s.charCodeAt(i)] *)
Definition charCode (c : ascii) : Z := Z.of_nat (nat_of_ascii c).

(** One turn of the loop of [hashPassword]:
    [hash = ((hash << 5) - hash) + char; hash = hash & hash]. *)
Definition hashStep (hash : Z) (c : ascii) : Z :=
  let char := charCode c in
  let hash := (toInt32 (Z.shiftl (toInt32 hash) 5) - hash + char)%Z in
  Z.land (toInt32 hash) (toInt32 hash).

Definition hashValue (password : string) : Z := fold_left hashStep (chars password) 0%Z.

(** [hashPassword] *)
Definition hashPassword (password : string) : string := string_of_Z (hashValue password).

(** [s.trim()] on code units below 256: tab to carriage return, space
    and no-break space go. *)
Definition isSpace (c : ascii) : bool :=
  let n := nat_of_ascii c in
  ((9 <=? n) && (n <=? 13) || (n =? 32) || (n =? 160))%nat.

Fixpoint trimStart (s : string) : string :=
  match s with
  | EmptyString => EmptyString
  | String c s' => if isSpace c then trimStart s' else s
  end.

Fixpoint trimEnd (s : string) : string :=
  match s with
  | EmptyString => EmptyString
  | String c s' =>
      let t := trimEnd s' in
      if (t =? "") && isSpace c then EmptyString else String c t
  end.

Definition trim (s : string) : string := trimEnd (trimStart s).

Record User : Type := {
  u_id : string;
  u_name : string;
  u_surname : string;
  u_description : string;
  u_username : string;
  passwordHash : string;
  createdAt : string
}.

(** The values of the fields of the registration form. *)
Record RegisterFields : Type := {
  f_name : string;
  f_surname : string;
  f_description : string;
  f_username : string;
  f_password : string;
  f_confirm : string
}.

(** [state.currentUser] after a login. *)
Record CurrentUser : Type := {
  cu_id : string;
  cu_name : string;
  cu_surname : string;
  cu_username : string
}.

(** The submit handler of the registration form, on [state.users];
    [newId] and [now] are what [generateId('user')] and
    [new Date().toISOString()] return. *)
Definition register (users : list User) (f : RegisterFields) (newId now : string)
  : list User :=
  let name := trim (f_name f) in
  let surname := trim (f_surname f) in
  let description := trim (f_description f) in
  let username := trim (f_username f) in
  let password := f_password f in
  let confirmPassword := f_confirm f in
  if (name =? "") || (surname =? "") || (username =? "") || (password =? "") then users
  else if negb (password =? confirmPassword) then users
  else if (String.length password <? 6)%nat then users
  else
    match find (fun u => u_username u =? username) users with
    | Some _ => users
    | None =>
        (users ++ [ {| u_id := newId; u_name := name; u_surname := surname;
                       u_description := description; u_username := username;
                       passwordHash := hashPassword password; createdAt := now |} ])%list
    end.

(** The local login of both login forms: the user it makes current, or
    [None] when it reports an error. *)
Definition login (users : list User) (usernameField password : string)
  : option CurrentUser :=
  let username := trim usernameField in
  if (username =? "") || (password =? "") then None
  else
    match find (fun u => u_username u =? username) users with
    | Some user =>
        if negb (passwordHash user =? hashPassword password) then None
        else Some {| cu_id := u_id user; cu_name := u_name user;
                     cu_surname := u_surname user; cu_username := u_username user |}
    | None => None
    end.

(** The value of the polynomial with the code units of a text as
    coefficients, at 31. *)
Definition poly31 (s : string) : Z :=
  fold_left (fun a c => (31 * a + charCode c)%Z) (chars s) 0%Z.

(** ** The entry forms *)

Section EntryForms.
Context {host : Host}.

(** The submit handler of the sell form, on the ledger: the entry it
    appends carries the date and type as entered and the amount as a
    number. *)
Definition submitSell (st : State) (date type description amountField : string) : State :=
  let description := trim description in
  let amount := parseNumber (Str amountField) in
  if (date =? "") || (type =? "") || (description =? "") || Qcltb amount 0 then st
  else
    {| sellEntries :=
         (sellEntries st
          ++ [ {| se_date := Some date; se_type := Some type;
                  se_amount := Num (Fin amount) |} ])%list;
       invoices := invoices st;
       expenseTypes := expenseTypes st;
       otherExpenses := otherExpenses st |}.

(** The submit handler of the other-expense form. *)
Definition submitOtherExpense (st : State) (date type description amountField : string)
  : State :=
  let description := trim description in
  let amount := parseNumber (Str amountField) in
  if (date =? "") || (type =? "") || (description =? "") || Qcltb amount 0 then st
  else
    {| sellEntries := sellEntries st;
       invoices := invoices st;
       expenseTypes := expenseTypes st;
       otherExpenses :=
         (otherExpenses st
          ++ [ {| oe_date := Some date; typeId := Some type;
                  oe_amount := Num (Fin amount) |} ])%list |}.

End EntryForms.

(** ** The years on offer *)

Section Years.
Context {host : Host}.

(** The year [add] puts in the set for a date, if any:
    [if (!dateStr) return; const d = new Date(dateStr);
     if (!isNaN(d)) years.add(d.getFullYear())]. *)
Definition yearOf (dateStr : option string) : option Z :=
  if negb (truthy_field dateStr) then None
  else
    match dateStr with
    | Some s => match DateFields s with
                | Some (y, _) => Some y
                | None => None
                end
    | None => None
    end.

Definition addYear (years : list Z) (dateStr : option string) : list Z :=
  match yearOf dateStr with
  | Some y => if existsb (Z.eqb y) years then years else (years ++ [y])%list
  | None => years
  end.

(** [arr.sort()] on numbers: they compare as their decimal texts. *)
Fixpoint insertYear (y : Z) (l : list Z) : list Z :=
  match l with
  | [] => [y]
  | x :: r => if String.leb (string_of_Z y) (string_of_Z x) then y :: l
              else x :: insertYear y r
  end.

Definition sortYears (l : list Z) : list Z := fold_right insertYear [] l.

(** [getAllYearsFromData]; [currentYear] is [new Date().getFullYear()]. *)
Definition getAllYearsFromData (st : State) (currentYear : Z) : list Z :=
  let years := fold_left addYear (List.map se_date (sellEntries st)) [] in
  let years := fold_left addYear (List.map invoiceDate (invoices st)) years in
  let years := fold_left addYear (List.map oe_date (otherExpenses st)) years in
  let years := if (List.length years =? 0)%nat then [currentYear] else years in
  sortYears years.

(** All the dates [getAllYearsFromData] looks at. *)
Definition allDates (st : State) : list (option string) :=
  (List.map se_date (sellEntries st) ++ List.map invoiceDate (invoices st)
   ++ List.map oe_date (otherExpenses st))%list.

(** The engine reads a calendar date as it is written: the local year
    and month of [new Date(s)] are those of the text. *)
Definition readsDatesAsWritten : Prop :=
  forall s y m d, parseCalendarDate s = Some (y, m, d) ->
                  DateFields s = Some (Z.of_nat y, m - 1).

End Years.

(** Ascending by decimal text. *)
Definition textLe (a b : Z) : Prop := String.leb (string_of_Z a) (string_of_Z b) = true.

(** * Properties *)

Local Open Scope list_scope.

(** ** Sums and rows *)

Lemma fold_left_add_acc (l : list Qc) (a : Qc) :
  fold_left Qcplus l a = (a + sumList l)%Qc.
Proof.
  revert a; induction l as [|x l IH]; intros a; simpl.
  - ring.
  - rewrite IH. ring.
Qed.

Lemma totals_sumList (r : Row) : totals r = sumList r.
Proof. unfold totals. rewrite fold_left_add_acc. ring. Qed.

Lemma sumOver_app (A : Type) (f : A -> Qc) (l1 l2 : list A) :
  sumOver f (l1 ++ l2) = (sumOver f l1 + sumOver f l2)%Qc.
Proof.
  unfold sumOver. induction l1 as [|x l1 IH]; simpl; [ring|].
  rewrite IH. ring.
Qed.

Lemma Qclt_irrefl (q : Qc) : ~ (q < q)%Qc.
Proof. intros H. exact (Qclt_not_eq _ _ H eq_refl). Qed.

(** ** The invoice totaller *)

Section InvoiceTotal.
Context {host : Host}.

Lemma parseNumber_finite (v : value) (z : Qc) :
  ToNumber v = Fin z -> parseNumber v = z.
Proof. unfold parseNumber. intros ->. reflexivity. Qed.

Lemma parseNumber_not_finite (v : value) :
  isFinite (ToNumber v) = false -> parseNumber v = 0%Qc.
Proof. unfold parseNumber. destruct (ToNumber v); simpl; congruence. Qed.

Lemma quantityOf_or (v : value) :
  parseNumber (or v (Num (Fin 1%Qc))) = quantityOf v.
Proof.
  unfold or, quantityOf.
  destruct v as [| |[|]|[| | |q]|s]; simpl; try reflexivity.
  - destruct (Qc_eq_bool q 0); reflexivity.
  - destruct s as [|c s]; reflexivity.
Qed.

Lemma computeInvoiceTotal_acc (its : list LineItem) (a : Qc) :
  fold_left
    (fun sum i => (sum + parseNumber (or (qty i) (Num (Fin 1%Qc))) * parseNumber (price i))%Qc)
    its a
  = (a + sumOver (fun i => (quantityOf (qty i) * parseNumber (price i))%Qc) its)%Qc.
Proof.
  revert a; induction its as [|i its IH]; intros a; simpl.
  - unfold sumOver; simpl. ring.
  - rewrite IH, quantityOf_or. unfold sumOver; simpl. ring.
Qed.

Lemma computeInvoiceTotal_sum (its : list LineItem) :
  computeInvoiceTotal its
  = sumOver (fun i => (quantityOf (qty i) * parseNumber (price i))%Qc) its.
Proof. unfold computeInvoiceTotal. rewrite computeInvoiceTotal_acc. ring. Qed.

Lemma specCoerce_nonneg (v : value) :
  (0 <= parseNumber v)%Qc -> specCoerce v = parseNumber v.
Proof.
  unfold specCoerce, parseNumber. destruct (ToNumber v) as [| | |q]; try reflexivity.
  intros Hq. destruct (Qclt_le_dec q 0) as [Hlt|_]; [|reflexivity].
  destruct (Qcle_not_lt _ _ Hq Hlt).
Qed.

Lemma positive_quantity (v : value) :
  (0 < parseNumber v)%Qc -> quantityOf v = parseNumber v.
Proof.
  rewrite <- quantityOf_or. unfold or.
  destruct (truthy v) eqn:E; [reflexivity|].
  intros Hpos. exfalso. revert Hpos. unfold parseNumber.
  destruct v as [| |[|]|[| | |q]|s]; simpl in *; try discriminate;
    try apply Qclt_irrefl.
  - apply negb_false_iff, Qc_eq_bool_correct in E. subst q. apply Qclt_irrefl.
  - apply negb_false_iff, String.eqb_eq in E. subst s.
    rewrite empty_string_zero. apply Qclt_irrefl.
Qed.

Lemma plainItem_agree (i : LineItem) :
  plainItem i ->
  (quantityOf (qty i) * parseNumber (price i)
   = specQuantity (qty i) * specCoerce (price i))%Qc.
Proof.
  intros [Hq Hp]. rewrite (specCoerce_nonneg _ Hp). f_equal.
  destruct Hq as [-> | Hq]; [reflexivity|].
  rewrite (positive_quantity _ Hq).
  assert (Hs : specCoerce (qty i) = parseNumber (qty i))
    by (apply specCoerce_nonneg, Qclt_le_weak, Hq).
  rewrite <- Hs. unfold specQuantity.
  destruct (qty i); try reflexivity.
  exfalso. revert Hq. unfold parseNumber. simpl. apply Qclt_irrefl.
Qed.
End InvoiceTotal.

Lemma legacy_total_sum (host : Host) (its : list LineItem) :
  Legacy.computeInvoiceTotal its = sumOver (fun i => parseNumber (price i)) its.
Proof.
  unfold Legacy.computeInvoiceTotal, sumOver.
  rewrite <- (Qcplus_0_l (sumList _)). generalize 0%Qc.
  induction its as [|i its IH]; intros a; simpl; [ring|].
  rewrite IH. ring.
Qed.

(** C5, as the code has it.  The total of an invoice is the sum over its
    items of quantity times unit price, where a quantity that is absent or
    falsy in any other way (null, false, 0, NaN, the empty string) counts
    for 1, a quantity or price that does not read as a finite number counts
    for 0, and one that reads as a finite number, negative ones included,
    counts for that number.  The total of no items is 0.  On items whose
    quantity is absent or positive and whose price is not negative this is
    the total the specification describes.  The earlier script adds up the
    unit prices alone, which is the same total when no item has a quantity
    that counts.  Both functions are total: no sequence of items makes them
    fail. *)
Theorem C5_invoice_total (host : Host) (its : list LineItem) :
  computeInvoiceTotal its
  = sumOver (fun i => (quantityOf (qty i) * parseNumber (price i))%Qc) its
  /\ computeInvoiceTotal (@nil LineItem) = 0%Qc
  /\ (forall v, truthy v = false -> quantityOf v = 1%Qc)
  /\ (forall v, truthy v = true -> quantityOf v = parseNumber v)
  /\ (forall v, isFinite (ToNumber v) = false -> parseNumber v = 0%Qc)
  /\ (forall v z, ToNumber v = Fin z -> parseNumber v = z)
  /\ (Forall plainItem its -> computeInvoiceTotal its = specInvoiceTotal its)
  /\ Legacy.computeInvoiceTotal its = sumOver (fun i => parseNumber (price i)) its
  /\ (Forall (fun i => truthy (qty i) = false) its ->
      Legacy.computeInvoiceTotal its = computeInvoiceTotal its).
Proof.
  assert (Hq : forall v, truthy v = false -> quantityOf v = 1%Qc).
  { intros v Hv. rewrite <- quantityOf_or. unfold or. rewrite Hv. reflexivity. }
  split; [apply computeInvoiceTotal_sum|].
  split; [reflexivity|].
  split; [exact Hq|].
  split.
  { intros v Hv. rewrite <- quantityOf_or. unfold or. rewrite Hv. reflexivity. }
  split; [apply parseNumber_not_finite|].
  split; [apply parseNumber_finite|].
  split.
  { intros Hall. rewrite computeInvoiceTotal_sum.
    unfold specInvoiceTotal, sumOver.
    induction Hall as [|i l Hi Hl IH]; simpl; [reflexivity|].
    rewrite IH, (plainItem_agree Hi). reflexivity. }
  split; [apply legacy_total_sum|].
  intros Hall. rewrite legacy_total_sum, computeInvoiceTotal_sum. unfold sumOver.
  induction Hall as [|i l Hi Hl IH]; simpl; [reflexivity|].
  rewrite IH, (Hq _ Hi). ring.
Qed.

Lemma C5_invoice_total_witness :
  Forall (plainItem (host := utcHost)) twoAtThirty
  /\ computeInvoiceTotal (host := utcHost) twoAtThirty
     = specInvoiceTotal (host := utcHost) twoAtThirty.
Proof.
  assert (Hp : Forall (plainItem (host := utcHost)) twoAtThirty).
  { apply Forall_cons; [|apply Forall_nil].
    split; [right; reflexivity | discriminate]. }
  split; [exact Hp|].
  exact (proj1 (proj2 (proj2 (proj2 (proj2 (proj2 (proj2
    (C5_invoice_total utcHost twoAtThirty))))))) Hp).
Defined.

(** C5, as the specification words it, fails: a negative quantity is not
    coerced to 0.  Two negative units at 3 total -6, not 0. *)
Lemma C5_negative_quantity_counterexample :
  computeInvoiceTotal (host := utcHost) minusTwoAtThree = int (-6)
  /\ specInvoiceTotal (host := utcHost) minusTwoAtThree = 0%Qc
  /\ computeInvoiceTotal (host := utcHost) minusTwoAtThree
     <> specInvoiceTotal (host := utcHost) minusTwoAtThree.
Proof.
  split; [reflexivity|]. split; [reflexivity|]. discriminate.
Qed.

(** ** Rows *)

Lemma length_initRow : List.length initRow = 12.
Proof. reflexivity. Qed.

Lemma sumList_initRow : sumList initRow = 0%Qc.
Proof. apply Qc_is_canon. reflexivity. Qed.

Lemma length_add_at (i : nat) (v : Qc) (r : Row) :
  List.length (add_at i v r) = List.length r.
Proof.
  revert i; induction r as [|x r IH]; intros [|i]; simpl; auto.
Qed.

Lemma length_add_at_index (idx : option nat) (v : Qc) (r : Row) :
  List.length (add_at_index idx v r) = List.length r.
Proof. destruct idx; simpl; [apply length_add_at|reflexivity]. Qed.

Lemma nth_add_at (i m : nat) (v : Qc) (r : Row) :
  m < List.length r ->
  nth m (add_at i v r) 0%Qc = (nth m r 0 + if (i =? m)%nat then v else 0)%Qc.
Proof.
  revert i m; induction r as [|x r IH]; intros i m Hm; simpl in Hm; [lia|].
  destruct i as [|i], m as [|m]; simpl; try ring.
  apply IH. lia.
Qed.

Lemma sumList_add_at (i : nat) (v : Qc) (r : Row) :
  i < List.length r -> sumList (add_at i v r) = (sumList r + v)%Qc.
Proof.
  revert i; induction r as [|x r IH]; intros i Hi; simpl in Hi; [lia|].
  destruct i as [|i]; simpl; [ring|].
  rewrite IH by lia. ring.
Qed.

Section Buckets.
Variable A : Type.
Variables (keep : A -> bool) (idx : A -> option nat) (val : A -> Qc).

Lemma length_bucketFold (l : list A) (r0 : Row) :
  List.length (bucketFold keep idx val l r0) = List.length r0.
Proof.
  unfold bucketFold. revert r0; induction l as [|a l IH]; intros r0; simpl; [reflexivity|].
  rewrite IH. destruct (keep a); [apply length_add_at_index|reflexivity].
Qed.

Lemma nth_bucketFold (l : list A) (r0 : Row) (m : nat) :
  m < List.length r0 ->
  nth m (bucketFold keep idx val l r0) 0%Qc
  = (nth m r0 0 + monthSum keep idx val m l)%Qc.
Proof.
  unfold bucketFold, monthSum, sumOver.
  revert r0; induction l as [|a l IH]; intros r0 Hm; simpl; [ring|].
  destruct (keep a); simpl.
  - rewrite IH by (rewrite length_add_at_index; exact Hm).
    destruct (idx a) as [i|]; simpl; [|ring].
    rewrite nth_add_at by exact Hm.
    destruct (i =? m)%nat; simpl; ring.
  - apply IH, Hm.
Qed.

Lemma sumList_bucketFold (l : list A) (r0 : Row) :
  (forall a, In a l -> keep a = true -> exists i, idx a = Some i /\ i < List.length r0) ->
  sumList (bucketFold keep idx val l r0) = (sumList r0 + sumOver val (filter keep l))%Qc.
Proof.
  unfold bucketFold, sumOver.
  revert r0; induction l as [|a l IH]; intros r0 Hidx; simpl; [ring|].
  destruct (keep a) eqn:Hk; simpl.
  - destruct (Hidx a (or_introl eq_refl) Hk) as (i & Hi & Hlt).
    rewrite IH.
    + rewrite Hi; simpl. rewrite sumList_add_at by exact Hlt. ring.
    + intros b Hb Hkb. rewrite length_add_at_index. apply Hidx; [right; exact Hb|exact Hkb].
  - apply IH. intros b Hb. apply Hidx. right; exact Hb.
Qed.
End Buckets.

(** ** The year filter *)

Lemma ltb_negb_leb (s t : string) : String.ltb s t = negb (String.leb t s).
Proof.
  unfold String.ltb, String.leb. rewrite (String.compare_antisym t s).
  destruct (String.compare s t); reflexivity.
Qed.

Lemma leb_append_empty (a b : string) (c : ascii) :
  String.leb (a ++ String c b) "" = false.
Proof. destruct a; reflexivity. Qed.

Lemma outsideYear_inYear (year : Z) (d : option string) :
  outsideYear year d = negb (inYear year d).
Proof.
  unfold outsideYear, inYear. destruct d as [s|]; simpl; [|reflexivity].
  rewrite !ltb_negb_leb.
  destruct (String.eqb_spec s "") as [->|Hs]; simpl.
  - unfold yearStart. rewrite leb_append_empty. reflexivity.
  - destruct (String.leb (yearStart year) s), (String.leb s (yearEnd year)); reflexivity.
Qed.

(** ** The Profit & Loss table *)

Section ProfitAndLoss.
Context {host : Host}.

Lemma getMonth_range (d : option string) (i : nat) : getMonth d = Some i -> i < 12.
Proof.
  unfold getMonth. destruct d as [s|]; [|discriminate].
  destruct (DateFields s) as [[y m]|] eqn:E; [|discriminate].
  intros H; inversion H; subst. exact (getMonth_below_12 _ E).
Qed.

Lemma getMonth_calendar (d : option string) :
  calendarField d -> exists i, getMonth d = Some i /\ i < 12.
Proof.
  intros (s & -> & Hs). unfold getMonth.
  destruct (DateFields s) as [[y m]|] eqn:E.
  - exists m. split; [reflexivity|exact (getMonth_below_12 _ E)].
  - exfalso. exact (calendar_date_valid _ Hs E).
Qed.

Lemma salesRow_bucket (year : Z) (es : list SellEntry) :
  salesRow year es
  = bucketFold (fun e => inYear year (se_date e)) (fun e => getMonth (se_date e))
      (fun e => parseNumber (se_amount e)) es initRow.
Proof.
  unfold salesRow, bucketFold. generalize initRow.
  induction es as [|e es IH]; intros r; simpl; [reflexivity|].
  rewrite outsideYear_inYear.
  destruct (inYear year (se_date e)); simpl; apply IH.
Qed.

Lemma sales_calcPL (st : State) (year : Z) :
  sales (calcPLForYear st year) = salesRow year (sellEntries st).
Proof. unfold calcPLForYear. destruct (invoiceRows year (invoices st)). reflexivity. Qed.

Lemma totals_calcPL (st : State) (year : Z) :
  pl_totals (calcPLForYear st year)
  = let pl := calcPLForYear st year in
    {| t_sales := totals (sales pl); t_cogs := totals (cogs pl);
       t_grossProfit := totals (grossProfit pl);
       t_otherExpenses := totals (otherExpensesSum pl);
       t_ebit := totals (ebit pl); t_net := totals (net pl) |}.
Proof. unfold calcPLForYear. destruct (invoiceRows year (invoices st)). reflexivity. Qed.

End ProfitAndLoss.



(** ** Maps in insertion order *)

Section MapFacts.
Variable V : Type.
Implicit Types (m : Js.map V) (k : string) (v : V).

Lemma get_set_eq m k v : Js.get (Js.set m k v) k = Some v.
Proof.
  induction m as [|[k' v'] m IH]; simpl.
  - rewrite String.eqb_refl. reflexivity.
  - destruct (k' =? k) eqn:E; simpl; rewrite E; [reflexivity|exact IH].
Qed.

Lemma get_set_ne m k k' v : k <> k' -> Js.get (Js.set m k v) k' = Js.get m k'.
Proof.
  intros Hne. induction m as [|[k0 v0] m IH]; simpl.
  - destruct (String.eqb_spec k k'); [contradiction|reflexivity].
  - destruct (String.eqb_spec k0 k) as [->|Hk]; simpl.
    + destruct (String.eqb_spec k k'); [contradiction|reflexivity].
    + destruct (k0 =? k'); [reflexivity|exact IH].
Qed.

Lemma get_set m k k' v :
  Js.get (Js.set m k v) k' = if k =? k' then Some v else Js.get m k'.
Proof.
  destruct (String.eqb_spec k k') as [->|Hne].
  - apply get_set_eq.
  - apply get_set_ne, Hne.
Qed.

Lemma get_modify m k k' (f : V -> V) :
  Js.get (Js.modify m k f) k'
  = if k =? k' then option_map f (Js.get m k') else Js.get m k'.
Proof.
  induction m as [|[k0 v0] m IH]; simpl.
  - destruct (k =? k'); reflexivity.
  - destruct (String.eqb_spec k0 k) as [->|Hk]; simpl.
    + destruct (k =? k'); reflexivity.
    + rewrite IH. destruct (String.eqb_spec k0 k') as [->|Hk'].
      * destruct (String.eqb_spec k k'); [congruence|reflexivity].
      * reflexivity.
Qed.

Lemma get_singleton k k' v :
  Js.get [(k, v)] k' = if k =? k' then Some v else None.
Proof. reflexivity. Qed.

Lemma keys_modify m k (f : V -> V) : Js.keys (Js.modify m k f) = Js.keys m.
Proof.
  unfold Js.keys. induction m as [|[k0 v0] m IH]; simpl; [reflexivity|].
  destruct (k0 =? k); simpl; [reflexivity|]. rewrite IH. reflexivity.
Qed.

Lemma keys_set m k v : Js.keys (Js.set m k v) = set_add (Js.keys m) k.
Proof.
  unfold Js.keys, set_add, set_has. induction m as [|[k0 v0] m IH]; simpl; [reflexivity|].
  destruct (k0 =? k); simpl; [reflexivity|].
  rewrite IH. destruct (existsb (fun y => y =? k) (List.map fst m)); reflexivity.
Qed.

Lemma has_In_keys m k : Js.has m k = true <-> In k (Js.keys m).
Proof.
  unfold Js.has, Js.keys. induction m as [|[k0 v0] m IH]; simpl.
  - split; [discriminate|tauto].
  - destruct (String.eqb_spec k0 k) as [->|Hk].
    + split; auto.
    + rewrite IH. split; [auto|]. intros [H|H]; [contradiction|exact H].
Qed.

Lemma has_set_modify m k v (f : V -> V) :
  Js.keys (Js.modify (if negb (Js.has m k) then Js.set m k v else m) k f)
  = set_add (Js.keys m) k.
Proof.
  rewrite keys_modify. destruct (Js.has m k) eqn:E; simpl.
  - unfold set_add. replace (set_has (Js.keys m) k) with true; [reflexivity|].
    symmetry. apply has_In_keys in E. unfold set_has. apply existsb_exists.
    exists k. split; [exact E|apply String.eqb_refl].
  - apply keys_set.
Qed.

Lemma get_In_values m k v : Js.get m k = Some v -> In v (Js.values m).
Proof.
  unfold Js.values. induction m as [|[k0 v0] m IH]; simpl; [discriminate|].
  destruct (k0 =? k); [intros H; inversion H; auto|auto].
Qed.

Lemma set_fresh m k v : ~ In k (Js.keys m) -> Js.set m k v = m ++ [(k, v)].
Proof.
  unfold Js.keys. induction m as [|[k0 v0] m IH]; simpl; intros Hk; [reflexivity|].
  destruct (String.eqb_spec k0 k) as [->|Hne]; [tauto|].
  rewrite IH by tauto. reflexivity.
Qed.

Lemma fold_set_fresh (l : list (string * V)) m :
  NoDup (List.map fst l) ->
  (forall k, In k (List.map fst l) -> ~ In k (Js.keys m)) ->
  fold_left (fun m kv => Js.set m (fst kv) (snd kv)) l m = m ++ l.
Proof.
  revert m; induction l as [|[k v] l IH]; intros m Hnd Hfresh; simpl.
  - rewrite app_nil_r. reflexivity.
  - inversion Hnd as [|? ? Hk Hnd']; subst.
    rewrite set_fresh by (apply Hfresh; left; reflexivity).
    rewrite IH.
    + rewrite <- app_assoc. reflexivity.
    + exact Hnd'.
    + intros k' Hk'. unfold Js.keys. rewrite map_app, in_app_iff. simpl.
      intros [H|[H|[]]].
      * exact (Hfresh k' (or_intror Hk') H).
      * subst. exact (Hk Hk').
Qed.

Lemma get_fold_set_notin (l : list (string * V)) m k :
  ~ In k (List.map fst l) ->
  Js.get (fold_left (fun m kv => Js.set m (fst kv) (snd kv)) l m) k = Js.get m k.
Proof.
  revert m; induction l as [|[k0 v0] l IH]; intros m Hk; simpl; [reflexivity|].
  simpl in Hk. rewrite IH by tauto.
  apply get_set_ne. intros ->. tauto.
Qed.
End MapFacts.

(** ** Sets in insertion order *)

(** The elements of a list in the order of their first occurrence. *)
Lemma set_has_In (l : list string) (x : string) : set_has l x = true <-> In x l.
Proof.
  unfold set_has. rewrite existsb_exists. split.
  - intros (y & Hy & E). apply String.eqb_eq in E. subst. exact Hy.
  - intros H. exists x. split; [exact H|apply String.eqb_refl].
Qed.

Lemma In_set_add (l : list string) (x y : string) :
  In y (set_add l x) <-> In y l \/ y = x.
Proof.
  unfold set_add. destruct (set_has l x) eqn:E.
  - apply set_has_In in E. split; [auto|]. intros [H | ->]; assumption.
  - rewrite in_app_iff. simpl. intuition (subst; auto).
Qed.

Lemma In_fold_set_add (l acc : list string) (y : string) :
  In y (fold_left set_add l acc) <-> In y acc \/ In y l.
Proof.
  revert acc; induction l as [|x l IH]; intros acc; simpl; [tauto|].
  rewrite IH, In_set_add. split; intros H; intuition (subst; auto).
Qed.

Lemma set_add_app_fresh (a b : list string) (x : string) :
  ~ In x a -> set_add (a ++ b) x = a ++ set_add b x.
Proof.
  intros Hx. unfold set_add, set_has. rewrite existsb_app.
  replace (existsb (fun y => y =? x) a) with false.
  - simpl. destruct (existsb (fun y => y =? x) b); [reflexivity|].
    rewrite app_assoc. reflexivity.
  - symmetry. apply not_true_is_false. intros H. apply Hx.
    apply (proj1 (set_has_In a x)). exact H.
Qed.

Lemma fold_set_add_app_fresh (l a b : list string) :
  (forall x, In x l -> ~ In x a) ->
  fold_left set_add l (a ++ b) = a ++ fold_left set_add l b.
Proof.
  revert b; induction l as [|x l IH]; intros b Hl; simpl; [reflexivity|].
  rewrite set_add_app_fresh by (apply Hl; left; reflexivity).
  apply IH. intros y Hy. apply Hl. right; exact Hy.
Qed.

Lemma fold_set_add_tail (l acc : list string) :
  exists tail, fold_left set_add l acc = acc ++ tail
               /\ forall x, In x tail -> In x l /\ ~ In x acc.
Proof.
  revert acc; induction l as [|x l IH]; intros acc; simpl.
  - exists []. rewrite app_nil_r. split; [reflexivity|]. intros x [].
  - destruct (IH (set_add acc x)) as (tail & Heq & Htail).
    assert (Hcase : set_add acc x = acc \/ (set_add acc x = acc ++ [x] /\ ~ In x acc)).
    { unfold set_add. destruct (set_has acc x) eqn:E; [left; reflexivity|].
      right. split; [reflexivity|]. intros H. apply set_has_In in H. congruence. }
    destruct Hcase as [Hc | [Hc Hx]]; rewrite Hc in Heq, Htail; rewrite Hc.
    + exists tail. split; [exact Heq|]. intros y Hy.
      destruct (Htail y Hy) as [H1 H2]. auto.
    + exists (x :: tail). split.
      * rewrite Heq, <- app_assoc. reflexivity.
      * intros y [<-|Hy].
        -- split; [left; reflexivity|exact Hx].
        -- destruct (Htail y Hy) as [H1 H2]. split; [right; exact H1|].
           intros H. apply H2. apply in_or_app. left; exact H.
Qed.

(** ** The loops of the Profit & Loss table *)

Section Loops.
Context {host : Host}.
Variable year : Z.

Lemma bucketFold_none (A : Type) (keep : A -> bool) (idx : A -> option nat)
  (val : A -> Qc) (l : list A) (r0 : Row) :
  existsb keep l = false -> bucketFold keep idx val l r0 = r0.
Proof.
  unfold bucketFold. revert r0; induction l as [|a l IH]; intros r0; simpl; [reflexivity|].
  destruct (keep a); simpl; [discriminate|]. apply IH.
Qed.

Lemma fold_left_step (A B : Type) (f : A -> B -> A) (x : B) (l : list B) (a : A) :
  fold_left f (x :: l) a = fold_left f l (f a x).
Proof. reflexivity. Qed.

Lemma bucketFold_cons (A : Type) (keep : A -> bool) (idx : A -> option nat)
  (val : A -> Qc) (a : A) (l : list A) (r0 : Row) :
  bucketFold keep idx val (a :: l) r0
  = bucketFold keep idx val l (if keep a then add_at_index (idx a) (val a) r0 else r0).
Proof. reflexivity. Qed.

Lemma invoiceStep_cases (c : Row) (m : Js.map Row) (inv : Invoice) :
  invoiceStep year (c, m) inv
  = if productOfYear year inv
    then (add_at_index (getMonth (invoiceDate inv)) (invoiceTotal inv) c, m)
    else if otherOfYear year inv
    then (c, Js.modify (if negb (Js.has m "Invoice Expenses")
                        then Js.set m "Invoice Expenses" initRow else m)
               "Invoice Expenses"
               (add_at_index (getMonth (invoiceDate inv)) (invoiceTotal inv)))
    else (c, m).
Proof.
  unfold invoiceStep, productOfYear, otherOfYear. rewrite outsideYear_inYear.
  destruct (inYear year (invoiceDate inv)), (isProduct inv); reflexivity.
Qed.

Lemma product_not_other (inv : Invoice) :
  productOfYear year inv = true -> otherOfYear year inv = false.
Proof.
  unfold productOfYear, otherOfYear.
  destruct (inYear year (invoiceDate inv)), (isProduct inv); simpl; congruence.
Qed.

Lemma fst_invoiceFold (invs : list Invoice) (c : Row) (m : Js.map Row) :
  fst (fold_left (invoiceStep year) invs (c, m))
  = bucketFold (productOfYear year) (fun inv => getMonth (invoiceDate inv))
      invoiceTotal invs c.
Proof.
  revert c m; induction invs as [|inv invs IH]; intros c m; [reflexivity|].
  rewrite bucketFold_cons, fold_left_step, invoiceStep_cases.
  destruct (productOfYear year inv); [apply IH|].
  destruct (otherOfYear year inv); apply IH.
Qed.

Lemma snd_invoiceFold_started (invs : list Invoice) (c r : Row) :
  snd (fold_left (invoiceStep year) invs (c, [("Invoice Expenses", r)]))
  = [("Invoice Expenses",
      bucketFold (otherOfYear year) (fun inv => getMonth (invoiceDate inv))
        invoiceTotal invs r)].
Proof.
  revert c r; induction invs as [|inv invs IH]; intros c r; [reflexivity|].
  rewrite bucketFold_cons, fold_left_step, invoiceStep_cases.
  destruct (productOfYear year inv) eqn:Ep.
  - rewrite (product_not_other _ Ep). apply IH.
  - destruct (otherOfYear year inv); apply IH.
Qed.

Lemma snd_invoiceFold_empty (invs : list Invoice) (c : Row) :
  snd (fold_left (invoiceStep year) invs (c, []))
  = if existsb (otherOfYear year) invs
    then [("Invoice Expenses",
           bucketFold (otherOfYear year) (fun inv => getMonth (invoiceDate inv))
             invoiceTotal invs initRow)]
    else [].
Proof.
  revert c; induction invs as [|inv invs IH]; intros c; [reflexivity|].
  rewrite bucketFold_cons, fold_left_step, invoiceStep_cases. simpl existsb.
  destruct (productOfYear year inv) eqn:Ep.
  - rewrite (product_not_other _ Ep). apply IH.
  - destruct (otherOfYear year inv); simpl orb; [|apply IH].
    apply snd_invoiceFold_started.
Qed.

(** The other-expenses loop, read one row at a time. *)
Variable ts : list ExpenseType.

Lemma get_expenseStep (rows : Js.map Row) (e : OtherExpense) (k : string) :
  Js.get (expenseStep year ts rows e) k
  = if expenseOfRow year ts k e
    then Some (add_at_index (getMonth (oe_date e)) (parseNumber (oe_amount e))
                 (rowOrFresh rows k))
    else Js.get rows k.
Proof.
  unfold expenseStep, expenseOfRow, rowOrFresh. rewrite outsideYear_inYear.
  destruct (inYear year (oe_date e)); simpl; [|reflexivity].
  rewrite get_modify.
  destruct (String.eqb_spec (expenseName ts e) k) as [->|Hne]; [|].
  - unfold Js.has. destruct (Js.get rows k) as [r|] eqn:E; simpl.
    + rewrite E. reflexivity.
    + rewrite get_set_eq. reflexivity.
  - destruct (negb (Js.has rows (expenseName ts e))); [|reflexivity].
    apply get_set_ne, Hne.
Qed.

Lemma get_expenseFold (exps : list OtherExpense) (rows : Js.map Row) (k : string) :
  Js.get (fold_left (expenseStep year ts) exps rows) k
  = if Js.has rows k || existsb (expenseOfRow year ts k) exps
    then Some (bucketFold (expenseOfRow year ts k) (fun e => getMonth (oe_date e))
                 (fun e => parseNumber (oe_amount e)) exps (rowOrFresh rows k))
    else None.
Proof.
  unfold bucketFold. revert rows; induction exps as [|e exps IH]; intros rows; simpl.
  - unfold Js.has, rowOrFresh. rewrite orb_false_r.
    destruct (Js.get rows k); reflexivity.
  - rewrite IH. unfold Js.has at 1, rowOrFresh at 1. rewrite get_expenseStep.
    destruct (expenseOfRow year ts k e); simpl.
    + rewrite orb_true_r. reflexivity.
    + unfold Js.has, rowOrFresh. reflexivity.
Qed.

Lemma keys_expenseFold (exps : list OtherExpense) (rows : Js.map Row) :
  Js.keys (fold_left (expenseStep year ts) exps rows)
  = fold_left set_add
      (List.map (expenseName ts) (filter (fun e => inYear year (oe_date e)) exps))
      (Js.keys rows).
Proof.
  revert rows; induction exps as [|e exps IH]; intros rows; simpl; [reflexivity|].
  rewrite IH. unfold expenseStep. rewrite outsideYear_inYear.
  destruct (inYear year (oe_date e)); simpl; [|reflexivity].
  rewrite has_set_modify. reflexivity.
Qed.

(** The rows seeded from the catalogue. *)
Lemma get_seedFold (names : list string) (rows : Js.map Row) (k : string) :
  Js.get (fold_left (fun rows name => Js.set rows name initRow) names rows) k
  = if set_has names k then Some initRow else Js.get rows k.
Proof.
  unfold set_has. revert rows; induction names as [|n names IH]; intros rows; simpl;
    [reflexivity|].
  rewrite IH, get_set.
  destruct (n =? k); simpl; [|reflexivity].
  destruct (existsb (fun y => y =? k) names); reflexivity.
Qed.

Lemma keys_seedFold (names : list string) (rows : Js.map Row) :
  Js.keys (fold_left (fun rows name => Js.set rows name initRow) names rows)
  = fold_left set_add names (Js.keys rows).
Proof.
  revert rows; induction names as [|n names IH]; intros rows; simpl; [reflexivity|].
  rewrite IH, keys_set. reflexivity.
Qed.

(** The names an expense can resolve to. *)
Lemma expenseName_cases (e : OtherExpense) :
  expenseName ts e = "Other" \/ In (expenseName ts e) (Js.values (typeById ts)).
Proof.
  unfold expenseName, or_field.
  destruct (Js.get_field (typeById ts) (typeId e)) as [n|] eqn:E; [|left; reflexivity].
  destruct (truthy_field (Some n)); [|left; reflexivity].
  right. unfold Js.get_field in E. destruct (typeId e) as [i|]; [|discriminate].
  exact (get_In_values _ _ E).
Qed.

Lemma expenseName_unmatched (e : OtherExpense) :
  unmatched ts e -> expenseName ts e = "Other".
Proof.
  intros Hun. unfold expenseName, Js.get_field.
  destruct (typeId e) as [i|] eqn:Ei; [|reflexivity].
  unfold typeById, Js.of_entries. rewrite get_fold_set_notin; [reflexivity|].
  rewrite map_map. simpl. intros Hin. apply in_map_iff in Hin.
  destruct Hin as (t & Ht & Hint). apply (Hun t Hint). rewrite Ei, Ht. reflexivity.
Qed.

Lemma typeById_distinct :
  NoDup (List.map et_id ts) ->
  Js.values (typeById ts) = List.map et_name ts.
Proof.
  intros Hnd. unfold typeById, Js.of_entries. rewrite fold_set_fresh.
  - simpl. unfold Js.values. rewrite map_map. reflexivity.
  - rewrite map_map. exact Hnd.
  - intros k _ [].
Qed.

End Loops.

(** ** Derived rows *)

Lemma length_indexed (A : Type) (l : list A) : List.length (indexed l) = List.length l.
Proof.
  unfold indexed. rewrite length_combine, length_seq. apply Nat.min_id.
Qed.

Lemma nth_map_indexed (A B : Type) (f : nat * A -> B) (l : list A) (m : nat) (d : A) (e : B) :
  m < List.length l ->
  nth m (List.map f (indexed l)) e = f (m, nth m l d).
Proof.
  intros Hm. rewrite (nth_indep _ e (f (0, d))) by (rewrite length_map, length_indexed; exact Hm).
  rewrite map_nth. unfold indexed.
  rewrite combine_nth by apply length_seq.
  rewrite seq_nth by exact Hm. reflexivity.
Qed.

Lemma nth_addRow (r : Row) (k : nat) (s0 : Row) (m : nat) :
  m < List.length s0 ->
  nth m (fold_left (fun s iv => add_at (fst iv) (snd iv) s)
           (combine (seq k (List.length r)) r) s0) 0%Qc
  = (nth m s0 0 + if (k <=? m)%nat then nth (m - k) r 0 else 0)%Qc.
Proof.
  revert k s0; induction r as [|x r IH]; intros k s0 Hm; simpl.
  - destruct (k <=? m)%nat; destruct (m - k); ring.
  - rewrite IH by (rewrite length_add_at; exact Hm).
    rewrite nth_add_at by exact Hm.
    destruct (Nat.eqb_spec k m) as [->|Hne].
    + rewrite Nat.leb_refl, Nat.sub_diag.
      destruct (Nat.leb_spec (S m) m); [lia|]. simpl. ring.
    + destruct (Nat.leb_spec k m) as [Hle|Hgt].
      * destruct (Nat.leb_spec (S k) m); [|lia].
        replace (m - k) with (S (m - S k)) by lia. simpl. ring.
      * destruct (Nat.leb_spec (S k) m); [lia|]. ring.
Qed.

Lemma length_addRow (l : list (nat * Qc)) (s0 : Row) :
  List.length (fold_left (fun s iv => add_at (fst iv) (snd iv) s) l s0) = List.length s0.
Proof.
  revert s0; induction l as [|iv l IH]; intros s0; simpl; [reflexivity|].
  rewrite IH. apply length_add_at.
Qed.

Lemma sumCols_acc (rows : list Row) (s0 : Row) (m : nat) :
  m < List.length s0 ->
  nth m (fold_left
           (fun sums r => fold_left (fun s iv => add_at (fst iv) (snd iv) s) (indexed r) sums)
           rows s0) 0%Qc
  = (nth m s0 0 + sumOver (fun r => nth m r 0%Qc) rows)%Qc.
Proof.
  unfold sumOver. revert s0; induction rows as [|r rows IH]; intros s0 Hm; simpl; [ring|].
  rewrite IH by (rewrite length_addRow; exact Hm).
  unfold indexed. rewrite nth_addRow by exact Hm.
  simpl. rewrite Nat.sub_0_r. ring.
Qed.

Lemma nth_initRow (m : nat) : nth m initRow 0%Qc = 0%Qc.
Proof. unfold initRow. apply nth_repeat. Qed.

Lemma nth_sumCols (rows : list Row) (m : nat) :
  m < 12 -> nth m (sumCols rows) 0%Qc = sumOver (fun r => nth m r 0%Qc) rows.
Proof.
  intros Hm. unfold sumCols. rewrite sumCols_acc by exact Hm.
  rewrite nth_initRow. ring.
Qed.

Lemma length_sumCols (rows : list Row) : List.length (sumCols rows) = 12.
Proof.
  unfold sumCols. generalize initRow length_initRow.
  induction rows as [|r rows IH]; intros s0 Hs; simpl; [exact Hs|].
  apply IH. rewrite length_addRow. exact Hs.
Qed.

Lemma twelveWide_set (rows : Js.map Row) (k : string) (r : Row) :
  twelveWide rows -> List.length r = 12 -> twelveWide (Js.set rows k r).
Proof.
  unfold twelveWide, Js.values. intros Hrows Hr.
  induction rows as [|[k0 r0] rows IH]; simpl.
  - constructor; [exact Hr|constructor].
  - inversion Hrows; subst. destruct (k0 =? k); simpl; constructor; auto.
Qed.

Lemma twelveWide_modify (rows : Js.map Row) (k : string) (f : Row -> Row) :
  (forall r, List.length (f r) = List.length r) ->
  twelveWide rows -> twelveWide (Js.modify rows k f).
Proof.
  unfold twelveWide, Js.values. intros Hf Hrows.
  induction rows as [|[k0 r0] rows IH]; simpl; [constructor|].
  inversion Hrows; subst. destruct (k0 =? k); simpl; constructor; auto.
  rewrite Hf. assumption.
Qed.

(** ** The table as a whole *)

Section Table.
Context {host : Host}.
Variables (st : State) (year : Z).

Lemma calcPL_fields :
  let pl := calcPLForYear st year in
  sales pl = salesRow year (sellEntries st)
  /\ cogs pl = fst (invoiceRows year (invoices st))
  /\ expenseRows pl
     = fold_left (expenseStep year (expenseTypes st)) (otherExpenses st)
         (seededRows (expenseTypes st) (snd (invoiceRows year (invoices st))))
  /\ grossProfit pl
     = List.map (fun iv => (snd iv - nth (fst iv) (cogs pl) 0)%Qc) (indexed (sales pl))
  /\ otherExpensesSum pl = sumCols (Js.values (expenseRows pl))
  /\ ebit pl
     = List.map (fun iv => (snd iv - nth (fst iv) (otherExpensesSum pl) 0)%Qc)
         (indexed (grossProfit pl))
  /\ net pl = ebit pl.
Proof.
  unfold calcPLForYear. destruct (invoiceRows year (invoices st)) as [c m].
  simpl. repeat split.
Qed.

Lemma length_sales : List.length (sales (calcPLForYear st year)) = 12.
Proof.
  destruct calcPL_fields as (-> & _). rewrite salesRow_bucket. apply length_bucketFold.
Qed.

Lemma cogs_bucket :
  cogs (calcPLForYear st year)
  = bucketFold (productOfYear year) (fun inv => getMonth (invoiceDate inv))
      invoiceTotal (invoices st) initRow.
Proof.
  destruct calcPL_fields as (_ & -> & _). apply fst_invoiceFold.
Qed.

Lemma length_cogs : List.length (cogs (calcPLForYear st year)) = 12.
Proof. rewrite cogs_bucket. apply length_bucketFold. Qed.

Lemma invoiceExpenseRows_shape :
  snd (invoiceRows year (invoices st))
  = if existsb (otherOfYear year) (invoices st)
    then [("Invoice Expenses",
           bucketFold (otherOfYear year) (fun inv => getMonth (invoiceDate inv))
             invoiceTotal (invoices st) initRow)]
    else [].
Proof. apply snd_invoiceFold_empty. Qed.

Lemma twelveWide_invoiceExpenseRows : twelveWide (snd (invoiceRows year (invoices st))).
Proof.
  rewrite invoiceExpenseRows_shape.
  destruct (existsb (otherOfYear year) (invoices st)); [|constructor].
  constructor; [|constructor]. apply length_bucketFold.
Qed.

Lemma twelveWide_expenseRows : twelveWide (expenseRows (calcPLForYear st year)).
Proof.
  destruct calcPL_fields as (_ & _ & -> & _).
  assert (Hseed : twelveWide (seededRows (expenseTypes st)
                                (snd (invoiceRows year (invoices st))))).
  { unfold seededRows. generalize (Js.values (typeById (expenseTypes st))).
    generalize (snd (invoiceRows year (invoices st))) twelveWide_invoiceExpenseRows.
    intros rows Hrows names. revert rows Hrows.
    induction names as [|n names IH]; intros rows Hrows; simpl; [exact Hrows|].
    apply IH, twelveWide_set; [exact Hrows|reflexivity]. }
  revert Hseed. generalize (seededRows (expenseTypes st) (snd (invoiceRows year (invoices st)))).
  induction (otherExpenses st) as [|e exps IH]; intros rows Hrows; simpl; [exact Hrows|].
  apply IH. unfold expenseStep.
  destruct (outsideYear year (oe_date e)); [exact Hrows|].
  apply twelveWide_modify; [intros r; apply length_add_at_index|].
  destruct (negb (Js.has rows (expenseName (expenseTypes st) e))); [|exact Hrows].
  apply twelveWide_set; [exact Hrows|reflexivity].
Qed.

Lemma length_grossProfit : List.length (grossProfit (calcPLForYear st year)) = 12.
Proof.
  destruct calcPL_fields as (_ & _ & _ & -> & _).
  rewrite length_map, length_indexed. apply length_sales.
Qed.

End Table.

(** C3.  For every month index [m] below 12 the table satisfies
    grossProfit[m] = sales[m] - cogs[m]; its operating expense total at
    [m] is the sum over all rows of expenseRows of the value at [m];
    ebit[m] = grossProfit[m] - operatingExpenseTotal[m]; and the net
    earnings row is the ebit row.  All these rows, and every row of
    expenseRows, have twelve slots. *)
Theorem C3_derived_rows (host : Host) (st : State) (year : Z) (m : nat) :
  m < 12 ->
  let pl := calcPLForYear st year in
  nth m (grossProfit pl) 0%Qc = (nth m (sales pl) 0 - nth m (cogs pl) 0)%Qc
  /\ nth m (otherExpensesSum pl) 0%Qc
     = sumOver (fun r => nth m r 0%Qc) (Js.values (expenseRows pl))
  /\ nth m (ebit pl) 0%Qc = (nth m (grossProfit pl) 0 - nth m (otherExpensesSum pl) 0)%Qc
  /\ nth m (net pl) 0%Qc = nth m (ebit pl) 0%Qc
  /\ net pl = ebit pl
  /\ List.length (sales pl) = 12 /\ List.length (cogs pl) = 12
  /\ List.length (grossProfit pl) = 12 /\ List.length (otherExpensesSum pl) = 12
  /\ List.length (ebit pl) = 12
  /\ twelveWide (expenseRows pl).
Proof.
  intros Hm pl.
  destruct (calcPL_fields st year) as (_ & _ & _ & Hgp & Hsum & Hebit & Hnet).
  fold pl in Hgp, Hsum, Hebit, Hnet.
  assert (Hls : List.length (sales pl) = 12) by apply length_sales.
  assert (Hlg : List.length (grossProfit pl) = 12) by apply length_grossProfit.
  split.
  { rewrite Hgp at 1. rewrite (nth_map_indexed _ _ 0%Qc) by (rewrite Hls; exact Hm).
    reflexivity. }
  split.
  { rewrite Hsum at 1. apply nth_sumCols, Hm. }
  split.
  { rewrite Hebit at 1. rewrite (nth_map_indexed _ _ 0%Qc) by (rewrite Hlg; exact Hm).
    reflexivity. }
  split; [rewrite Hnet; reflexivity|].
  split; [exact Hnet|].
  split; [exact Hls|].
  split; [apply length_cogs|].
  split; [exact Hlg|].
  split; [rewrite Hsum; apply length_sumCols|].
  split; [rewrite Hebit, length_map, length_indexed; exact Hlg|].
  apply twelveWide_expenseRows.
Qed.

Lemma C3_derived_rows_witness :
  1 < 12
  /\ nth 1 (ebit (calcPLForYear (host := utcHost) scenario 2024)) 0%Qc = int (-59)
  /\ nth 1 (otherExpensesSum (calcPLForYear (host := utcHost) scenario 2024)) 0%Qc = int 59.
Proof.
  assert (H : 1 < 12) by lia.
  split; [exact H|].
  destruct (C3_derived_rows utcHost scenario 2024 H) as (_ & H2 & H3 & _).
  split; [exact H3|exact H2].
Defined.

(** ** Invoices in the table *)

Lemma In_set (V : Type) (m : Js.map V) (k : string) (v : V) (x : string * V) :
  In x (Js.set m k v) -> In x m \/ x = (k, v).
Proof.
  induction m as [|[k0 v0] m IH]; simpl.
  - intros [<-|[]]. right; reflexivity.
  - destruct (k0 =? k) eqn:E; simpl.
    + intros [<-|H]; [|auto]. apply String.eqb_eq in E. subst. right; reflexivity.
    + intros [<-|H]; [auto|]. destruct (IH H); auto.
Qed.

Lemma In_of_entries (V : Type) (l : list (string * V)) (x : string * V) :
  In x (Js.of_entries l) -> In x l.
Proof.
  unfold Js.of_entries.
  assert (H : forall m, In x (fold_left (fun m kv => Js.set m (fst kv) (snd kv)) l m) ->
                        In x m \/ In x l).
  { induction l as [|[k v] l IH]; intros m; simpl; [auto|].
    intros Hx. destruct (IH _ Hx) as [H|H]; [|auto].
    destruct (In_set _ _ _ _ H) as [H'|H']; auto. }
  intros Hx. destruct (H [] Hx) as [[]|Hl]. exact Hl.
Qed.

Lemma typeById_names (ts : list ExpenseType) (n : string) :
  In n (Js.values (typeById ts)) -> exists t, In t ts /\ et_name t = n.
Proof.
  unfold Js.values. intros Hn. apply in_map_iff in Hn. destruct Hn as ([k v] & <- & Hkv).
  apply In_of_entries, in_map_iff in Hkv. destruct Hkv as (t & Ht & Hin).
  exists t. inversion Ht; subst. split; [exact Hin|reflexivity].
Qed.

Lemma isProduct_iff (inv : Invoice) :
  isProduct inv = true
  <-> exists t, inv_type inv = Some t /\ toLowerCase t = toLowerCase "product".
Proof.
  unfold isProduct. rewrite String.eqb_eq. unfold or_field, truthy_field.
  destruct (inv_type inv) as [t|].
  - destruct (String.eqb_spec t "") as [->|Hne]; simpl.
    + split; [discriminate|]. intros (t & Ht & Hl). inversion Ht; subst. discriminate.
    + split.
      * intros H. exists t. split; [reflexivity|exact H].
      * intros (t' & Ht & Hl). inversion Ht; subst. exact Hl.
  - simpl. split; [discriminate|]. intros (t & Ht & _). discriminate.
Qed.

Section InvoiceRows.
Context {host : Host}.
Variables (st : State) (year : Z).

Lemma get_invoiceExpenses_final :
  (forall t, In t (expenseTypes st) -> et_name t <> "Invoice Expenses") ->
  Js.get (expenseRows (calcPLForYear st year)) "Invoice Expenses"
  = Js.get (snd (invoiceRows year (invoices st))) "Invoice Expenses".
Proof.
  intros Hnames.
  destruct (calcPL_fields st year) as (_ & _ & -> & _).
  assert (Hno : forall e, expenseOfRow year (expenseTypes st) "Invoice Expenses" e = false).
  { intros e. unfold expenseOfRow. apply andb_false_iff. right.
    apply String.eqb_neq. intros Heq.
    destruct (expenseName_cases (expenseTypes st) e) as [H|H].
    - rewrite H in Heq. discriminate.
    - destruct (typeById_names _ _ H) as (t & Ht & Hn).
      apply (Hnames t Ht). congruence. }
  rewrite get_expenseFold.
  assert (Hex : existsb (expenseOfRow year (expenseTypes st) "Invoice Expenses")
                  (otherExpenses st) = false).
  { induction (otherExpenses st) as [|e l IH]; simpl; [reflexivity|].
    rewrite Hno, IH. reflexivity. }
  rewrite Hex, orb_false_r, (bucketFold_none _ _ _ _ _ Hex).
  assert (Hseed : Js.get (seededRows (expenseTypes st) (snd (invoiceRows year (invoices st))))
                    "Invoice Expenses"
                  = Js.get (snd (invoiceRows year (invoices st))) "Invoice Expenses").
  { unfold seededRows. rewrite get_seedFold.
    destruct (set_has (Js.values (typeById (expenseTypes st))) "Invoice Expenses") eqn:E;
      [|reflexivity].
    apply set_has_In, typeById_names in E. destruct E as (t & Ht & Hn).
    exfalso. exact (Hnames t Ht Hn). }
  unfold Js.has, rowOrFresh. rewrite Hseed.
  destruct (Js.get (snd (invoiceRows year (invoices st))) "Invoice Expenses"); reflexivity.
Qed.

End InvoiceRows.



(** ** The rows of expenseRows *)

Section ExpenseRows.
Context {host : Host}.
Variables (st : State) (year : Z).

Local Abbreviation ts := (expenseTypes st).
Local Abbreviation ier := (snd (invoiceRows year (invoices st))).
Local Abbreviation month := (fun e : OtherExpense => getMonth (oe_date e)).
Local Abbreviation amount := (fun e : OtherExpense => parseNumber (oe_amount e)).

Lemma keys_invoiceExpenseRows :
  Js.keys ier = if existsb (otherOfYear year) (invoices st) then ["Invoice Expenses"] else [].
Proof.
  rewrite invoiceExpenseRows_shape.
  destruct (existsb (otherOfYear year) (invoices st)); reflexivity.
Qed.

Lemma get_invoiceExpenseRows_other (k : string) :
  k <> "Invoice Expenses" -> Js.get ier k = None.
Proof.
  intros Hk. rewrite invoiceExpenseRows_shape.
  destruct (existsb (otherOfYear year) (invoices st)); [|reflexivity].
  rewrite get_singleton.
  destruct (String.eqb_spec "Invoice Expenses" k); [congruence|reflexivity].
Qed.

Lemma get_seededRows (k : string) :
  Js.get (seededRows ts ier) k
  = if set_has (Js.values (typeById ts)) k then Some initRow else Js.get ier k.
Proof. unfold seededRows. apply get_seedFold. Qed.

Lemma get_expenseRows (k : string) :
  Js.get (expenseRows (calcPLForYear st year)) k
  = if Js.has (seededRows ts ier) k || existsb (expenseOfRow year ts k) (otherExpenses st)
    then Some (bucketFold (expenseOfRow year ts k) month amount (otherExpenses st)
                 (rowOrFresh (seededRows ts ier) k))
    else None.
Proof.
  destruct (calcPL_fields st year) as (_ & _ & -> & _). apply get_expenseFold.
Qed.

Lemma keys_expenseRows :
  Js.keys (expenseRows (calcPLForYear st year))
  = fold_left set_add
      (List.map (expenseName ts) (filter (fun e => inYear year (oe_date e)) (otherExpenses st)))
      (fold_left set_add (Js.values (typeById ts)) (Js.keys ier)).
Proof.
  destruct (calcPL_fields st year) as (_ & _ & -> & _).
  rewrite keys_expenseFold. unfold seededRows. rewrite keys_seedFold. reflexivity.
Qed.

Lemma In_firstOccurrences (l : list string) (x : string) :
  In x (firstOccurrences l) <-> In x l.
Proof. unfold firstOccurrences. rewrite In_fold_set_add. simpl. tauto. Qed.

(** The keys of expenseRows when ids are distinct and no type is named
    like the invoice row. *)
Lemma keys_expenseRows_shape :
  NoDup (List.map et_id ts) ->
  (forall t, In t ts -> et_name t <> "Invoice Expenses") ->
  exists tail,
    Js.keys (expenseRows (calcPLForYear st year))
    = (if existsb (otherOfYear year) (invoices st) then ["Invoice Expenses"] else [])
      ++ firstOccurrences (List.map et_name ts) ++ tail
    /\ forall x, In x tail -> x = "Other".
Proof.
  intros Hnd Hnames. rewrite keys_expenseRows, keys_invoiceExpenseRows.
  rewrite (typeById_distinct _ Hnd).
  set (first := if existsb (otherOfYear year) (invoices st)
                then ["Invoice Expenses"] else []).
  assert (Hfirst : forall x, In x first -> x = "Invoice Expenses").
  { unfold first. destruct (existsb (otherOfYear year) (invoices st)).
    - intros x [<-|[]]. reflexivity.
    - intros x []. }
  assert (Hseed : fold_left set_add (List.map et_name ts) first
                  = first ++ firstOccurrences (List.map et_name ts)).
  { rewrite <- (app_nil_r first) at 1. apply fold_set_add_app_fresh.
    intros x Hx Hin. apply in_map_iff in Hx. destruct Hx as (t & <- & Ht).
    exact (Hnames t Ht (Hfirst _ Hin)). }
  rewrite Hseed.
  destruct (fold_set_add_tail
              (List.map (expenseName ts)
                 (filter (fun e => inYear year (oe_date e)) (otherExpenses st)))
              (first ++ firstOccurrences (List.map et_name ts))) as (tail & Heq & Htail).
  exists tail. split; [rewrite Heq, <- app_assoc; reflexivity|].
  intros x Hx. destruct (Htail x Hx) as [Hin Hnot].
  apply in_map_iff in Hin. destruct Hin as (e & <- & _).
  destruct (expenseName_cases ts e) as [H|H]; [exact H|].
  exfalso. apply Hnot, in_or_app. right.
  apply In_firstOccurrences. rewrite <- (typeById_distinct _ Hnd). exact H.
Qed.

End ExpenseRows.

(** C4, as the code has it.  When the ids of the expense types are
    pairwise distinct and no expense type is named "Invoice Expenses":
    expenseRows has a row for every declared expense type name; that row is
    the all-zero row of twelve slots when no expense of the year resolves to
    the name; it has an "Invoice Expenses" row if and only if some invoice
    of the year is not a product invoice; and its keys are, in this order,
    "Invoice Expenses" when it is present, the declared names in catalogue
    order (each at its first occurrence), and at most the fallback name
    "Other". *)
Theorem C4_expense_rows (host : Host) (st : State) (year : Z) :
  NoDup (List.map et_id (expenseTypes st)) ->
  (forall t, In t (expenseTypes st) -> et_name t <> "Invoice Expenses") ->
  let pl := calcPLForYear st year in
  (forall t, In t (expenseTypes st) -> Js.has (expenseRows pl) (et_name t) = true)
  /\ (forall t, In t (expenseTypes st) ->
        (forall e, In e (otherExpenses st) -> inYear year (oe_date e) = true ->
                   expenseName (expenseTypes st) e <> et_name t) ->
        Js.get (expenseRows pl) (et_name t) = Some (repeat 0%Qc 12))
  /\ (Js.has (expenseRows pl) "Invoice Expenses" = true
      <-> exists inv, In inv (invoices st) /\ inYear year (invoiceDate inv) = true
                      /\ isProduct inv = false)
  /\ (exists tail,
        Js.keys (expenseRows pl)
        = (if existsb (otherOfYear year) (invoices st) then ["Invoice Expenses"] else [])
          ++ firstOccurrences (List.map et_name (expenseTypes st)) ++ tail
        /\ forall x, In x tail -> x = "Other")
  /\ twelveWide (expenseRows pl).
Proof.
  intros Hnd Hnames pl.
  destruct (keys_expenseRows_shape st year Hnd Hnames) as (tail & Hkeys & Htail).
  fold pl in Hkeys.
  split.
  { intros t Ht. apply has_In_keys. rewrite Hkeys.
    apply in_or_app. right. apply in_or_app. left.
    apply In_firstOccurrences, in_map, Ht. }
  split.
  { intros t Ht Hnone. unfold pl. rewrite get_expenseRows.
    assert (Hseed : Js.get (seededRows (expenseTypes st) (snd (invoiceRows year (invoices st)))) (et_name t)
                    = Some initRow).
    { rewrite get_seededRows.
      replace (set_has (Js.values (typeById (expenseTypes st))) (et_name t)) with true; [reflexivity|].
      symmetry. apply set_has_In. rewrite (typeById_distinct _ Hnd). apply in_map, Ht. }
    assert (Hex : existsb (expenseOfRow year (expenseTypes st) (et_name t)) (otherExpenses st) = false).
    { apply not_true_is_false. intros Hex. apply existsb_exists in Hex.
      destruct Hex as (e & He & Hrow). unfold expenseOfRow in Hrow.
      apply andb_prop in Hrow. destruct Hrow as [Hy Hn].
      apply String.eqb_eq in Hn. exact (Hnone e He Hy Hn). }
    unfold Js.has, rowOrFresh. rewrite Hseed. simpl.
    rewrite (bucketFold_none _ _ _ _ _ Hex). reflexivity. }
  split.
  { rewrite has_In_keys, Hkeys, !in_app_iff, In_firstOccurrences. split.
    - intros [H|[H|H]].
      + destruct (existsb (otherOfYear year) (invoices st)) eqn:E; [|destruct H].
        apply existsb_exists in E. destruct E as (inv & Hin & Ho).
        unfold otherOfYear in Ho. apply andb_prop in Ho. destruct Ho as [Hy Hp].
        exists inv. repeat split; [exact Hin|exact Hy|].
        destruct (isProduct inv); [discriminate|reflexivity].
      + apply in_map_iff in H. destruct H as (t & Hn & Ht). exfalso. exact (Hnames t Ht Hn).
      + apply Htail in H. discriminate.
    - intros (inv & Hin & Hy & Hp). left.
      replace (existsb (otherOfYear year) (invoices st)) with true; [left; reflexivity|].
      symmetry. apply existsb_exists. exists inv. split; [exact Hin|].
      unfold otherOfYear. rewrite Hy, Hp. reflexivity. }
  split.
  { exists tail. split; [exact Hkeys|exact Htail]. }
  apply twelveWide_expenseRows.
Qed.

Lemma C4_expense_rows_witness :
  NoDup (List.map et_id (expenseTypes scenario))
  /\ (forall t, In t (expenseTypes scenario) -> et_name t <> "Invoice Expenses")
  /\ Js.keys (expenseRows (calcPLForYear (host := utcHost) scenario 2023))
     = ["Rent"]
  /\ Js.get (expenseRows (calcPLForYear (host := utcHost) scenario 2023)) "Rent"
     = Some (repeat 0%Qc 12).
Proof.
  assert (Hnd : NoDup (List.map et_id (expenseTypes scenario))).
  { simpl. constructor; [intros []|constructor]. }
  assert (Hnames : forall t, In t (expenseTypes scenario) -> et_name t <> "Invoice Expenses").
  { intros t [<-|[]]. discriminate. }
  split; [exact Hnd|]. split; [exact Hnames|].
  destruct (C4_expense_rows utcHost scenario 2023 Hnd Hnames) as (_ & H2 & _).
  split; [reflexivity|].
  apply (H2 {| et_id := "rent"; et_name := "Rent" |}); [left; reflexivity|].
  intros e [<-|[<-|[]]]; discriminate.
Defined.

(** C4, as the specification words it, fails.  With an expense type
    named "Invoice Expenses" the table has a row of that name although
    there is no invoice; and of two expense types that share an id only the
    second has a row. *)
Lemma C4_named_like_invoice_row_counterexample :
  (Js.has (expenseRows (calcPLForYear (host := utcHost) collidingCatalogue 2024))
     "Invoice Expenses" = true
   /\ invoices collidingCatalogue = [])
  /\ (In {| et_id := "ext_1"; et_name := "Travel" |} (expenseTypes sharedId)
      /\ Js.has (expenseRows (calcPLForYear (host := utcHost) sharedId 2024)) "Travel" = false
      /\ Js.keys (expenseRows (calcPLForYear (host := utcHost) sharedId 2024)) = ["Fuel"]).
Proof.
  split; [split; reflexivity|].
  split; [left; reflexivity|]. split; reflexivity.
Qed.



(** ** Sorting labels *)

Lemma strLt_trans (a b c : string) : strLt a b -> strLt b c -> strLt a c.
Proof.
  unfold strLt, String.ltb. intros Hab Hbc.
  destruct (String.compare a b) eqn:Eab; try discriminate.
  destruct (String.compare b c) eqn:Ebc; try discriminate.
  apply OrderedTypeEx.String_as_OT.cmp_lt in Eab, Ebc.
  assert (Hac := OrderedTypeEx.String_as_OT.lt_trans _ _ _ Eab Ebc).
  apply OrderedTypeEx.String_as_OT.cmp_lt in Hac.
  unfold OrderedTypeEx.String_as_OT.cmp in Hac. rewrite Hac. reflexivity.
Qed.

Lemma strLt_irrefl (a : string) : ~ strLt a a.
Proof.
  unfold strLt, String.ltb. replace (String.compare a a) with Eq; [discriminate|].
  symmetry. apply (OrderedTypeEx.String_as_OT.cmp_eq a a). reflexivity.
Qed.

Lemma leb_cases (a b : string) :
  String.leb a b = true -> a = b \/ strLt a b.
Proof.
  unfold String.leb, strLt, String.ltb.
  destruct (String.compare a b) eqn:E; try discriminate; intros _.
  - left. apply String.compare_eq_iff. exact E.
  - right. reflexivity.
Qed.

Lemma In_insert_sorted (x y : string) (l : list string) :
  In y (insert_sorted x l) <-> y = x \/ In y l.
Proof.
  induction l as [|z l IH]; simpl.
  - intuition.
  - destruct (String.leb x z); simpl; [intuition|].
    rewrite IH. intuition.
Qed.

Lemma In_sort (l : list string) (y : string) : In y (Js.sort l) <-> In y l.
Proof.
  unfold Js.sort. induction l as [|x l IH]; simpl; [tauto|].
  rewrite In_insert_sorted, IH. intuition.
Qed.

Lemma insert_sorted_strict (x : string) (l : list string) :
  StronglySorted strLt l -> ~ In x l -> StronglySorted strLt (insert_sorted x l).
Proof.
  induction l as [|z l IH]; intros Hs Hx; simpl.
  - constructor; constructor.
  - apply StronglySorted_inv in Hs. destruct Hs as [Hl Hz].
    destruct (String.leb x z) eqn:E.
    + assert (Hxz : strLt x z).
      { destruct (leb_cases _ _ E) as [->|H]; [|exact H]. exfalso. apply Hx. left; reflexivity. }
      constructor; [constructor; assumption|].
      constructor; [exact Hxz|].
      rewrite Forall_forall in Hz |- *. intros w Hw.
      exact (strLt_trans Hxz (Hz w Hw)).
    + constructor.
      * apply IH; [exact Hl|]. intros H. apply Hx. right; exact H.
      * rewrite Forall_forall in Hz |- *. intros w Hw.
        apply In_insert_sorted in Hw. destruct Hw as [->|Hw]; [|exact (Hz w Hw)].
        unfold strLt. rewrite ltb_negb_leb, E. reflexivity.
Qed.

Lemma sort_strict (l : list string) : NoDup l -> StronglySorted strLt (Js.sort l).
Proof.
  unfold Js.sort. induction 1 as [|x l Hx Hnd IH]; simpl; [constructor|].
  apply insert_sorted_strict; [exact IH|].
  intros H. apply Hx. apply (In_sort l x). exact H.
Qed.

Lemma strict_NoDup (l : list string) : StronglySorted strLt l -> NoDup l.
Proof.
  induction 1 as [|x l Hs IH Hx]; constructor; [|exact IH].
  intros Hin. rewrite Forall_forall in Hx. exact (strLt_irrefl (Hx x Hin)).
Qed.

Lemma NoDup_set_add (l : list string) (x : string) : NoDup l -> NoDup (set_add l x).
Proof.
  intros Hnd. unfold set_add. destruct (set_has l x) eqn:E; [exact Hnd|].
  apply NoDup_app; [exact Hnd|constructor; [intros []|constructor]|].
  intros y Hy [<-|[]]. apply set_has_In in Hy. congruence.
Qed.

Lemma NoDup_fold_set_add (l acc : list string) :
  NoDup acc -> NoDup (fold_left set_add l acc).
Proof.
  revert acc; induction l as [|x l IH]; intros acc Hacc; simpl; [exact Hacc|].
  apply IH, NoDup_set_add, Hacc.
Qed.

(** ** The series aligner *)

Lemma In_labelSet (seriesList : list Series) (acc : list string) (l : string) :
  In l (fold_left (fun set s => fold_left set_add (labels s) set) seriesList acc)
  <-> In l acc \/ exists s, In s seriesList /\ In l (labels s).
Proof.
  revert acc; induction seriesList as [|s0 sl IH]; intros acc; simpl.
  - split; [auto|]. intros [H|(s & [] & _)]. exact H.
  - rewrite IH, In_fold_set_add. split.
    + intros [[H|H]|(s & Hs & Hl)]; [auto| |].
      * right. exists s0. auto.
      * right. exists s. auto.
    + intros [H|(s & [<-|Hs] & Hl)]; [auto|auto|].
      right. exists s. auto.
Qed.

Lemma NoDup_labelSet (seriesList : list Series) (acc : list string) :
  NoDup acc ->
  NoDup (fold_left (fun set s => fold_left set_add (labels s) set) seriesList acc).
Proof.
  revert acc; induction seriesList as [|s0 sl IH]; intros acc Hacc; simpl; [exact Hacc|].
  apply IH, NoDup_fold_set_add, Hacc.
Qed.

Lemma indexOf_lookupSeries (ls : list string) (vs : list Qc) (l : string) :
  match indexOf ls l with
  | Some idx => nth idx vs 0%Qc
  | None => 0%Qc
  end
  = match lookupSeries ls vs l with
    | Some v => v
    | None => 0%Qc
    end.
Proof.
  revert vs; induction ls as [|x ls IH]; intros vs; simpl; [reflexivity|].
  destruct (x =? l).
  - destruct vs; reflexivity.
  - destruct vs as [|v vs].
    + destruct (indexOf ls l) as [i|]; [destruct i|]; reflexivity.
    + rewrite <- IH. destruct (indexOf ls l); reflexivity.
Qed.

Lemma lookupSeries_absent (ls : list string) (vs : list Qc) (l : string) :
  ~ In l ls -> lookupSeries ls vs l = None.
Proof.
  revert vs; induction ls as [|x ls IH]; intros vs Hl; simpl; [reflexivity|].
  destruct vs as [|v vs]; [reflexivity|].
  destruct (String.eqb_spec x l) as [->|Hne]; [exfalso; apply Hl; left; reflexivity|].
  apply IH. intros H. apply Hl. right; exact H.
Qed.

Lemma lookupSeries_present (ls : list string) (vs : list Qc) (l : string) :
  In l ls -> List.length ls <= List.length vs ->
  exists i v, nth_error ls i = Some l /\ nth_error vs i = Some v
              /\ lookupSeries ls vs l = Some v.
Proof.
  revert vs; induction ls as [|x ls IH]; intros vs Hl Hlen; [destruct Hl|].
  destruct vs as [|v vs]; [simpl in Hlen; lia|]. simpl.
  destruct (String.eqb_spec x l) as [->|Hne].
  - exists 0, v. repeat split.
  - destruct Hl as [Hl|Hl]; [contradiction|].
    destruct (IH vs Hl) as (i & w & H1 & H2 & H3); [simpl in Hlen; lia|].
    exists (S i), w. repeat split; assumption.
Qed.

(** C6.  The labels the aligner returns are the union of the labels of
    the input series, strictly ascending, so as many as the union has
    elements; there is one value vector per input series, each as long as
    the labels; and the k-th entry of the vector of a series is the value
    the series has at the k-th label, 0 when the series does not have that
    label. *)
Theorem C6_align_series (seriesList : list Series) :
  let out := alignSeriesLabels seriesList in
  (forall l, In l (a_labels out) <-> exists s, In s seriesList /\ In l (labels s))
  /\ StronglySorted strLt (a_labels out)
  /\ List.length (a_labels out) = List.length (unionLabels seriesList)
  /\ List.length (alignedValues out) = List.length seriesList
  /\ Forall (fun vec => List.length vec = List.length (a_labels out)) (alignedValues out)
  /\ (forall i k s l,
        nth_error seriesList i = Some s ->
        nth_error (a_labels out) k = Some l ->
        nth k (nth i (alignedValues out) []) 0%Qc = valueAt s l)
  /\ (forall s l, ~ In l (labels s) -> valueAt s l = 0%Qc)
  /\ (forall s l, In l (labels s) -> List.length (labels s) <= List.length (values s) ->
        exists i, nth_error (labels s) i = Some l
                  /\ nth_error (values s) i = Some (valueAt s l)).
Proof.
  intros out.
  set (labelSet := fold_left (fun set s => fold_left set_add (labels s) set) seriesList []).
  assert (Hlabels : a_labels out = Js.sort labelSet) by reflexivity.
  assert (Hin : forall l, In l (a_labels out) <-> exists s, In s seriesList /\ In l (labels s)).
  { intros l. rewrite Hlabels, In_sort. unfold labelSet. rewrite In_labelSet.
    simpl. tauto. }
  assert (Hsorted : StronglySorted strLt (a_labels out)).
  { rewrite Hlabels. apply sort_strict, NoDup_labelSet. constructor. }
  split; [exact Hin|]. split; [exact Hsorted|].
  split.
  { apply Permutation_length, NoDup_Permutation.
    - apply strict_NoDup, Hsorted.
    - apply NoDup_nodup.
    - intros l. rewrite Hin. unfold unionLabels. rewrite nodup_In, in_concat. split.
      + intros (s & Hs & Hl). exists (labels s). split; [apply in_map, Hs|exact Hl].
      + intros (ls & Hls & Hl). apply in_map_iff in Hls. destruct Hls as (s & <- & Hs).
        exists s. auto. }
  split; [apply length_map|].
  split.
  { apply Forall_forall. intros vec Hvec. apply in_map_iff in Hvec.
    destruct Hvec as (s & <- & _). apply length_map. }
  split.
  { intros i k s l Hs Hl. unfold out at 1. unfold alignSeriesLabels. simpl alignedValues.
    fold labelSet. rewrite <- Hlabels.
    erewrite (nth_error_nth _ _ []); [|rewrite nth_error_map, Hs; reflexivity].
    erewrite (nth_error_nth _ _ 0%Qc); [|rewrite nth_error_map, Hl; reflexivity].
    apply indexOf_lookupSeries. }
  split.
  { intros s l Hl. unfold valueAt. rewrite lookupSeries_absent by exact Hl. reflexivity. }
  intros s l Hl Hlen. destruct (lookupSeries_present _ _ _ Hl Hlen) as (i & v & H1 & H2 & H3).
  exists i. unfold valueAt. rewrite H3. split; assumption.
Qed.

(** ** Grouping by key *)

Section Grouping.
Variable A : Type.
Variables (keep : A -> bool) (key : A -> string) (val : A -> Qc).

Lemma get_accumulate (m : Js.map Qc) (k k' : string) (x : Qc) :
  Js.get (accumulate m k x) k'
  = if k =? k' then Some (getOrZero m k' + x)%Qc else Js.get m k'.
Proof.
  unfold accumulate, getOrZero. rewrite get_set.
  destruct (String.eqb_spec k k') as [->|]; reflexivity.
Qed.

Lemma get_groupFold (l : list A) (m0 : Js.map Qc) (k : string) :
  Js.get (groupFold keep key val l m0) k
  = if Js.has m0 k || existsb (fun a => keep a && (key a =? k)) l
    then Some (getOrZero m0 k
               + sumOver val (filter (fun a => keep a && (key a =? k)%string) l))%Qc
    else None.
Proof.
  unfold groupFold, sumOver. revert m0; induction l as [|a l IH]; intros m0; simpl.
  - unfold Js.has, getOrZero. rewrite orb_false_r.
    destruct (Js.get m0 k); [f_equal; ring|reflexivity].
  - rewrite IH. destruct (keep a); simpl; [|reflexivity].
    unfold Js.has at 1, getOrZero at 1. rewrite get_accumulate.
    destruct (key a =? k); simpl.
    + rewrite orb_true_r. f_equal. ring.
    + reflexivity.
Qed.

Lemma keys_groupFold (l : list A) (m0 : Js.map Qc) :
  Js.keys (groupFold keep key val l m0)
  = fold_left set_add (List.map key (filter keep l)) (Js.keys m0).
Proof.
  unfold groupFold. revert m0; induction l as [|a l IH]; intros m0; simpl; [reflexivity|].
  rewrite IH. destruct (keep a); simpl; [|reflexivity].
  unfold accumulate. rewrite keys_set. reflexivity.
Qed.

Lemma groupFold_filter (p : A -> bool) (l : list A) (m0 : Js.map Qc) :
  (forall a, p a = false -> keep a = false) ->
  groupFold keep key val (filter p l) m0 = groupFold keep key val l m0.
Proof.
  intros Hp. unfold groupFold. revert m0; induction l as [|a l IH]; intros m0; simpl;
    [reflexivity|].
  destruct (p a) eqn:E; simpl; [apply IH|].
  rewrite (Hp a E). apply IH.
Qed.
End Grouping.

(** ** Sorted series *)

Lemma ends_with_greatest (l : list string) (u : string) :
  StronglySorted strLt l -> In u l ->
  (forall x, In x l -> x <> u -> strLt x u) ->
  exists pre, l = pre ++ [u].
Proof.
  induction 1 as [|a l Hs IH Ha]; intros Hin Hmax; [destruct Hin|].
  destruct (string_dec a u) as [->|Hne].
  - destruct l as [|b l]; [exists []; reflexivity|]. exfalso.
    rewrite Forall_forall in Ha. assert (Hub : strLt u b) by (apply Ha; left; reflexivity).
    assert (Hbu : strLt b u).
    { apply Hmax; [right; left; reflexivity|]. intros ->. exact (strLt_irrefl Hub). }
    exact (strLt_irrefl (strLt_trans Hub Hbu)).
  - destruct Hin as [Hin|Hin]; [contradiction|].
    destruct (IH Hin) as (pre & ->).
    + intros x Hx. apply Hmax. right; exact Hx.
    + exists (a :: pre). reflexivity.
Qed.

Lemma mapToSortedSeries_ends (m : Js.map Qc) (u : string) :
  NoDup (Js.keys m) -> In u (Js.keys m) ->
  (forall x, In x (Js.keys m) -> x <> u -> strLt x u) ->
  exists pre,
    labels (mapToSortedSeries m) = pre ++ [u]
    /\ Forall (fun l => strLt l u) pre
    /\ List.length (values (mapToSortedSeries m)) = List.length (labels (mapToSortedSeries m))
    /\ nth (List.length pre) (values (mapToSortedSeries m)) 0%Qc = getOrZero m u.
Proof.
  intros Hnd Hin Hmax. unfold mapToSortedSeries. simpl.
  assert (Hs : StronglySorted strLt (Js.sort (Js.keys m))) by (apply sort_strict, Hnd).
  assert (Hin' : In u (Js.sort (Js.keys m))) by (apply In_sort, Hin).
  assert (Hmax' : forall x, In x (Js.sort (Js.keys m)) -> x <> u -> strLt x u).
  { intros x Hx. apply Hmax. apply (In_sort (Js.keys m) x). exact Hx. }
  destruct (ends_with_greatest Hs Hin' Hmax') as (pre & Hpre).
  exists pre. rewrite Hpre. split; [reflexivity|]. split.
  - apply Forall_forall. intros x Hx.
    assert (Hxl : In x (Js.sort (Js.keys m))) by (rewrite Hpre; apply in_or_app; auto).
    apply Hmax'; [exact Hxl|].
    intros ->. apply strict_NoDup in Hs. rewrite Hpre in Hs.
    apply NoDup_remove_2 in Hs. apply Hs. rewrite app_nil_r. exact Hx.
  - split; [apply length_map|].
    rewrite map_app. simpl. rewrite app_nth2 by (rewrite length_map; lia).
    rewrite length_map, Nat.sub_diag. reflexivity.
Qed.

Lemma NoDup_keys_groupFold (A : Type) (keep : A -> bool) (key : A -> string)
  (val : A -> Qc) (l : list A) :
  NoDup (Js.keys (groupFold keep key val l [])).
Proof. rewrite keys_groupFold. apply NoDup_fold_set_add. constructor. Qed.

(** ** The month aggregators *)

Section Aggregators.
Context {host : Host}.

Lemma string_of_Z_below_unknown (y : Z) (rest : string) :
  strLt (string_of_Z y ++ rest)%string "Unknown".
Proof.
  unfold strLt, string_of_Z, NilZero.string_of_int.
  destruct (Z.to_int y) as [u|u]; [destruct u; reflexivity|reflexivity].
Qed.

Lemma monthKey_cases (d : option string) :
  (monthKey d = "Unknown" /\ unknownDate d = true)
  \/ (strLt (monthKey d) "Unknown" /\ unknownDate d = false).
Proof.
  unfold monthKey, unknownDate. destruct d as [s|]; simpl; [|left; split; reflexivity].
  destruct (s =? ""); simpl; [left; split; reflexivity|].
  destruct (DateFields s) as [[y m]|]; [|left; split; reflexivity].
  right. split; [apply string_of_Z_below_unknown|reflexivity].
Qed.

Lemma monthKey_unknown_iff (d : option string) :
  monthKey d = "Unknown" <-> unknownDate d = true.
Proof.
  destruct (monthKey_cases d) as [[H1 H2]|[H1 H2]].
  - tauto.
  - split; [|congruence]. intros H. rewrite H in H1. destruct (strLt_irrefl H1).
Qed.

Lemma monthKey_below_unknown (d : option string) :
  monthKey d <> "Unknown" -> strLt (monthKey d) "Unknown".
Proof.
  destruct (monthKey_cases d) as [[H1 H2]|[H1 H2]]; [contradiction|auto].
Qed.

Lemma sellFold (fromDate toDate : string) (es : list SellEntry) (f n : Js.map Qc) :
  fold_left (sellStep fromDate toDate) es (f, n)
  = (groupFold (fiscalKept fromDate toDate) sellKey sellAmount es f,
     groupFold (nonFiscalKept fromDate toDate) sellKey sellAmount es n).
Proof.
  unfold groupFold. revert f n; induction es as [|e es IH]; intros f n; [reflexivity|].
  rewrite !fold_left_step, <- IH. f_equal.
  unfold sellStep, fiscalKept, nonFiscalKept.
  destruct (outsideBounds fromDate toDate (se_date e)); simpl; [reflexivity|].
  destruct (eq_field (se_type e) "fiscal"); reflexivity.
Qed.

Lemma aggregateByMonthSell_series (st : State) (fromDate toDate : string) :
  aggregateByMonthSell st fromDate toDate
  = (mapToSortedSeries
       (groupFold (fiscalKept fromDate toDate) sellKey sellAmount (sellEntries st) []),
     mapToSortedSeries
       (groupFold (nonFiscalKept fromDate toDate) sellKey sellAmount (sellEntries st) [])).
Proof. unfold aggregateByMonthSell. rewrite sellFold. reflexivity. Qed.

Lemma aggregateByMonthExpenses_series (st : State) (fromDate toDate : string) :
  aggregateByMonthExpenses st fromDate toDate
  = (mapToSortedSeries
       (groupFold (fun inv => negb (outsideBounds fromDate toDate (invoiceDate inv)))
          (fun inv => monthKey (invoiceDate inv)) invoiceTotal (invoices st) []),
     mapToSortedSeries
       (groupFold (fun e => negb (outsideBounds fromDate toDate (oe_date e)))
          (fun e => monthKey (oe_date e)) (fun e => parseNumber (oe_amount e))
          (otherExpenses st) [])).
Proof.
  unfold aggregateByMonthExpenses, groupFold. f_equal; f_equal.
  - generalize (@nil (string * Qc)).
    induction (invoices st) as [|inv l IH]; intros m; [reflexivity|].
    rewrite !fold_left_step, <- IH. f_equal. unfold purchaseStep.
    destruct (outsideBounds fromDate toDate (invoiceDate inv)); reflexivity.
  - generalize (@nil (string * Qc)).
    induction (otherExpenses st) as [|e l IH]; intros m; [reflexivity|].
    rewrite !fold_left_step, <- IH. f_equal. unfold otherStep.
    destruct (outsideBounds fromDate toDate (oe_date e)); reflexivity.
Qed.

Lemma unknown_bucket (keep : SellEntry -> bool) (es : list SellEntry) (e : SellEntry) :
  In e es -> keep e = true -> unknownDate (se_date e) = true ->
  exists pre,
    labels (mapToSortedSeries (groupFold keep sellKey sellAmount es [])) = pre ++ ["Unknown"]
    /\ Forall (fun l => strLt l "Unknown") pre
    /\ List.length (values (mapToSortedSeries (groupFold keep sellKey sellAmount es [])))
       = List.length (labels (mapToSortedSeries (groupFold keep sellKey sellAmount es [])))
    /\ nth (List.length pre)
         (values (mapToSortedSeries (groupFold keep sellKey sellAmount es []))) 0%Qc
       = sumOver sellAmount (filter (fun x => keep x && unknownDate (se_date x)) es).
Proof.
  intros Hin Hkeep Hunk.
  assert (Hkey : sellKey e = "Unknown") by (apply monthKey_unknown_iff, Hunk).
  destruct (@mapToSortedSeries_ends (groupFold keep sellKey sellAmount es []) "Unknown")
    as (pre & H1 & H2 & H3 & H4).
  - apply NoDup_keys_groupFold.
  - rewrite keys_groupFold. apply In_fold_set_add. right.
    rewrite <- Hkey. apply in_map, filter_In. split; assumption.
  - intros x Hx Hne. rewrite keys_groupFold in Hx. apply In_fold_set_add in Hx.
    destruct Hx as [[]|Hx]. apply in_map_iff in Hx. destruct Hx as (x0 & <- & _).
    apply monthKey_below_unknown, Hne.
  - exists pre. split; [exact H1|]. split; [exact H2|]. split; [exact H3|].
    rewrite H4. unfold getOrZero. rewrite get_groupFold.
    replace (existsb (fun a => keep a && (sellKey a =? "Unknown")) es) with true.
    + simpl. unfold getOrZero. simpl. rewrite Qcplus_0_l.
      f_equal. apply filter_ext. intros x. f_equal.
      unfold sellKey. destruct (monthKey_cases (se_date x)) as [[Hk Hu]|[Hk Hu]]; rewrite Hu.
      * rewrite Hk. reflexivity.
      * apply String.eqb_neq. intros Hk'. rewrite Hk' in Hk. exact (strLt_irrefl Hk).
    + symmetry. apply existsb_exists. exists e. split; [exact Hin|].
      rewrite Hkeep, Hkey. reflexivity.
Qed.

End Aggregators.

(** C7.  With no date bounds, a sell entry whose date is missing, empty
    or not readable as a date has the month key "Unknown"; the series of
    its type (fiscal or non-fiscal) then ends with the label "Unknown",
    every other label of the series sorts strictly before it, and the value
    under "Unknown" is the sum of the amounts of all entries of unknown date
    of that type, this entry among them: it is not dropped. *)
Theorem C7_unknown_bucket (host : Host) (st : State) (e : SellEntry) :
  In e (sellEntries st) ->
  unknownDate (se_date e) = true ->
  let out := aggregateByMonthSell st "" "" in
  let series := if eq_field (se_type e) "fiscal" then fst out else snd out in
  monthKey (se_date e) = "Unknown"
  /\ exists pre,
       labels series = pre ++ ["Unknown"]
       /\ Forall (fun l => strLt l "Unknown") pre
       /\ List.length (values series) = List.length (labels series)
       /\ nth (List.length pre) (values series) 0%Qc
          = sumOver sellAmount (filter (sameUnknownBucket e) (sellEntries st))
       /\ In e (filter (sameUnknownBucket e) (sellEntries st)).
Proof.
  intros Hin Hunk out series.
  split; [apply monthKey_unknown_iff, Hunk|].
  assert (Hself : In e (filter (sameUnknownBucket e) (sellEntries st))).
  { apply filter_In. split; [exact Hin|]. unfold sameUnknownBucket.
    rewrite Hunk, Bool.eqb_reflx. reflexivity. }
  unfold series, out. rewrite aggregateByMonthSell_series.
  destruct (eq_field (se_type e) "fiscal") eqn:Et; simpl fst; simpl snd.
  - destruct (unknown_bucket (fiscalKept "" "") (sellEntries st) e Hin)
      as (pre & H1 & H2 & H3 & H4); [unfold fiscalKept; rewrite Et; reflexivity|exact Hunk|].
    exists pre. repeat (split; [assumption|]). split; [|exact Hself].
    rewrite H4. f_equal. apply filter_ext. intros x.
    unfold fiscalKept, sameUnknownBucket. rewrite Et. simpl.
    destruct (eq_field (se_type x) "fiscal"), (unknownDate (se_date x)); reflexivity.
  - destruct (unknown_bucket (nonFiscalKept "" "") (sellEntries st) e Hin)
      as (pre & H1 & H2 & H3 & H4); [unfold nonFiscalKept; rewrite Et; reflexivity|exact Hunk|].
    exists pre. repeat (split; [assumption|]). split; [|exact Hself].
    rewrite H4. f_equal. apply filter_ext. intros x.
    unfold nonFiscalKept, sameUnknownBucket. rewrite Et. simpl.
    destruct (eq_field (se_type x) "fiscal"), (unknownDate (se_date x)); reflexivity.
Qed.

Lemma C7_unknown_bucket_witness :
  In {| se_date := Some ""; se_type := Some "fiscal"; se_amount := num 40 |}
     (sellEntries undatedSales)
  /\ exists pre,
       labels (fst (aggregateByMonthSell (host := utcHost) undatedSales "" ""))
       = pre ++ ["Unknown"]
       /\ nth (List.length pre)
            (values (fst (aggregateByMonthSell (host := utcHost) undatedSales "" ""))) 0%Qc
          = int 42.
Proof.
  assert (Hin : In {| se_date := Some ""; se_type := Some "fiscal"; se_amount := num 40 |}
                   (sellEntries undatedSales)) by (left; reflexivity).
  split; [exact Hin|].
  destruct (@C7_unknown_bucket utcHost undatedSales _ Hin eq_refl)
    as (_ & pre & H1 & _ & _ & H4 & _).
  exists pre. split; [exact H1|exact H4].
Defined.

(** ** Lower bounds and empty dates *)

Lemma empty_date_outside (fromDate toDate : string) (d : option string) :
  fromDate <> "" -> eq_field d "" = true -> outsideBounds fromDate toDate d = true.
Proof.
  intros Hfrom Hd. unfold eq_field in Hd. destruct d as [s|]; [|discriminate].
  apply String.eqb_eq in Hd. subst s. unfold outsideBounds.
  destruct fromDate as [|c r]; [contradiction|]. reflexivity.
Qed.

(** C10.  With a non-empty lower bound, a record whose bucketing date is
    the empty string is outside the bounds, and the output of both month
    aggregators is the output they give on the ledger without these
    records: such a record reaches no bucket, the "Unknown" bucket
    included. *)
Theorem C10_empty_dates_excluded (host : Host) (st : State) (fromDate toDate : string) :
  fromDate <> "" ->
  (forall d, eq_field d "" = true -> outsideBounds fromDate toDate d = true)
  /\ aggregateByMonthSell st fromDate toDate
     = aggregateByMonthSell (withoutEmptyDates st) fromDate toDate
  /\ aggregateByMonthExpenses st fromDate toDate
     = aggregateByMonthExpenses (withoutEmptyDates st) fromDate toDate.
Proof.
  intros Hfrom.
  assert (Hout : forall d, eq_field d "" = true -> outsideBounds fromDate toDate d = true)
    by (intros d; apply empty_date_outside, Hfrom).
  split; [exact Hout|].
  rewrite !aggregateByMonthSell_series, !aggregateByMonthExpenses_series.
  unfold withoutEmptyDates; simpl.
  split; f_equal; f_equal; symmetry; apply groupFold_filter; intros a Ha;
    apply negb_false_iff in Ha; unfold fiscalKept, nonFiscalKept;
    rewrite (Hout _ Ha); reflexivity.
Qed.

Lemma C10_empty_dates_excluded_witness :
  "2024-01-01" <> ""
  /\ aggregateByMonthSell (host := utcHost) undatedSales "2024-01-01" ""
     = ({| labels := ["2024-03"; "Unknown"]; values := [int 5; int 2] |},
        {| labels := []; values := [] |})
  /\ aggregateByMonthExpenses (host := utcHost) undatedSales "2024-01-01" ""
     = ({| labels := []; values := [] |}, {| labels := []; values := [] |}).
Proof.
  assert (Hfrom : "2024-01-01" <> "") by discriminate.
  split; [exact Hfrom|].
  destruct (C10_empty_dates_excluded utcHost undatedSales "" Hfrom) as (_ & H1 & H2).
  split; [exact H1|exact H2].
Defined.

(** ** The drill-down *)

(** C9 at a failing input.  In the scenario the expense of 9 dated
    2024-02-10 refers to the unknown type id "ghost": the table puts it in
    the February slot of the row "Other", and it is the only record behind
    that cell, but the drill-down of that cell lists no record at all.  For
    a label that names no expense type [openPLDetails] looks for the expenses
    whose typeId is the empty string. *)
Lemma C9_other_row_drilldown_empty :
  Js.get (expenseRows (calcPLForYear (host := utcHost) scenario 2024)) "Other"
  = Some (List.map int [0; 9; 0; 0; 0; 0; 0; 0; 0; 0; 0; 0]%Z)
  /\ filter (fun e => expenseOfRow 2024 (expenseTypes scenario) "Other" e
                      && isMonth 1 (getMonth (host := utcHost) (oe_date e)))
       (otherExpenses scenario)
     = [ {| oe_date := Some "2024-02-10"; typeId := Some "ghost"; oe_amount := num 9 |} ]
  /\ openPLDetails scenario 2024 "02" "Other" = ExpenseDetails []
  /\ openPLDetails scenario 2024 "02" "Rent"
     = ExpenseDetails
         [ {| oe_date := Some "2024-02-01"; typeId := Some "rent"; oe_amount := num 50 |} ].
Proof. repeat split. Qed.

(** * Further properties

    ** Sums over maps and series *)

Lemma sumList_app (l1 l2 : list Qc) : sumList (l1 ++ l2) = (sumList l1 + sumList l2)%Qc.
Proof. induction l1 as [|x l1 IH]; simpl; [ring|]. rewrite IH. ring. Qed.

Lemma sumOver_Permutation (A : Type) (f : A -> Qc) (l1 l2 : list A) :
  Permutation l1 l2 -> sumOver f l1 = sumOver f l2.
Proof.
  unfold sumOver. induction 1; simpl; try congruence.
  - ring.
Qed.

Lemma sumOver_ext (A : Type) (f g : A -> Qc) (l : list A) :
  (forall a, In a l -> f a = g a) -> sumOver f l = sumOver g l.
Proof.
  unfold sumOver. induction l as [|a l IH]; intros H; simpl; [reflexivity|].
  rewrite H by (left; reflexivity). rewrite IH; [reflexivity|].
  intros b Hb. apply H. right; exact Hb.
Qed.

Lemma sumOver_zero (A : Type) (f : A -> Qc) (l : list A) :
  (forall a, In a l -> f a = 0%Qc) -> sumOver f l = 0%Qc.
Proof.
  unfold sumOver. induction l as [|a l IH]; intros H; simpl; [reflexivity|].
  rewrite H by (left; reflexivity). rewrite IH; [ring|].
  intros b Hb. apply H. right; exact Hb.
Qed.

Lemma sumOver_filter_split (A : Type) (f : A -> Qc) (p q r : A -> bool) (l : list A) :
  (forall a, p a = q a || r a) -> (forall a, q a && r a = false) ->
  sumOver f (filter p l) = (sumOver f (filter q l) + sumOver f (filter r l))%Qc.
Proof.
  intros Hp Hd. unfold sumOver. induction l as [|a l IH]; simpl; [ring|].
  rewrite Hp. specialize (Hd a).
  destruct (q a), (r a); simpl in *; try discriminate; rewrite IH; ring.
Qed.

Lemma fold_left_sum (A : Type) (f : A -> Qc) (l : list A) (a : Qc) :
  fold_left (fun s x => (s + f x)%Qc) l a = (a + sumOver f l)%Qc.
Proof.
  unfold sumOver. revert a; induction l as [|x l IH]; intros a; simpl; [ring|].
  rewrite IH. ring.
Qed.

Lemma Permutation_insert_sorted (x : string) (l : list string) :
  Permutation (insert_sorted x l) (x :: l).
Proof.
  induction l as [|y l IH]; simpl; [reflexivity|].
  destruct (String.leb x y); [reflexivity|].
  rewrite IH. apply perm_swap.
Qed.

Lemma Permutation_sort (l : list string) : Permutation (Js.sort l) l.
Proof.
  unfold Js.sort. induction l as [|x l IH]; simpl; [reflexivity|].
  rewrite Permutation_insert_sorted. constructor. exact IH.
Qed.

(** A sum over a duplicate-free list only needs the part on which the
    summand may differ from zero. *)
Lemma sumOver_support (f : string -> Qc) (K : list string) :
  NoDup K -> forall L, NoDup L -> incl K L ->
  (forall l, In l L -> ~ In l K -> f l = 0%Qc) ->
  sumOver f L = sumOver f K.
Proof.
  induction 1 as [|k K Hk HK IH]; intros L HL Hincl Hzero.
  - apply sumOver_zero. intros l Hl. apply Hzero; [exact Hl|]. intros [].
  - assert (HkL : In k L) by (apply Hincl; left; reflexivity).
    destruct (in_split _ _ HkL) as (l1 & l2 & ->).
    assert (Hperm : Permutation (l1 ++ k :: l2) (k :: l1 ++ l2))
      by (symmetry; apply Permutation_middle).
    rewrite (sumOver_Permutation f Hperm).
    unfold sumOver. simpl. f_equal. apply IH.
    + apply NoDup_remove_1 in HL. exact HL.
    + intros x Hx. assert (Hx' : In x (l1 ++ k :: l2)) by (apply Hincl; right; exact Hx).
      apply in_app_or in Hx'. apply in_or_app.
      destruct Hx' as [H|[H|H]]; auto. subst x. contradiction.
    + intros l Hl Hnot. apply Hzero.
      * apply in_app_or in Hl. apply in_or_app. destruct Hl; [left|right; right]; assumption.
      * intros [H|H]; [|contradiction]. subst l.
        apply NoDup_remove_2 in HL. contradiction.
Qed.

Lemma getOrZero_absent (m : Js.map Qc) (k : string) :
  ~ In k (Js.keys m) -> getOrZero m k = 0%Qc.
Proof.
  intros H. unfold getOrZero. destruct (Js.get m k) eqn:E; [|reflexivity].
  exfalso. apply H. apply has_In_keys. unfold Js.has. rewrite E. reflexivity.
Qed.

Lemma mapSum_keys (m : Js.map Qc) :
  NoDup (Js.keys m) -> sumOver (getOrZero m) (Js.keys m) = mapSum m.
Proof.
  unfold mapSum, sumOver, Js.keys, Js.values.
  induction m as [|[k v] m IH]; intros Hnd; simpl; [reflexivity|].
  inversion Hnd as [|? ? Hk Hnd']; subst.
  unfold getOrZero at 1. simpl. rewrite String.eqb_refl. f_equal.
  rewrite <- IH by exact Hnd'. f_equal. apply map_ext_in. intros k' Hk'.
  unfold getOrZero. simpl.
  destruct (String.eqb_spec k k') as [->|]; [contradiction|reflexivity].
Qed.

Lemma mapSum_set (m : Js.map Qc) (k : string) (v : Qc) :
  mapSum (Js.set m k v) = (mapSum m - getOrZero m k + v)%Qc.
Proof.
  unfold mapSum, Js.values, getOrZero. induction m as [|[k0 v0] m IH]; simpl.
  - ring.
  - destruct (String.eqb_spec k0 k) as [->|Hne]; simpl.
    + ring.
    + rewrite IH. ring.
Qed.

Lemma mapSum_accumulate (m : Js.map Qc) (k : string) (x : Qc) :
  mapSum (accumulate m k x) = (mapSum m + x)%Qc.
Proof. unfold accumulate. rewrite mapSum_set. unfold getOrZero. ring. Qed.

Lemma mapSum_groupFold (A : Type) (keep : A -> bool) (key : A -> string)
  (val : A -> Qc) (l : list A) (m0 : Js.map Qc) :
  mapSum (groupFold keep key val l m0) = (mapSum m0 + sumOver val (filter keep l))%Qc.
Proof.
  unfold groupFold, sumOver. revert m0; induction l as [|a l IH]; intros m0; simpl; [ring|].
  rewrite IH. destruct (keep a); simpl; [|reflexivity].
  rewrite mapSum_accumulate. ring.
Qed.

(** The values of a sorted series are the values of the map, label by
    label. *)
Lemma lookupSeries_map (g : string -> Qc) (ls : list string) (l : string) :
  In l ls -> lookupSeries ls (List.map g ls) l = Some (g l).
Proof.
  induction ls as [|x ls IH]; intros Hl; [destruct Hl|]. simpl.
  destruct (String.eqb_spec x l) as [->|Hne]; [reflexivity|].
  apply IH. destruct Hl as [H|H]; [contradiction|exact H].
Qed.

Lemma valueAt_mapToSortedSeries (m : Js.map Qc) (l : string) :
  valueAt (mapToSortedSeries m) l = getOrZero m l.
Proof.
  unfold valueAt, mapToSortedSeries. simpl.
  destruct (in_dec string_dec l (Js.sort (Js.keys m))) as [Hin|Hout].
  - rewrite (lookupSeries_map (fun l => match Js.get m l with Some v => v | None => 0%Qc end))
      by exact Hin.
    reflexivity.
  - rewrite lookupSeries_absent by exact Hout. symmetry. apply getOrZero_absent.
    intros H. apply Hout. apply In_sort. exact H.
Qed.

Lemma sumList_mapToSortedSeries (m : Js.map Qc) :
  NoDup (Js.keys m) -> sumList (values (mapToSortedSeries m)) = mapSum m.
Proof.
  intros Hnd. unfold mapToSortedSeries. simpl.
  change (sumOver (getOrZero m) (Js.sort (Js.keys m)) = mapSum m).
  rewrite (sumOver_Permutation _ (Permutation_sort (Js.keys m))).
  apply mapSum_keys, Hnd.
Qed.

Lemma getOrZero_groupFold (A : Type) (keep : A -> bool) (key : A -> string)
  (val : A -> Qc) (l : list A) (k : string) :
  getOrZero (groupFold keep key val l []) k
  = sumOver val (filter (fun a => keep a && (key a =? k)%string) l).
Proof.
  unfold getOrZero at 1. rewrite get_groupFold. simpl.
  destruct (existsb (fun a => keep a && (key a =? k)%string) l) eqn:E.
  - unfold getOrZero. simpl. apply Qcplus_0_l.
  - symmetry. apply sumOver_zero. intros a Ha. apply filter_In in Ha.
    destruct Ha as [Ha Hk]. exfalso.
    assert (Hex : existsb (fun a => keep a && (key a =? k)%string) l = true)
      by (apply existsb_exists; exists a; split; assumption).
    congruence.
Qed.

(** ** Two series from maps, aligned *)

Section AlignedPair.
Variables m1 m2 : Js.map Qc.
Hypothesis Hnd1 : NoDup (Js.keys m1).
Hypothesis Hnd2 : NoDup (Js.keys m2).

Local Abbreviation pairAligned :=
  (alignSeriesLabels [mapToSortedSeries m1; mapToSortedSeries m2]).

Lemma In_pairAligned (l : string) :
  In l (a_labels pairAligned) <-> In l (Js.keys m1) \/ In l (Js.keys m2).
Proof.
  unfold alignSeriesLabels. simpl a_labels. rewrite In_sort.
  rewrite (In_labelSet [mapToSortedSeries m1; mapToSortedSeries m2] [] l).
  unfold mapToSortedSeries. simpl. split.
  - intros [[]|(s & [<-|[<-|[]]] & Hl)]; simpl in Hl; rewrite In_sort in Hl; auto.
  - intros [H|H]; right.
    + eexists. split; [left; reflexivity|]. simpl. rewrite In_sort. exact H.
    + eexists. split; [right; left; reflexivity|]. simpl. rewrite In_sort. exact H.
Qed.

Lemma sorted_pairAligned : StronglySorted strLt (a_labels pairAligned).
Proof.
  unfold alignSeriesLabels. simpl a_labels. apply sort_strict.
  apply (NoDup_labelSet [mapToSortedSeries m1; mapToSortedSeries m2]). constructor.
Qed.

Lemma first_pairAligned :
  nth 0 (alignedValues pairAligned) [] = List.map (getOrZero m1) (a_labels pairAligned).
Proof.
  unfold alignSeriesLabels. simpl. apply map_ext. intros l.
  rewrite (indexOf_lookupSeries (Js.sort (Js.keys m1)) _ l).
  apply (valueAt_mapToSortedSeries m1 l).
Qed.

Lemma second_pairAligned :
  nth 1 (alignedValues pairAligned) [] = List.map (getOrZero m2) (a_labels pairAligned).
Proof.
  unfold alignSeriesLabels. simpl. apply map_ext. intros l.
  rewrite (indexOf_lookupSeries (Js.sort (Js.keys m2)) _ l).
  apply (valueAt_mapToSortedSeries m2 l).
Qed.

Lemma sum_over_pairAligned (m : Js.map Qc) :
  NoDup (Js.keys m) -> incl (Js.keys m) (a_labels pairAligned) ->
  sumList (List.map (getOrZero m) (a_labels pairAligned)) = mapSum m.
Proof.
  intros Hnd Hincl. rewrite <- (@mapSum_keys m Hnd).
  apply (@sumOver_support (getOrZero m) (Js.keys m) Hnd).
  - apply strict_NoDup, sorted_pairAligned.
  - exact Hincl.
  - intros l _ Hl. apply getOrZero_absent, Hl.
Qed.

Lemma sum_first_pairAligned : sumList (nth 0 (alignedValues pairAligned) []) = mapSum m1.
Proof.
  rewrite first_pairAligned. apply sum_over_pairAligned; [exact Hnd1|].
  intros l Hl. apply In_pairAligned. left; exact Hl.
Qed.

Lemma sum_second_pairAligned : sumList (nth 1 (alignedValues pairAligned) []) = mapSum m2.
Proof.
  rewrite second_pairAligned. apply sum_over_pairAligned; [exact Hnd2|].
  intros l Hl. apply In_pairAligned. right; exact Hl.
Qed.
End AlignedPair.

(** ** The dashboard: totals and charts *)

Lemma inside_or_undated (fromDate toDate : string) (d : option string) :
  negb (outsideBounds fromDate toDate d)
  = insideBounds fromDate toDate d || undatedUnderBounds fromDate toDate d.
Proof.
  unfold outsideBounds, insideBounds, undatedUnderBounds.
  destruct d as [s|]; simpl.
  - rewrite !ltb_negb_leb.
    destruct (fromDate =? ""), (toDate =? ""), (String.leb fromDate s), (String.leb s toDate);
      reflexivity.
  - destruct (fromDate =? ""), (toDate =? ""); reflexivity.
Qed.

Lemma inside_not_undated (fromDate toDate : string) (d : option string) :
  insideBounds fromDate toDate d && undatedUnderBounds fromDate toDate d = false.
Proof.
  unfold insideBounds, undatedUnderBounds. destruct d as [s|]; simpl.
  - rewrite andb_false_r. apply andb_false_r.
  - destruct (fromDate =? ""), (toDate =? ""); reflexivity.
Qed.

Lemma undated_dated (fromDate toDate : string) (d : option string) :
  (fromDate = "" /\ toDate = "") \/ d <> None ->
  undatedUnderBounds fromDate toDate d = false.
Proof.
  unfold undatedUnderBounds. intros [[-> ->]|H]; [reflexivity|].
  destruct d; [apply andb_false_r|contradiction].
Qed.

Section DashboardFacts.
Context {host : Host}.
Variables (st : State) (fromDate toDate : string).

Local Abbreviation dash := (renderDashboard st fromDate toDate).
Local Abbreviation kept := (fun d : option string => negb (outsideBounds fromDate toDate d)).
Local Abbreviation fiscalMap :=
  (groupFold (fiscalKept fromDate toDate) sellKey sellAmount (sellEntries st) []).
Local Abbreviation nonFiscalMap :=
  (groupFold (nonFiscalKept fromDate toDate) sellKey sellAmount (sellEntries st) []).
Local Abbreviation purchasesMap :=
  (groupFold (fun inv => kept (invoiceDate inv)) (fun inv => monthKey (invoiceDate inv))
     invoiceTotal (invoices st) []).
Local Abbreviation expensesMap :=
  (groupFold (fun e => kept (oe_date e)) (fun e => monthKey (oe_date e))
     (fun e => parseNumber (oe_amount e)) (otherExpenses st) []).

Lemma sell_chart :
  sellLabels dash
  = a_labels (alignSeriesLabels [mapToSortedSeries fiscalMap; mapToSortedSeries nonFiscalMap])
  /\ fiscalVals dash = List.map (getOrZero fiscalMap) (sellLabels dash)
  /\ nonFiscalVals dash = List.map (getOrZero nonFiscalMap) (sellLabels dash).
Proof.
  unfold renderDashboard. cbv zeta. cbn [sellLabels fiscalVals nonFiscalVals].
  rewrite aggregateByMonthSell_series. cbn [fst snd].
  split; [reflexivity|]. split.
  - apply first_pairAligned.
  - apply second_pairAligned.
Qed.

Lemma expenses_chart :
  expLabels dash
  = a_labels (alignSeriesLabels [mapToSortedSeries purchasesMap; mapToSortedSeries expensesMap])
  /\ purchaseVals dash = List.map (getOrZero purchasesMap) (expLabels dash)
  /\ expenseVals dash = List.map (getOrZero expensesMap) (expLabels dash).
Proof.
  unfold renderDashboard. cbv zeta. cbn [expLabels purchaseVals expenseVals].
  rewrite aggregateByMonthExpenses_series. cbn [fst snd].
  split; [reflexivity|]. split.
  - apply first_pairAligned.
  - apply second_pairAligned.
Qed.

(** Each chart series adds up to the amounts of the records it keeps. *)
Lemma chart_sums :
  sumList (fiscalVals dash) = sumOver sellAmount (filter (fiscalKept fromDate toDate) (sellEntries st))
  /\ sumList (nonFiscalVals dash)
     = sumOver sellAmount (filter (nonFiscalKept fromDate toDate) (sellEntries st))
  /\ sumList (purchaseVals dash)
     = sumOver invoiceTotal (filter (fun inv => kept (invoiceDate inv)) (invoices st))
  /\ sumList (expenseVals dash)
     = sumOver (fun e => parseNumber (oe_amount e))
         (filter (fun e => kept (oe_date e)) (otherExpenses st)).
Proof.
  destruct sell_chart as (Hl & Hf & Hn). destruct expenses_chart as (Hl' & Hp & He).
  rewrite Hf, Hn, Hp, He, Hl, Hl'.
  rewrite <- first_pairAligned, <- second_pairAligned.
  rewrite <- (first_pairAligned purchasesMap), <- (second_pairAligned purchasesMap).
  rewrite !sum_first_pairAligned, !sum_second_pairAligned
    by apply NoDup_keys_groupFold.
  rewrite !mapSum_groupFold. unfold mapSum. simpl.
  repeat split; apply Qcplus_0_l.
Qed.

Lemma dashboard_totals :
  fiscalSales dash
  = sumOver sellAmount
      (filter (fun e => eq_field (se_type e) "fiscal"
                        && insideBounds fromDate toDate (se_date e)) (sellEntries st))
  /\ nonFiscalSales dash
     = sumOver sellAmount
         (filter (fun e => eq_field (se_type e) "non-fiscal"
                           && insideBounds fromDate toDate (se_date e)) (sellEntries st))
  /\ totalPurchases dash
     = sumOver invoiceTotal
         (filter (fun inv => insideBounds fromDate toDate (invoiceDate inv)) (invoices st))
  /\ totalOtherExpenses dash
     = sumOver (fun e => parseNumber (oe_amount e))
         (filter (fun e => insideBounds fromDate toDate (oe_date e)) (otherExpenses st)).
Proof.
  unfold renderDashboard. cbv zeta.
  cbn [fiscalSales nonFiscalSales totalPurchases totalOtherExpenses].
  rewrite !fold_left_sum. repeat split; apply Qcplus_0_l.
Qed.

End DashboardFacts.

Lemma In_keys_groupFold (A : Type) (keep : A -> bool) (key : A -> string)
  (val : A -> Qc) (l : list A) (k : string) :
  In k (Js.keys (groupFold keep key val l []))
  <-> exists a, In a l /\ keep a = true /\ key a = k.
Proof.
  rewrite keys_groupFold, In_fold_set_add, in_map_iff. simpl. split.
  - intros [[]|(a & <- & Ha)]. apply filter_In in Ha. exists a. tauto.
  - intros (a & Ha & Hk & <-). right. exists a. split; [reflexivity|].
    apply filter_In. tauto.
Qed.

Lemma nth_map_getOrZero (m : Js.map Qc) (ls : list string) (i : nat) (l : string) :
  nth_error ls i = Some l -> nth i (List.map (getOrZero m) ls) 0%Qc = getOrZero m l.
Proof.
  intros H. apply nth_error_nth. rewrite nth_error_map, H. reflexivity.
Qed.

(** X1.  The two month charts of the dashboard.  The labels of the sales
    chart are the month keys of the sell entries the bounds keep, each
    once and in ascending order; the two bar series are as long as the
    labels, and under a label the fiscal bar is the sum of the amounts of
    the kept fiscal entries of that month and the non-fiscal bar the sum
    over the kept entries of every other type.  The expenses chart is built
    the same way from all invoices (purchases) and other expenses. *)
Theorem dashboard_chart_bars (host : Host) (st : State) (fromDate toDate : string) :
  let d := renderDashboard st fromDate toDate in
  let kept := fun dt : option string => negb (outsideBounds fromDate toDate dt) in
  StronglySorted strLt (sellLabels d)
  /\ (forall l, In l (sellLabels d)
        <-> exists e, In e (sellEntries st) /\ kept (se_date e) = true
                      /\ monthKey (se_date e) = l)
  /\ List.length (fiscalVals d) = List.length (sellLabels d)
  /\ List.length (nonFiscalVals d) = List.length (sellLabels d)
  /\ (forall i l, nth_error (sellLabels d) i = Some l ->
        nth i (fiscalVals d) 0%Qc
        = sumOver (fun e => parseNumber (se_amount e))
            (filter (fun e => kept (se_date e) && eq_field (se_type e) "fiscal"
                              && (monthKey (se_date e) =? l)%string) (sellEntries st))
        /\ nth i (nonFiscalVals d) 0%Qc
           = sumOver (fun e => parseNumber (se_amount e))
               (filter (fun e => kept (se_date e) && negb (eq_field (se_type e) "fiscal")
                                 && (monthKey (se_date e) =? l)%string) (sellEntries st)))
  /\ StronglySorted strLt (expLabels d)
  /\ (forall l, In l (expLabels d)
        <-> (exists inv, In inv (invoices st) /\ kept (invoiceDate inv) = true
                         /\ monthKey (invoiceDate inv) = l)
            \/ (exists e, In e (otherExpenses st) /\ kept (oe_date e) = true
                          /\ monthKey (oe_date e) = l))
  /\ List.length (purchaseVals d) = List.length (expLabels d)
  /\ List.length (expenseVals d) = List.length (expLabels d)
  /\ (forall i l, nth_error (expLabels d) i = Some l ->
        nth i (purchaseVals d) 0%Qc
        = sumOver (fun inv => computeInvoiceTotal (items inv))
            (filter (fun inv => kept (invoiceDate inv)
                                && (monthKey (invoiceDate inv) =? l)%string) (invoices st))
        /\ nth i (expenseVals d) 0%Qc
           = sumOver (fun e => parseNumber (oe_amount e))
               (filter (fun e => kept (oe_date e)
                                 && (monthKey (oe_date e) =? l)%string) (otherExpenses st))).
Proof.
  intros d kept.
  destruct (sell_chart st fromDate toDate) as (Hl & Hf & Hn).
  destruct (expenses_chart st fromDate toDate) as (Hl' & Hp & He).
  fold d in Hl, Hf, Hn, Hl', Hp, He.
  split; [rewrite Hl; apply sorted_pairAligned|].
  split.
  { intros l. rewrite Hl, In_pairAligned, !In_keys_groupFold. split.
    - intros [(e & H1 & H2 & H3)|(e & H1 & H2 & H3)]; exists e;
        (split; [exact H1|]); (split; [|exact H3]);
        apply andb_prop in H2; apply H2.
    - intros (e & H1 & H2 & H3).
      destruct (eq_field (se_type e) "fiscal") eqn:E; [left|right]; exists e;
        (split; [exact H1|]); (split; [|exact H3]);
        unfold fiscalKept, nonFiscalKept; fold (kept (se_date e)); rewrite H2, E; reflexivity. }
  split; [rewrite Hf; apply length_map|].
  split; [rewrite Hn; apply length_map|].
  split.
  { intros i l Hi. rewrite Hf, Hn, !(nth_map_getOrZero _ _ _ Hi), !getOrZero_groupFold.
    split; reflexivity. }
  split; [rewrite Hl'; apply sorted_pairAligned|].
  split.
  { intros l. rewrite Hl', In_pairAligned, !In_keys_groupFold. reflexivity. }
  split; [rewrite Hp; apply length_map|].
  split; [rewrite He; apply length_map|].
  intros i l Hi. rewrite Hp, He, !(nth_map_getOrZero _ _ _ Hi), !getOrZero_groupFold.
  split; reflexivity.
Qed.




(** ** The expense rows of the Profit & Loss table, cell by cell *)

Section ExpenseCells.
Context {host : Host}.
Variables (st : State) (year : Z).

Local Abbreviation ts := (expenseTypes st).
Local Abbreviation ier := (snd (invoiceRows year (invoices st))).
Local Abbreviation month := (fun e : OtherExpense => getMonth (oe_date e)).
Local Abbreviation amount := (fun e : OtherExpense => parseNumber (oe_amount e)).
Local Abbreviation invoiceMonth := (fun inv : Invoice => getMonth (invoiceDate inv)).

Lemma seededRows_shape (k : string) :
  Js.get (seededRows ts ier) k
  = if set_has (Js.values (typeById ts)) k then Some initRow
    else if (k =? "Invoice Expenses") && existsb (otherOfYear year) (invoices st)
         then Some (bucketFold (otherOfYear year) invoiceMonth invoiceTotal (invoices st) initRow)
         else None.
Proof.
  unfold seededRows. rewrite get_seedFold.
  destruct (set_has (Js.values (typeById ts)) k); [reflexivity|].
  rewrite invoiceExpenseRows_shape.
  destruct (existsb (otherOfYear year) (invoices st)); simpl.
  - rewrite String.eqb_sym, andb_true_r. reflexivity.
  - rewrite andb_false_r. reflexivity.
Qed.

Lemma seeded_row (k : string) :
  rowOrFresh (seededRows ts ier) k
  = if (k =? "Invoice Expenses") && negb (declaresInvoiceExpenses ts)
    then bucketFold (otherOfYear year) invoiceMonth invoiceTotal (invoices st) initRow
    else initRow.
Proof.
  unfold rowOrFresh, declaresInvoiceExpenses. rewrite seededRows_shape.
  destruct (String.eqb_spec k "Invoice Expenses") as [->|Hk]; simpl.
  - destruct (set_has (Js.values (typeById ts)) "Invoice Expenses"); simpl; [reflexivity|].
    destruct (existsb (otherOfYear year) (invoices st)) eqn:E; [reflexivity|].
    symmetry. apply bucketFold_none, E.
  - destruct (set_has (Js.values (typeById ts)) k); reflexivity.
Qed.

Lemma length_seeded_row (k : string) : List.length (rowOrFresh (seededRows ts ier) k) = 12.
Proof.
  rewrite seeded_row.
  destruct ((k =? "Invoice Expenses") && negb (declaresInvoiceExpenses ts));
    [apply length_bucketFold|reflexivity].
Qed.

Lemma monthSum_none (A : Type) (keep : A -> bool) (idx : A -> option nat)
  (val : A -> Qc) (m : nat) (l : list A) :
  existsb keep l = false -> monthSum keep idx val m l = 0%Qc.
Proof.
  intros H. unfold monthSum. apply sumOver_zero. intros a Ha.
  apply filter_In in Ha. destruct Ha as [Hin Hk]. apply andb_prop in Hk.
  exfalso. assert (Hex : existsb keep l = true)
    by (apply existsb_exists; exists a; split; [exact Hin|apply Hk]).
  congruence.
Qed.

End ExpenseCells.

Lemma expense_cell (host : Host) (st : State) (year : Z) (k : string) (m : nat) :
  m < 12 ->
  nth m (rowOrFresh (expenseRows (calcPLForYear st year)) k) 0%Qc
  = ((if (k =? "Invoice Expenses") && negb (declaresInvoiceExpenses (expenseTypes st))
      then monthSum (otherOfYear year) (fun inv => getMonth (invoiceDate inv))
             invoiceTotal m (invoices st)
      else 0)
     + monthSum (expenseOfRow year (expenseTypes st) k) (fun e => getMonth (oe_date e))
         (fun e => parseNumber (oe_amount e)) m (otherExpenses st))%Qc.
Proof.
  intros Hm.
  assert (Hseed : nth m (rowOrFresh (seededRows (expenseTypes st) (snd (invoiceRows year (invoices st)))) k) 0%Qc
                  = if (k =? "Invoice Expenses") && negb (declaresInvoiceExpenses (expenseTypes st))
                    then monthSum (otherOfYear year) (fun inv => getMonth (invoiceDate inv))
                           invoiceTotal m (invoices st)
                    else 0%Qc).
  { rewrite seeded_row.
    destruct ((k =? "Invoice Expenses") && negb (declaresInvoiceExpenses (expenseTypes st))).
    - rewrite nth_bucketFold by exact Hm. rewrite nth_initRow. apply Qcplus_0_l.
    - apply nth_initRow. }
  rewrite <- Hseed. unfold rowOrFresh at 1.
  destruct (calcPL_fields st year) as (_ & _ & -> & _). rewrite get_expenseFold.
  destruct (Js.has (seededRows (expenseTypes st) (snd (invoiceRows year (invoices st)))) k || existsb (expenseOfRow year (expenseTypes st) k) (otherExpenses st))
    eqn:E.
  - apply nth_bucketFold. rewrite length_seeded_row. exact Hm.
  - apply orb_false_elim in E. destruct E as [Hhas Hex].
    rewrite (monthSum_none _ (fun e => getMonth (oe_date e))
               (fun e => parseNumber (oe_amount e)) m _ Hex).
    unfold rowOrFresh. unfold Js.has in Hhas.
    destruct (Js.get (seededRows (expenseTypes st) (snd (invoiceRows year (invoices st)))) k); [discriminate|]. ring.
Qed.

(** X4.  A cell of an expense row of the Profit & Loss table.  At a
    month index below 12 the row of a name holds the sum of the amounts of
    the other expenses of the year that resolve to this name and fall on
    the month; the row "Invoice Expenses" holds, besides, the totals of the
    year's invoices that are not product invoices, unless the catalogue
    declares an expense type of this very name: the invoice amounts are
    then overwritten and appear nowhere in the table. *)
Theorem pl_expense_row_cells (host : Host) (st : State) (year : Z) (k : string) (m : nat) :
  m < 12 ->
  nth m (rowOrFresh (expenseRows (calcPLForYear st year)) k) 0%Qc
  = ((if (k =? "Invoice Expenses") && negb (declaresInvoiceExpenses (expenseTypes st))
      then monthSum (otherOfYear year) (fun inv => getMonth (invoiceDate inv))
             invoiceTotal m (invoices st)
      else 0)
     + monthSum (expenseOfRow year (expenseTypes st) k) (fun e => getMonth (oe_date e))
         (fun e => parseNumber (oe_amount e)) m (otherExpenses st))%Qc.
Proof. intros Hm. apply expense_cell, Hm. Qed.

Lemma pl_expense_row_cells_witness :
  1 < 12
  /\ nth 1 (rowOrFresh (expenseRows (calcPLForYear (host := utcHost) scenario 2024)) "Rent") 0%Qc
     = ((if ("Rent" =? "Invoice Expenses")
            && negb (declaresInvoiceExpenses (expenseTypes scenario))
         then monthSum (otherOfYear 2024)
                (fun inv => getMonth (host := utcHost) (invoiceDate inv))
                (invoiceTotal (host := utcHost)) 1 (invoices scenario)
         else 0)
        + monthSum (expenseOfRow 2024 (expenseTypes scenario) "Rent")
            (fun e => getMonth (host := utcHost) (oe_date e))
            (fun e => parseNumber (host := utcHost) (oe_amount e)) 1
            (otherExpenses scenario))%Qc.
Proof.
  assert (H : 1 < 12) by lia.
  split; [exact H|]. exact (@pl_expense_row_cells utcHost scenario 2024 "Rent" 1 H).
Defined.

(** ** The full-year figures of the Profit & Loss table *)

Lemma sumList_addRow (r : Row) (k : nat) (s0 : Row) :
  k + List.length r <= List.length s0 ->
  sumList (fold_left (fun s iv => add_at (fst iv) (snd iv) s)
             (combine (seq k (List.length r)) r) s0)
  = (sumList s0 + sumList r)%Qc.
Proof.
  revert k s0; induction r as [|x r IH]; intros k s0 Hk; simpl; [ring|].
  simpl in Hk. rewrite IH by (rewrite length_add_at; lia).
  rewrite sumList_add_at by lia. ring.
Qed.

Lemma sumList_sumCols (rows : list Row) :
  Forall (fun r => List.length r = 12) rows -> sumList (sumCols rows) = sumOver sumList rows.
Proof.
  unfold sumCols, sumOver. rewrite <- (Qcplus_0_l (sumList (List.map sumList rows))).
  rewrite <- sumList_initRow. generalize initRow length_initRow.
  induction rows as [|r rows IH]; intros s0 Hs Hrows; simpl; [ring|].
  inversion Hrows as [|? ? Hr Hrows']; subst.
  rewrite IH; [|rewrite length_addRow; exact Hs|exact Hrows'].
  unfold indexed. rewrite sumList_addRow by (rewrite Hr, Hs; simpl; lia). ring.
Qed.

Lemma sumList_pointwise_sub (c a b : list Qc) :
  List.length a = List.length c -> List.length b = List.length c ->
  (forall m, m < List.length c -> nth m c 0%Qc = (nth m a 0 - nth m b 0)%Qc) ->
  sumList c = (sumList a - sumList b)%Qc.
Proof.
  revert a b; induction c as [|z c IH]; intros a b Ha Hb H.
  - destruct a; [|discriminate]. destruct b; [|discriminate]. simpl. ring.
  - destruct a as [|x a]; [discriminate|]. destruct b as [|y b]; [discriminate|].
    simpl in *. rewrite (IH a b) by
      (try lia; intros m Hm; apply (H (S m)); lia).
    rewrite (H 0) by lia. ring.
Qed.

Lemma mapTotal_set (rows : Js.map Row) (k : string) (r : Row) :
  mapTotal (Js.set rows k r)
  = (mapTotal rows
     - match Js.get rows k with
       | Some r0 => sumList r0
       | None => 0
       end
     + sumList r)%Qc.
Proof.
  unfold mapTotal, sumOver, Js.values. induction rows as [|[k0 r0] rows IH]; simpl.
  - ring.
  - destruct (k0 =? k); simpl; [ring|]. rewrite IH. ring.
Qed.

Lemma mapTotal_modify (rows : Js.map Row) (k : string) (f : Row -> Row) :
  mapTotal (Js.modify rows k f)
  = (mapTotal rows
     + match Js.get rows k with
       | Some r0 => sumList (f r0) - sumList r0
       | None => 0
       end)%Qc.
Proof.
  unfold mapTotal, sumOver, Js.values. induction rows as [|[k0 r0] rows IH]; simpl.
  - ring.
  - destruct (k0 =? k); simpl; [ring|]. rewrite IH. ring.
Qed.

Lemma get_twelveWide (rows : Js.map Row) (k : string) (r : Row) :
  twelveWide rows -> Js.get rows k = Some r -> List.length r = 12.
Proof.
  unfold twelveWide. rewrite Forall_forall. intros H Hk. apply H.
  exact (get_In_values _ _ Hk).
Qed.

Section FullYear.
Context {host : Host}.
Variables (st : State) (year : Z).

Local Abbreviation ts := (expenseTypes st).
Local Abbreviation ier := (snd (invoiceRows year (invoices st))).

Lemma mapTotal_expenseStep (rows : Js.map Row) (e : OtherExpense) :
  twelveWide rows ->
  (inYear year (oe_date e) = true -> exists i, getMonth (oe_date e) = Some i /\ i < 12) ->
  twelveWide (expenseStep year ts rows e)
  /\ mapTotal (expenseStep year ts rows e)
     = (mapTotal rows + if inYear year (oe_date e) then parseNumber (oe_amount e) else 0)%Qc.
Proof.
  intros Hw Hidx. unfold expenseStep. rewrite outsideYear_inYear.
  destruct (inYear year (oe_date e)); simpl; [|split; [exact Hw|ring]].
  destruct (Hidx eq_refl) as (i & Hi & Hlt). rewrite Hi.
  set (name := expenseName ts e).
  set (rows' := if negb (Js.has rows name) then Js.set rows name initRow else rows).
  assert (Hw' : twelveWide rows').
  { unfold rows'. destruct (Js.has rows name); simpl; [exact Hw|].
    apply twelveWide_set; [exact Hw|reflexivity]. }
  assert (Ht' : mapTotal rows' = mapTotal rows).
  { unfold rows'. unfold Js.has. destruct (Js.get rows name) eqn:E; simpl; [reflexivity|].
    rewrite mapTotal_set, E, sumList_initRow. ring. }
  assert (Hget : exists r0, Js.get rows' name = Some r0).
  { unfold rows'. unfold Js.has. destruct (Js.get rows name) eqn:E; simpl.
    - exists r. exact E.
    - exists initRow. apply get_set_eq. }
  destruct Hget as (r0 & Hr0). split.
  - apply twelveWide_modify; [|exact Hw']. intros r. apply length_add_at.
  - rewrite mapTotal_modify, Hr0, Ht'. simpl.
    rewrite sumList_add_at by (rewrite (get_twelveWide _ Hw' Hr0); exact Hlt). ring.
Qed.

Lemma mapTotal_expenseFold (exps : list OtherExpense) (rows : Js.map Row) :
  twelveWide rows ->
  (forall e, In e exps -> calendarField (oe_date e)) ->
  mapTotal (fold_left (expenseStep year ts) exps rows)
  = (mapTotal rows
     + sumOver (fun e => parseNumber (oe_amount e))
         (filter (fun e => inYear year (oe_date e)) exps))%Qc.
Proof.
  unfold sumOver. revert rows; induction exps as [|e exps IH]; intros rows Hw Hdates; simpl;
    [ring|].
  destruct (@mapTotal_expenseStep rows e Hw) as (Hw' & Ht).
  { intros _. apply getMonth_calendar, Hdates. left; reflexivity. }
  rewrite IH; [|exact Hw'|intros x Hx; apply Hdates; right; exact Hx].
  rewrite Ht. destruct (inYear year (oe_date e)); simpl; ring.
Qed.

(** Seeding a row for every declared name clears the invoice row when a
    name collides with it, and adds empty rows otherwise. *)
Lemma seed_head (names : list string) (k0 : string) (r0 : Row) (zs : Js.map Row) :
  Forall (fun r => r = initRow) (Js.values zs) ->
  exists zs',
    fold_left (fun rows name => Js.set rows name initRow) names ((k0, r0) :: zs)
    = (k0, if set_has names k0 then initRow else r0) :: zs'
    /\ Forall (fun r => r = initRow) (Js.values zs').
Proof.
  unfold set_has. revert r0 zs; induction names as [|n names IH]; intros r0 zs Hz; simpl.
  - exists zs. split; [reflexivity|exact Hz].
  - rewrite (String.eqb_sym n k0). destruct (k0 =? n); simpl.
    + destruct (IH initRow zs Hz) as (zs' & -> & Hz'). exists zs'. split; [|exact Hz'].
      destruct (existsb (fun y => y =? k0) names); reflexivity.
    + apply IH. clear IH. unfold Js.values in *.
      induction zs as [|[k1 r1] zs IHz]; simpl.
      * constructor; [reflexivity|constructor].
      * inversion Hz; subst. destruct (k1 =? n); simpl; constructor; auto.
Qed.

Lemma seed_empty (names : list string) (zs : Js.map Row) :
  Forall (fun r => r = initRow) (Js.values zs) ->
  Forall (fun r => r = initRow)
    (Js.values (fold_left (fun rows name => Js.set rows name initRow) names zs)).
Proof.
  revert zs; induction names as [|n names IH]; intros zs Hz; simpl; [exact Hz|].
  apply IH. unfold Js.values in *.
  induction zs as [|[k1 r1] zs IHz]; simpl.
  - constructor; [reflexivity|constructor].
  - inversion Hz; subst. destruct (k1 =? n); simpl; constructor; auto.
Qed.

Lemma mapTotal_zero (zs : Js.map Row) :
  Forall (fun r => r = initRow) (Js.values zs) -> mapTotal zs = 0%Qc.
Proof.
  unfold mapTotal. intros H. apply sumOver_zero. rewrite Forall_forall in H.
  intros r Hr. rewrite (H r Hr). apply sumList_initRow.
Qed.

Lemma mapTotal_seededRows :
  (forall inv, In inv (invoices st) -> calendarField (invoiceDate inv)) ->
  mapTotal (seededRows ts ier)
  = if declaresInvoiceExpenses ts then 0%Qc
    else sumOver invoiceTotal (filter (otherOfYear year) (invoices st)).
Proof.
  intros Hdates. unfold seededRows, declaresInvoiceExpenses.
  rewrite invoiceExpenseRows_shape.
  destruct (existsb (otherOfYear year) (invoices st)) eqn:E.
  - destruct (@seed_head (Js.values (typeById ts)) "Invoice Expenses"
                (bucketFold (otherOfYear year) (fun inv => getMonth (invoiceDate inv))
                   invoiceTotal (invoices st) initRow) []) as (zs' & -> & Hz); [constructor|].
    unfold mapTotal, sumOver. simpl. fold (sumOver sumList (Js.values zs')).
    fold (mapTotal zs'). rewrite (mapTotal_zero _ Hz).
    destruct (set_has (Js.values (typeById ts)) "Invoice Expenses").
    + rewrite sumList_initRow. ring.
    + rewrite sumList_bucketFold.
      * rewrite sumList_initRow. unfold sumOver. ring.
      * intros inv Hin _. rewrite length_initRow. apply getMonth_calendar, Hdates, Hin.
  - rewrite mapTotal_zero by (apply seed_empty; constructor).
    destruct (set_has (Js.values (typeById ts)) "Invoice Expenses"); [reflexivity|].
    symmetry. apply sumOver_zero. intros inv Hinv. apply filter_In in Hinv.
    exfalso. assert (Hex : existsb (otherOfYear year) (invoices st) = true)
      by (apply existsb_exists; exists inv; exact Hinv).
    congruence.
Qed.

Lemma twelveWide_seededRows : twelveWide (seededRows ts ier).
Proof.
  unfold twelveWide. apply Forall_forall. intros r Hr.
  unfold Js.values in Hr. apply in_map_iff in Hr. destruct Hr as ([k r'] & <- & Hkr).
  simpl.
  assert (Hall : forall names rows, twelveWide rows ->
            twelveWide (fold_left (fun rows name => Js.set rows name initRow) names rows)).
  { induction names as [|n names IH]; intros rows Hrows; simpl; [exact Hrows|].
    apply IH, twelveWide_set; [exact Hrows|reflexivity]. }
  specialize (Hall (Js.values (typeById ts)) ier (twelveWide_invoiceExpenseRows st year)).
  unfold twelveWide in Hall. rewrite Forall_forall in Hall. apply Hall.
  unfold Js.values. apply in_map_iff. exists (k, r'). split; [reflexivity|exact Hkr].
Qed.

Lemma operating_total :
  (forall inv, In inv (invoices st) -> calendarField (invoiceDate inv)) ->
  (forall e, In e (otherExpenses st) -> calendarField (oe_date e)) ->
  sumList (otherExpensesSum (calcPLForYear st year))
  = ((if declaresInvoiceExpenses ts then 0
      else sumOver invoiceTotal (filter (otherOfYear year) (invoices st)))
     + sumOver (fun e => parseNumber (oe_amount e))
         (filter (fun e => inYear year (oe_date e)) (otherExpenses st)))%Qc.
Proof.
  intros Hinv Hexp.
  destruct (calcPL_fields st year) as (_ & _ & Hrows & _ & -> & _).
  rewrite sumList_sumCols by apply twelveWide_expenseRows.
  fold (mapTotal (expenseRows (calcPLForYear st year))).
  rewrite Hrows, mapTotal_expenseFold by (try apply twelveWide_seededRows; exact Hexp).
  rewrite mapTotal_seededRows by exact Hinv. reflexivity.
Qed.

End FullYear.



(** ** The year filter *)

Lemma forDigits_spec (p : nat -> nat -> nat -> nat -> bool) :
  forDigits p = true ->
  forall a b c d, a < 10 -> b < 10 -> c < 10 -> d < 10 -> p a b c d = true.
Proof.
  unfold forDigits. intros H a b c d Ha Hb Hc Hd.
  rewrite forallb_forall in H. specialize (H a). rewrite in_seq in H.
  assert (H1 := H ltac:(lia)). clear H.
  rewrite forallb_forall in H1. specialize (H1 b). rewrite in_seq in H1.
  assert (H2 := H1 ltac:(lia)). clear H1.
  rewrite forallb_forall in H2. specialize (H2 c). rewrite in_seq in H2.
  assert (H3 := H2 ltac:(lia)). clear H2.
  rewrite forallb_forall in H3. apply H3. rewrite in_seq. lia.
Qed.

Lemma digit_inv (c : ascii) (n : nat) : digit c = Some n -> c = digitChar n /\ n < 10.
Proof.
  unfold digit, digitChar. destruct ((48 <=? nat_of_ascii c) && (nat_of_ascii c <=? 57))%nat eqn:E;
    [|discriminate].
  intros H; inversion H; subst. apply andb_prop in E. destruct E as [E1 E2].
  apply Nat.leb_le in E1, E2.
  replace (48 + (nat_of_ascii c - 48)) with (nat_of_ascii c) by lia.
  rewrite ascii_nat_embedding. split; [reflexivity|lia].
Qed.

Lemma match_dash (A : Type) (c : ascii) (x y : A) :
  match c with
  | "-"%char => x
  | _ => y
  end = if Ascii.eqb c "-" then x else y.
Proof. destruct c as [[] [] [] [] [] [] [] []]; reflexivity. Qed.

Lemma dateFields_shape (s : string) (y m d : nat) :
  dateFields s = Some (y, m, d) ->
  exists a b c d' e f g h,
    s = (fourDigits a b c d' ++ monthDayText e f g h)%string
    /\ a < 10 /\ b < 10 /\ c < 10 /\ d' < 10 /\ e < 10 /\ f < 10 /\ g < 10 /\ h < 10
    /\ y = 1000 * a + 100 * b + 10 * c + d' /\ m = 10 * e + f /\ d = 10 * g + h.
Proof.
  unfold dateFields.
  destruct s as [|y1 [|y2 [|y3 [|y4 [|s1 [|m1 [|m2 [|s2 [|d1 [|d2 [|x s]]]]]]]]]]];
    try discriminate;
    rewrite match_dash; (destruct (Ascii.eqb_spec s1 "-") as [->|]; [|discriminate]);
    try discriminate;
    rewrite match_dash; (destruct (Ascii.eqb_spec s2 "-") as [->|]; [|discriminate]);
    try discriminate.
  destruct (digit y1) as [a|] eqn:Ea; [|discriminate].
  destruct (digit y2) as [b|] eqn:Eb; [|discriminate].
  destruct (digit y3) as [c|] eqn:Ec; [|discriminate].
  destruct (digit y4) as [d'|] eqn:Ed; [|discriminate].
  destruct (digit m1) as [e|] eqn:Ee; [|discriminate].
  destruct (digit m2) as [f|] eqn:Ef; [|discriminate].
  destruct (digit d1) as [g|] eqn:Eg; [|discriminate].
  destruct (digit d2) as [h|] eqn:Eh; [|discriminate].
  intros H; inversion H; subst.
  apply digit_inv in Ea, Eb, Ec, Ed, Ee, Ef, Eg, Eh.
  destruct Ea as [-> ?], Eb as [-> ?], Ec as [-> ?], Ed as [-> ?],
           Ee as [-> ?], Ef as [-> ?], Eg as [-> ?], Eh as [-> ?].
  exists a, b, c, d', e, f, g, h. repeat split; try assumption.
Qed.

Lemma string_of_four_digits :
  forDigits (fun a b c d =>
    (a =? 0)%nat
    || (string_of_Z (1000 * Z.of_nat a + 100 * Z.of_nat b + 10 * Z.of_nat c + Z.of_nat d)
        =? fourDigits a b c d)%string)
  = true.
Proof. vm_compute. reflexivity. Qed.

Lemma month_day_within :
  forDigits (fun e f g h =>
    negb ((1 <=? 10 * e + f) && (10 * e + f <=? 12)
          && (1 <=? 10 * g + h) && (10 * g + h <=? 31))%nat
    || (negb (String.ltb (monthDayText e f g h) "-01-01")
        && negb (String.ltb "-12-31" (monthDayText e f g h))))
  = true.
Proof. vm_compute. reflexivity. Qed.

Lemma digitChar_inj (n n' : nat) : n < 10 -> n' < 10 -> digitChar n = digitChar n' -> n = n'.
Proof.
  unfold digitChar. intros Hn Hn' H. apply (f_equal nat_of_ascii) in H.
  rewrite !nat_ascii_embedding in H by lia. lia.
Qed.

Lemma compare_four_app (a b c d a' b' c' d' : ascii) (x z : string) :
  String.compare (String a (String b (String c (String d x))))
                 (String a' (String b' (String c' (String d' z))))
  = match String.compare (String a (String b (String c (String d EmptyString))))
                         (String a' (String b' (String c' (String d' EmptyString)))) with
    | Eq => String.compare x z
    | r => r
    end.
Proof.
  simpl. destruct (Ascii.compare a a'), (Ascii.compare b b'), (Ascii.compare c c'),
           (Ascii.compare d d'); reflexivity.
Qed.

Lemma daysInMonth_le_31 (y m : nat) : daysInMonth y m <= 31.
Proof.
  unfold daysInMonth. destruct (isLeap y);
    do 12 (destruct m as [|m]; [lia|]); lia.
Qed.

Lemma four_digits_of_year (year : Z) :
  (1000 <= year <= 9999)%Z ->
  exists a b c d, 1 <= a < 10 /\ b < 10 /\ c < 10 /\ d < 10
    /\ year = (1000 * Z.of_nat a + 100 * Z.of_nat b + 10 * Z.of_nat c + Z.of_nat d)%Z.
Proof.
  intros Hy.
  exists (Z.to_nat (year / 1000)), (Z.to_nat ((year / 100) mod 10)),
         (Z.to_nat ((year / 10) mod 10)), (Z.to_nat (year mod 10)).
  rewrite !Z2Nat.id by (Z.div_mod_to_equations; lia).
  repeat split; try (Z.div_mod_to_equations; lia).
Qed.

Lemma four_app (a b c d : nat) (x : string) :
  (fourDigits a b c d ++ x)%string
  = String (digitChar a) (String (digitChar b) (String (digitChar c) (String (digitChar d) x))).
Proof. reflexivity. Qed.

Lemma compare_refl_eq (s : string) : String.compare s s = Eq.
Proof. apply OrderedTypeEx.String_as_OT.cmp_eq. reflexivity. Qed.

Lemma outsideYear_calendar (year : Z) (s : string) (y m d : nat) :
  (1000 <= year <= 9999)%Z ->
  parseCalendarDate s = Some (y, m, d) ->
  outsideYear year (Some s) = negb (Z.of_nat y =? year)%Z.
Proof.
  intros Hyear Hs. unfold parseCalendarDate in Hs.
  destruct (dateFields s) as [[[y0 m0] d0]|] eqn:Ef; [|discriminate].
  destruct (isCalendarDay y0 m0 d0) eqn:Ec; [|discriminate].
  inversion Hs; subst y0 m0 d0. clear Hs.
  destruct (dateFields_shape _ Ef)
    as (a & b & c & d' & e & f & g & h & -> & Ha & Hb & Hc & Hd & He & Hf & Hg & Hh
        & Hy & Hm & Hdd).
  destruct (four_digits_of_year Hyear) as (a0 & b0 & c0 & d0 & Ha0 & Hb0 & Hc0 & Hd0 & Hz).
  assert (HY : string_of_Z year = fourDigits a0 b0 c0 d0).
  { generalize (@forDigits_spec _ string_of_four_digits a0 b0 c0 d0
                  ltac:(lia) Hb0 Hc0 Hd0).
    cbv beta. rewrite <- Hz. destruct (Nat.eqb_spec a0 0); [lia|].
    rewrite orb_false_l. apply String.eqb_eq. }
  assert (Hmd : String.ltb (monthDayText e f g h) "-01-01" = false
                /\ String.ltb "-12-31" (monthDayText e f g h) = false).
  { generalize (@forDigits_spec _ month_day_within e f g h He Hf Hg Hh).
    cbv beta. unfold isCalendarDay in Ec. rewrite <- Hm, <- Hdd.
    assert (Hdays : (d <=? 31)%nat = true).
    { apply Nat.leb_le. apply andb_prop in Ec. destruct Ec as [_ Ec].
      apply Nat.leb_le in Ec. generalize (daysInMonth_le_31 y m). lia. }
    apply andb_prop in Ec. destruct Ec as [Ec _]. rewrite Ec, Hdays.
    cbn [negb orb andb].
    intros H. apply andb_prop in H. destruct H as [H1 H2].
    apply negb_true_iff in H1, H2. split; assumption. }
  destruct Hmd as [Hlow Hhigh].
  assert (Heq : fourDigits a b c d' = fourDigits a0 b0 c0 d0 <-> Z.of_nat y = year).
  { split.
    - intros H. unfold fourDigits in H. inversion H as [[H1 H2 H3 H4]].
      apply digitChar_inj in H1, H2, H3, H4; lia.
    - intros H. assert (H0 : a = a0 /\ b = b0 /\ c = c0 /\ d' = d0) by lia.
      destruct H0 as (-> & -> & -> & ->). reflexivity. }
  unfold outsideYear, yearStart, yearEnd. rewrite HY, !four_app.
  unfold truthy_field, lt_field, gt_field, String.ltb in *.
  change (String (digitChar a) (String (digitChar b) (String (digitChar c)
            (String (digitChar d') (monthDayText e f g h)))) =? "")%string with false.
  cbn [negb orb].
  rewrite (compare_four_app _ _ _ _ _ _ _ _ (monthDayText e f g h) "-01-01").
  rewrite (compare_four_app _ _ _ _ _ _ _ _ "-12-31" (monthDayText e f g h)).
  fold (fourDigits a b c d') (fourDigits a0 b0 c0 d0).
  rewrite (String.compare_antisym (fourDigits a0 b0 c0 d0) (fourDigits a b c d')).
  destruct (String.compare (fourDigits a b c d') (fourDigits a0 b0 c0 d0)) eqn:Ecmp;
    cbn [CompOpp].
  - apply OrderedTypeEx.String_as_OT.cmp_eq in Ecmp. apply Heq in Ecmp.
    apply Z.eqb_eq in Ecmp. rewrite Ecmp, Hlow, Hhigh. reflexivity.
  - destruct (Z.eqb_spec (Z.of_nat y) year) as [E|E]; [|reflexivity].
    apply Heq in E. rewrite E, compare_refl_eq in Ecmp. discriminate.
  - destruct (Z.eqb_spec (Z.of_nat y) year) as [E|E]; [|reflexivity].
    apply Heq in E. rewrite E, compare_refl_eq in Ecmp. discriminate.
Qed.

(** X6.  The year filter of the Profit & Loss table selects by text.
    For a year from 1000 to 9999 it agrees with the calendar: a record
    whose date is a zero-padded calendar date is skipped exactly when the
    year of its date is another one. *)
Theorem year_filter_calendar_year (year : Z) (s : string) (y m d : nat) :
  (1000 <= year <= 9999)%Z ->
  parseCalendarDate s = Some (y, m, d) ->
  outsideYear year (Some s) = negb (Z.of_nat y =? year)%Z.
Proof. apply outsideYear_calendar. Qed.

Lemma year_filter_calendar_year_witness :
  outsideYear 2024 (Some "2023-12-31") = true
  /\ outsideYear 2024 (Some "2024-02-29") = false.
Proof.
  split.
  - apply (@year_filter_calendar_year 2024 "2023-12-31" 2023 12 31); [lia|reflexivity].
  - apply (@year_filter_calendar_year 2024 "2024-02-29" 2024 2 29); [lia|reflexivity].
Defined.

(** ** Escaped text *)

Lemma string_app_assoc (r s t : string) : ((r ++ s) ++ t = r ++ (s ++ t))%string.
Proof. induction r as [|y r IH]; simpl; [reflexivity|]. rewrite IH. reflexivity. Qed.

Lemma replaceAll_app (c : ascii) (r s t : string) :
  replaceAll c r (s ++ t) = (replaceAll c r s ++ replaceAll c r t)%string.
Proof.
  induction s as [|x s IH]; [reflexivity|].
  change (String x s ++ t)%string with (String x (s ++ t)). cbn [replaceAll].
  rewrite IH. destruct (Ascii.eqb x c); [|reflexivity].
  symmetry. apply string_app_assoc.
Qed.

Lemma replaceAll_cons_eq (c : ascii) (r s : string) :
  replaceAll c r (String c s) = (r ++ replaceAll c r s)%string.
Proof. simpl. rewrite Ascii.eqb_refl. reflexivity. Qed.

Lemma replaceAll_cons_ne (c x : ascii) (r s : string) :
  x <> c -> replaceAll c r (String x s) = String x (replaceAll c r s).
Proof. intros H. simpl. apply Ascii.eqb_neq in H. rewrite H. reflexivity. Qed.

Lemma escapeChar_plain (x : ascii) :
  x <> "&"%char -> x <> "<"%char -> x <> ">"%char -> x <> dquote -> x <> "'"%char ->
  escapeChar x = String x "".
Proof.
  intros H1 H2 H3 H4 H5. unfold escapeChar.
  apply Ascii.eqb_neq in H1, H2, H3, H4, H5. rewrite H1, H2, H3, H4, H5. reflexivity.
Qed.

Lemma escapeHtml_cons (x : ascii) (s : string) :
  escapeHtml (Some (String x s)) = (escapeChar x ++ escapeHtml (Some s))%string.
Proof.
  unfold escapeHtml, orEmpty.
  destruct (ascii_dec x "&") as [->|H1].
  { rewrite replaceAll_cons_eq, !replaceAll_app. reflexivity. }
  rewrite (replaceAll_cons_ne _ _ H1).
  destruct (ascii_dec x "<") as [->|H2].
  { rewrite replaceAll_cons_eq, !replaceAll_app. reflexivity. }
  rewrite (replaceAll_cons_ne _ _ H2).
  destruct (ascii_dec x ">") as [->|H3].
  { rewrite replaceAll_cons_eq, !replaceAll_app. reflexivity. }
  rewrite (replaceAll_cons_ne _ _ H3).
  destruct (ascii_dec x dquote) as [->|H4].
  { rewrite replaceAll_cons_eq, !replaceAll_app. reflexivity. }
  rewrite (replaceAll_cons_ne _ _ H4).
  destruct (ascii_dec x "'") as [->|H5].
  { rewrite replaceAll_cons_eq. reflexivity. }
  rewrite (replaceAll_cons_ne _ _ H5), escapeChar_plain by assumption. reflexivity.
Qed.

Lemma escapeHtml_text (s : string) : escapeHtml (Some s) = escapeText s.
Proof.
  induction s as [|x s IH]; [reflexivity|].
  rewrite escapeHtml_cons, IH. reflexivity.
Qed.

Lemma chars_app (s t : string) : chars (s ++ t) = (chars s ++ chars t)%list.
Proof. induction s as [|x s IH]; simpl; [reflexivity|]. rewrite IH. reflexivity. Qed.

Lemma escapeChar_cases (x : ascii) :
  (x = "&"%char /\ escapeChar x = "&amp;")
  \/ (x = "<"%char /\ escapeChar x = "&lt;")
  \/ (x = ">"%char /\ escapeChar x = "&gt;")
  \/ (x = dquote /\ escapeChar x = "&quot;")
  \/ (x = "'"%char /\ escapeChar x = "&#039;")
  \/ (x <> "&"%char /\ markup x = false /\ escapeChar x = String x "").
Proof.
  destruct (ascii_dec x "&") as [->|H1]; [left; split; reflexivity|].
  destruct (ascii_dec x "<") as [->|H2]; [right; left; split; reflexivity|].
  destruct (ascii_dec x ">") as [->|H3]; [right; right; left; split; reflexivity|].
  destruct (ascii_dec x dquote) as [->|H4]; [right; right; right; left; split; reflexivity|].
  destruct (ascii_dec x "'") as [->|H5];
    [right; right; right; right; left; split; reflexivity|].
  do 5 right. split; [exact H1|]. split; [|apply escapeChar_plain; assumption].
  unfold markup. apply Ascii.eqb_neq in H2, H3, H4, H5. rewrite H2, H3, H4, H5. reflexivity.
Qed.

Lemma escapeText_no_markup (s : string) :
  forallb (fun c => negb (markup c)) (chars (escapeText s)) = true.
Proof.
  induction s as [|x s IH]; [reflexivity|]. simpl. rewrite chars_app, forallb_app, IH.
  rewrite andb_true_r.
  destruct (escapeChar_cases x) as [[_ ->]|[[_ ->]|[[_ ->]|[[_ ->]|[[_ ->]|(_ & Hm & ->)]]]]];
    try reflexivity.
  simpl. rewrite Hm. reflexivity.
Qed.

Lemma prefix_other (x : ascii) (p s : string) :
  x <> "&"%char -> String.prefix (String "&" p) (String x s) = false.
Proof.
  intros H.
  change (String.prefix (String "&" p) (String x s))
    with (if ascii_dec "&" x then String.prefix p s else false).
  destruct (ascii_dec "&" x) as [E|_]; [|reflexivity].
  exfalso. apply H. symmetry. exact E.
Qed.

Lemma prefix_nil (t : string) : String.prefix "" t = true.
Proof. destruct t; reflexivity. Qed.

Lemma decode_escapeText (s : string) : decodeEntities 0 (escapeText s) = s.
Proof.
  induction s as [|x s IH]; [reflexivity|]. simpl escapeText.
  destruct (escapeChar_cases x)
    as [[-> ->]|[[-> ->]|[[-> ->]|[[-> ->]|[[-> ->]|(Hx & _ & ->)]]]]];
    try (simpl; rewrite prefix_nil, IH; reflexivity).
  change (String x "" ++ escapeText s)%string with (String x (escapeText s)).
  cbn [decodeEntities]. rewrite !prefix_other by exact Hx. rewrite IH. reflexivity.
Qed.

(** X7.  [escapeHtml] makes a text safe to put between tags and inside a
    quoted attribute.  A missing text gives the empty text.  The result
    holds none of the characters <, >, double quote and apostrophe; the
    five passes amount to escaping the text character by character, so the
    ampersand of an entity written by a later pass is not escaped again;
    and a reader that decodes the five entities gets the original text
    back.  Two different texts are therefore never escaped to the same
    text. *)
Theorem escapeHtml_safe_and_lossless (v w : option string) :
  forallb (fun c => negb (markup c)) (chars (escapeHtml v)) = true
  /\ escapeHtml v = escapeText (orEmpty v)
  /\ decodeEntities 0 (escapeHtml v) = orEmpty v
  /\ (escapeHtml v = escapeHtml w -> orEmpty v = orEmpty w).
Proof.
  assert (Htext : forall u, escapeHtml u = escapeText (orEmpty u)).
  { intros [s|]; [apply escapeHtml_text|reflexivity]. }
  split; [rewrite Htext; apply escapeText_no_markup|].
  split; [apply Htext|].
  split; [rewrite Htext; apply decode_escapeText|].
  intros H. rewrite <- (decode_escapeText (orEmpty v)), <- (decode_escapeText (orEmpty w)).
  rewrite <- !Htext, H. reflexivity.
Qed.

(** ** Comma separated text *)

Lemma addText_head (t f : string) (fs : list string) (rs : list (list string)) :
  addText t ((f :: fs) :: rs) = ((t ++ f)%string :: fs) :: rs.
Proof.
  unfold addText. induction t as [|x t IH]; [reflexivity|].
  simpl. rewrite IH. reflexivity.
Qed.

Lemma string_app_nil (s : string) : (s ++ "")%string = s.
Proof. induction s as [|x s IH]; simpl; [reflexivity|]. rewrite IH. reflexivity. Qed.

Lemma readCsv_quoted_body (s tail : string) :
  noQuoteAhead tail ->
  readCsv true (replaceAll dquote (String dquote (String dquote "")) s ++ String dquote tail)
  = addText s (readCsv false tail).
Proof.
  intros Htail. unfold addText. induction s as [|x s IH].
  - simpl. destruct tail as [|c tail]; [reflexivity|].
    simpl in Htail. rewrite Htail. reflexivity.
  - cbn [replaceAll]. destruct (Ascii.eqb x dquote) eqn:E.
    + apply Ascii.eqb_eq in E. subst x.
      change (readCsv true (String dquote (String dquote
                (replaceAll dquote (String dquote (String dquote "")) s ++ String dquote tail)))
              = addChar dquote (fold_right addChar (readCsv false tail) (chars s))).
      cbn [readCsv]. rewrite Ascii.eqb_refl, IH. reflexivity.
    + change (readCsv true (String x
                (replaceAll dquote (String dquote (String dquote "")) s ++ String dquote tail))
              = addChar x (fold_right addChar (readCsv false tail) (chars s))).
      cbn [readCsv]. rewrite E, IH. reflexivity.
Qed.

Lemma readCsv_plain (s tail : string) :
  needsQuotes s = false ->
  readCsv false (s ++ tail) = addText s (readCsv false tail).
Proof.
  unfold addText. induction s as [|x s IH]; intros H; [reflexivity|].
  cbn [needsQuotes] in H. apply orb_false_elim in H. destruct H as [H Hs].
  apply orb_false_elim in H. destruct H as [H Hn].
  apply orb_false_elim in H. destruct H as [Hq Hc].
  change (readCsv false (String x (s ++ tail))
          = addChar x (fold_right addChar (readCsv false tail) (chars s))).
  cbn [readCsv]. rewrite Hq, Hc, Hn, (IH Hs). reflexivity.
Qed.

Lemma readCsv_cell (v : option string) (tail : string) :
  noQuoteAhead tail ->
  readCsv false (csvCell v ++ tail) = addText (orEmpty v) (readCsv false tail).
Proof.
  intros Htail. unfold csvCell. destruct (needsQuotes (orEmpty v)) eqn:E.
  - change (readCsv false (String dquote
              ((replaceAll dquote (String dquote (String dquote "")) (orEmpty v)
                ++ String dquote "") ++ tail))
            = addText (orEmpty v) (readCsv false tail)).
    rewrite string_app_assoc. cbn [readCsv String.append]. rewrite Ascii.eqb_refl.
    apply readCsv_quoted_body, Htail.
  - apply readCsv_plain, E.
Qed.

Lemma readCsv_row (r : list (option string)) (tail : string) (R : list (list string)) :
  r <> [] -> noQuoteAhead tail -> readCsv false tail = [""] :: R ->
  readCsv false (join "," (List.map csvCell r) ++ tail) = List.map orEmpty r :: R.
Proof.
  intros Hr Htail HR. induction r as [|c r IH]; [contradiction|].
  destruct r as [|c' r].
  - simpl. rewrite readCsv_cell by exact Htail.
    rewrite HR, addText_head, string_app_nil. reflexivity.
  - change (join "," (List.map csvCell (c :: c' :: r)))
      with (csvCell c ++ "," ++ join "," (List.map csvCell (c' :: r)))%string.
    rewrite !string_app_assoc.
    rewrite readCsv_cell by reflexivity.
    change (("," ++ join "," (List.map csvCell (c' :: r)) ++ tail)%string)
      with (String "," (join "," (List.map csvCell (c' :: r)) ++ tail)).
    cbn [readCsv]. change (Ascii.eqb "," dquote) with false.
    change (Ascii.eqb "," ",") with true. cbv iota.
    rewrite IH by discriminate. unfold newField.
    rewrite addText_head, string_app_nil. reflexivity.
Qed.

Lemma downloadCsv_round_trip_rows (rows : list (list (option string))) :
  rows <> [] -> Forall (fun r => r <> []) rows ->
  readCsv false (downloadCsv rows) = List.map (List.map orEmpty) rows.
Proof.
  unfold downloadCsv. intros Hrows Hcells.
  induction rows as [|r rows IH]; [contradiction|].
  inversion Hcells as [|? ? Hr Hrest]; subst.
  destruct rows as [|r' rows].
  - simpl. rewrite <- (string_app_nil (join "," (List.map csvCell r))).
    apply readCsv_row; [exact Hr|exact I|reflexivity].
  - change (join (String newline "")
              (List.map (fun r => join "," (List.map csvCell r)) (r :: r' :: rows)))
      with (join "," (List.map csvCell r)
            ++ String newline
                 (join (String newline "")
                    (List.map (fun r => join "," (List.map csvCell r)) (r' :: rows))))%string.
    cbn [List.map]. apply readCsv_row; [exact Hr|reflexivity|].
    cbn [readCsv]. change (Ascii.eqb newline dquote) with false.
    change (Ascii.eqb newline ",") with false. change (Ascii.eqb newline newline) with true.
    cbv iota. unfold newRecord. f_equal. apply IH; [discriminate|exact Hrest].
Qed.

(** X8.  The text of a CSV export can be read back without loss.  For a
    table with at least one row whose rows have at least one cell each, a
    reader that ends fields at commas and records at line feeds, and reads
    a field in double quotes up to its closing quote with doubled quotes
    standing for one, gets back exactly the rows and cells that were
    written, a missing cell as the empty text: commas, quotes and line
    feeds inside a cell do not break the table.  Two such tables with the
    same file text have the same cells. *)
Theorem downloadCsv_round_trip (rows rows' : list (list (option string))) :
  rows <> [] -> Forall (fun r => r <> []) rows ->
  readCsv false (downloadCsv rows) = List.map (List.map orEmpty) rows
  /\ (rows' <> [] -> Forall (fun r => r <> []) rows' ->
      downloadCsv rows = downloadCsv rows' ->
      List.map (List.map orEmpty) rows = List.map (List.map orEmpty) rows').
Proof.
  intros Hrows Hcells. split; [apply downloadCsv_round_trip_rows; assumption|].
  intros Hrows' Hcells' Heq.
  rewrite <- (downloadCsv_round_trip_rows Hrows Hcells).
  rewrite <- (downloadCsv_round_trip_rows Hrows' Hcells'), Heq. reflexivity.
Qed.

Lemma downloadCsv_round_trip_witness :
  readCsv false
    (downloadCsv [ [Some "Line"; Some "01-Jan"];
                   [Some "Rent, office"; None];
                   [Some (String dquote "A" ++ String dquote " Ltd")%string; Some "12.50"] ])
  = [ ["Line"; "01-Jan"];
      ["Rent, office"; ""];
      [(String dquote "A" ++ String dquote " Ltd")%string; "12.50"] ].
Proof.
  apply (@downloadCsv_round_trip
           [ [Some "Line"; Some "01-Jan"];
             [Some "Rent, office"; None];
             [Some (String dquote "A" ++ String dquote " Ltd")%string; Some "12.50"] ] []).
  - discriminate.
  - repeat constructor; discriminate.
Defined.

(** ** The Profit & Loss export *)

Lemma map_orEmpty_Some (rows : list (list string)) :
  List.map (List.map orEmpty) (List.map (List.map Some) rows) = rows.
Proof.
  induction rows as [|r rows IH]; simpl; [reflexivity|]. rewrite IH. f_equal.
  induction r as [|c r IHr]; simpl; [reflexivity|]. rewrite IHr. reflexivity.
Qed.

Lemma length_push (toFixed2 : Qc -> string) (label : string) (vals : Row) :
  List.length (push toFixed2 label vals) = List.length vals + 2.
Proof. unfold push. simpl. rewrite length_app, length_map. simpl. lia. Qed.

(** X9.  The Profit & Loss export.  Whatever the formatting of numbers,
    the file holds the header, the rows Net Sales, COGS and Gross Profit,
    a row with the single cell "Operating Expenses", one row per expense
    row of the table in the table's order, and the rows Total Operating
    Expenses, EBIT and Net Earnings; every row but the single-cell one has
    fourteen cells, its last cell being the formatted sum of its twelve
    values, which for Net Sales is the formatted sales total of the table;
    and the file reads back as exactly these rows. *)
Theorem exportPLCsv_table (host : Host) (toFixed2 : Qc -> string) (st : State) (year : Z) :
  let d := calcPLForYear st year in
  let rows := exportPLRows toFixed2 st year in
  List.length rows = 8 + List.length (Js.keys (expenseRows d))
  /\ Forall (fun r => List.length r = 14 \/ r = ["Operating Expenses"]) rows
  /\ List.map (fun r => hd "" r) rows
     = (["Line"; "Net Sales"; "COGS (Products)"; "Gross Profit"; "Operating Expenses"]
        ++ Js.keys (expenseRows d)
        ++ ["Total Operating Expenses"; "EBIT"; "Net Earnings"])%list
  /\ nth 13 (nth 1 rows []) "" = toFixed2 (t_sales (pl_totals d))
  /\ readCsv false (exportPLCsv toFixed2 st year) = rows.
Proof.
  intros d rows.
  assert (Hw : twelveWide (expenseRows d)) by apply twelveWide_expenseRows.
  assert (Hls : List.length (sales d) = 12) by apply length_sales.
  assert (Hlc : List.length (cogs d) = 12) by apply length_cogs.
  assert (Hlg : List.length (grossProfit d) = 12) by apply length_grossProfit.
  destruct (calcPL_fields st year) as (_ & _ & _ & _ & Hsum & Hebit & Hnet).
  fold d in Hsum, Hebit, Hnet.
  assert (Hlo : List.length (otherExpensesSum d) = 12)
    by (rewrite Hsum; apply length_sumCols).
  assert (Hle : List.length (ebit d) = 12)
    by (rewrite Hebit, length_map, length_indexed; exact Hlg).
  assert (Hln : List.length (net d) = 12) by (rewrite Hnet; exact Hle).
  assert (Hwide : Forall (fun r => List.length r = 14 \/ r = ["Operating Expenses"]) rows).
  { unfold rows, exportPLRows. fold d.
    repeat (apply Forall_cons; [first [left; reflexivity
                                      |left; rewrite length_push; lia
                                      |right; reflexivity]|]).
    apply Forall_app. split.
    - apply Forall_forall. intros r Hr. apply in_map_iff in Hr.
      destruct Hr as ([k vals] & <- & Hin). left. rewrite length_push. simpl.
      unfold twelveWide in Hw. rewrite Forall_forall in Hw.
      rewrite (Hw vals); [reflexivity|]. unfold Js.values. apply in_map_iff.
      exists (k, vals). split; [reflexivity|exact Hin].
    - repeat (apply Forall_cons; [left; rewrite length_push; lia|]). constructor. }
  split.
  { unfold rows, exportPLRows. fold d. simpl.
    rewrite length_app, length_map. unfold Js.keys. rewrite length_map. simpl. lia. }
  split; [exact Hwide|].
  split.
  { unfold rows, exportPLRows. fold d. simpl. do 5 f_equal.
    rewrite map_app, map_map. reflexivity. }
  split.
  { unfold rows, exportPLRows. fold d. cbn [nth app]. unfold push.
    change 13 with (S 12). cbn [nth]. rewrite app_nth2 by (rewrite length_map; lia).
    rewrite length_map, Hls. cbn [Nat.sub nth].
    unfold d. rewrite totals_calcPL. reflexivity. }
  unfold exportPLCsv. fold rows. rewrite downloadCsv_round_trip_rows; [apply map_orEmpty_Some| |].
  - unfold rows, exportPLRows. discriminate.
  - apply Forall_forall. intros r Hr. apply in_map_iff in Hr. destruct Hr as (r0 & <- & Hr0).
    rewrite Forall_forall in Hwide. destruct (Hwide r0 Hr0) as [H | ->]; [|discriminate].
    destruct r0; [discriminate H|discriminate].
Qed.

(** ** Payments *)

Lemma find_assignFirst (id id' : string) (f : Payable -> Payable) (l : list Payable) :
  (forall x, p_id (f x) = p_id x) ->
  find (fun x => p_id x =? id') (assignFirst id f l)
  = if id =? id' then option_map f (find (fun x => p_id x =? id') l)
    else find (fun x => p_id x =? id') l.
Proof.
  intros Hf. induction l as [|x l IH]; simpl.
  - destruct (id =? id'); reflexivity.
  - destruct (String.eqb_spec (p_id x) id) as [Hx|Hx]; simpl.
    + rewrite Hf, Hx. destruct (id =? id'); reflexivity.
    + rewrite IH. destruct (String.eqb_spec (p_id x) id') as [Hx'|Hx'].
      * destruct (String.eqb_spec id id') as [E|E]; [|reflexivity]. congruence.
      * reflexivity.
Qed.

Lemma assignFirst_absent (id : string) (f : Payable -> Payable) (l : list Payable) :
  find (fun x => p_id x =? id) l = None -> assignFirst id f l = l.
Proof.
  induction l as [|x l IH]; simpl; [reflexivity|].
  destruct (p_id x =? id); [discriminate|]. intros H. rewrite IH by exact H. reflexivity.
Qed.

Lemma ids_assignFirst (id : string) (f : Payable -> Payable) (l : list Payable) :
  (forall x, p_id (f x) = p_id x) ->
  List.map p_id (assignFirst id f l) = List.map p_id l.
Proof.
  intros Hf. induction l as [|x l IH]; simpl; [reflexivity|].
  destruct (p_id x =? id); simpl; [rewrite Hf|rewrite IH]; reflexivity.
Qed.

(** X10.  Recording a payment and reading it back.  When the target
    names an existing invoice or other expense, [getPaymentState] after
    [setPaymentState] returns the method that was set and, with it, the
    date; setting the empty method clears the date as well.  The payment
    state of every other target is unchanged, the ids of the records and
    their order stay as they were, and a target that names no record, or
    is of another type, leaves the ledger untouched. *)
Theorem payment_round_trip (led : Ledger) (target other : Target) (method date : string) :
  let led' := setPaymentState led target method date in
  (targetRecord led target <> None ->
   getPaymentState led' target = (method, if method =? "" then "" else date))
  /\ (targetType other <> targetType target \/ targetId other <> targetId target ->
      getPaymentState led' other = getPaymentState led other)
  /\ List.map p_id (paidInvoices led') = List.map p_id (paidInvoices led)
  /\ List.map p_id (paidExpenses led') = List.map p_id (paidExpenses led)
  /\ (targetRecord led target = None -> led' = led).
Proof.
  intros led'.
  set (assign := fun x : Payable =>
    {| p_id := p_id x;
       paymentMethod := Some method;
       paymentDate := Some (if negb (method =? "") then date else "") |}).
  assert (Hid : forall x, p_id (assign x) = p_id x) by reflexivity.
  assert (Hback : forall x,
            (or_field (paymentMethod (assign x)) "", or_field (paymentDate (assign x)) "")
            = (method, if method =? "" then "" else date)).
  { intros x. unfold assign, or_field, truthy_field. simpl.
    destruct (String.eqb_spec method "") as [->|Hm]; simpl; [reflexivity|].
    destruct (String.eqb_spec date "") as [->|Hd]; reflexivity. }
  unfold led', setPaymentState, getPaymentState, targetRecord. fold assign.
  destruct (String.eqb_spec (targetType target) "invoice") as [Ti|Ti].
  - simpl paidInvoices. simpl paidExpenses. split.
    { intros Hrec. rewrite (@find_assignFirst _ _ assign _ Hid), String.eqb_refl.
      destruct (find (fun i => p_id i =? targetId target) (paidInvoices led));
        [apply Hback|contradiction]. }
    split.
    { intros Hother. destruct (String.eqb_spec (targetType other) "invoice") as [Oi|Oi];
        [|reflexivity].
      rewrite (@find_assignFirst _ _ assign _ Hid).
      destruct (String.eqb_spec (targetId target) (targetId other)) as [E|E]; [|reflexivity].
      exfalso. destruct Hother as [H|H]; [apply H; congruence|apply H; congruence]. }
    split; [apply ids_assignFirst, Hid|]. split; [reflexivity|].
    intros Hnone. rewrite (@assignFirst_absent _ assign _ Hnone). destruct led; reflexivity.
  - destruct (String.eqb_spec (targetType target) "other") as [To|To].
    + simpl paidInvoices. simpl paidExpenses. split.
      { intros Hrec. rewrite (@find_assignFirst _ _ assign _ Hid), String.eqb_refl.
        destruct (find (fun i => p_id i =? targetId target) (paidExpenses led));
          [apply Hback|contradiction]. }
      split.
      { intros Hother. destruct (String.eqb_spec (targetType other) "invoice") as [Oi|Oi];
          [reflexivity|].
        destruct (String.eqb_spec (targetType other) "other") as [Oo|Oo]; [|reflexivity].
        rewrite (@find_assignFirst _ _ assign _ Hid).
        destruct (String.eqb_spec (targetId target) (targetId other)) as [E|E]; [|reflexivity].
        exfalso. destruct Hother as [H|H]; [apply H; congruence|apply H; congruence]. }
      split; [reflexivity|]. split; [apply ids_assignFirst, Hid|].
      intros Hnone. rewrite (@assignFirst_absent _ assign _ Hnone). destruct led; reflexivity.
    + split; [intros H; contradiction|]. repeat split; reflexivity.
Qed.

Lemma paymentStep_counts (fromDate toDate : string) (acc : nat * nat) (x : Payable) :
  paymentStep fromDate toDate acc x
  = (fst acc + (if countsAs "cash" fromDate toDate x then 1 else 0),
     snd acc + (if countsAs "bank" fromDate toDate x then 1 else 0)).
Proof.
  destruct acc as [cash bank]. unfold paymentStep, countsAs, paymentKept. simpl fst. simpl snd.
  destruct (paymentMethod x) as [m|]; simpl.
  - destruct (String.eqb_spec m "") as [->|Hm]; simpl.
    + rewrite !Nat.add_0_r. reflexivity.
    + destruct (fromDate =? ""), (toDate =? ""), (truthy_field (paymentDate x)),
        (lt_field (paymentDate x) fromDate), (gt_field (paymentDate x) toDate);
        simpl; rewrite ?andb_true_r, ?andb_false_r, ?Nat.add_0_r;
        try reflexivity;
        destruct (m =? "cash"), (m =? "bank"); rewrite ?Nat.add_0_r, ?Nat.add_1_r; reflexivity.
  - rewrite !Nat.add_0_r. reflexivity.
Qed.

Lemma paymentFold_counts (fromDate toDate : string) (l : list Payable) (acc : nat * nat) :
  fold_left (paymentStep fromDate toDate) l acc
  = (fst acc + count (countsAs "cash" fromDate toDate) l,
     snd acc + count (countsAs "bank" fromDate toDate) l).
Proof.
  unfold count. revert acc; induction l as [|x l IH]; intros acc; simpl.
  - rewrite !Nat.add_0_r. destruct acc; reflexivity.
  - rewrite IH, paymentStep_counts. simpl fst. simpl snd.
    destruct (countsAs "cash" fromDate toDate x), (countsAs "bank" fromDate toDate x);
      simpl; f_equal; lia.
Qed.

Lemma count_app (A : Type) (p : A -> bool) (l1 l2 : list A) :
  count p (l1 ++ l2) = count p l1 + count p l2.
Proof. unfold count. rewrite filter_app, length_app. reflexivity. Qed.

Lemma count_le (A : Type) (p q : A -> bool) (l : list A) :
  (forall a, p a = true -> q a = true) -> count p l <= count q l.
Proof.
  intros H. unfold count. induction l as [|a l IH]; simpl; [lia|].
  destruct (p a) eqn:E.
  - rewrite (H a E). simpl. lia.
  - destruct (q a); simpl; lia.
Qed.

Lemma count_disjoint (A : Type) (p q r : A -> bool) (l : list A) :
  (forall a, p a = true -> r a = true) -> (forall a, q a = true -> r a = true) ->
  (forall a, p a && q a = false) ->
  count p l + count q l <= count r l.
Proof.
  intros Hp Hq Hd. unfold count. induction l as [|a l IH]; simpl; [lia|].
  specialize (Hp a). specialize (Hq a). specialize (Hd a).
  destruct (p a), (q a); simpl in *; try discriminate.
  - rewrite Hp by reflexivity. simpl. lia.
  - rewrite Hq by reflexivity. simpl. lia.
  - destruct (r a); simpl; lia.
Qed.

Lemma payments_chart_cols (led : Ledger) (fromDate toDate : string) :
  fst (aggregatePaymentsByMethod led fromDate toDate)
  = count (countsAs "cash" fromDate toDate) (allPayables led)
  /\ snd (aggregatePaymentsByMethod led fromDate toDate)
     = count (countsAs "bank" fromDate toDate) (allPayables led).
Proof.
  unfold aggregatePaymentsByMethod, allPayables.
  rewrite !paymentFold_counts, !count_app. simpl. split; lia.
Qed.

(** X11.  The payments chart.  Over the invoices and other expenses
    together, the cash column counts the records whose payment method is
    "cash", and the bank column those whose method is "bank", that have no
    payment date or a payment date within the bounds that are set.  A
    record paid by any other method, "card" included, is in neither
    column, so the two columns together never exceed the number of paid
    records.  A record counted under "bank" is labelled "Not paid" by its
    payment button. *)
Theorem payments_chart_counts (led : Ledger) (fromDate toDate : string) :
  let counts := aggregatePaymentsByMethod led fromDate toDate in
  fst counts = count (countsAs "cash" fromDate toDate) (allPayables led)
  /\ snd counts = count (countsAs "bank" fromDate toDate) (allPayables led)
  /\ fst counts + snd counts
     <= count (fun x => truthy_field (paymentMethod x)
                        && negb (eq_field (paymentMethod x) "card")) (allPayables led)
  /\ (forall x, countsAs "bank" fromDate toDate x = true ->
                paymentBtnText (or_field (paymentMethod x) "") = "Not paid").
Proof.
  intros counts.
  destruct (payments_chart_cols led fromDate toDate) as [Hc Hb]. fold counts in Hc, Hb.
  rewrite Hc, Hb.
  split; [reflexivity|]. split; [reflexivity|]. split.
  - apply count_disjoint.
    + intros x H. unfold countsAs in H. apply andb_prop in H. destruct H as [H _].
      destruct (paymentMethod x) as [m|]; [|discriminate]. simpl in *.
      apply String.eqb_eq in H. subst m. reflexivity.
    + intros x H. unfold countsAs in H. apply andb_prop in H. destruct H as [H _].
      destruct (paymentMethod x) as [m|]; [|discriminate]. simpl in *.
      apply String.eqb_eq in H. subst m. reflexivity.
    + intros x. unfold countsAs. destruct (paymentMethod x) as [m|]; [|reflexivity].
      simpl. destruct (String.eqb_spec m "cash") as [->|]; [|reflexivity].
      destruct (paymentKept fromDate toDate x); reflexivity.
  - intros x H. unfold countsAs in H. apply andb_prop in H. destruct H as [H _].
    destruct (paymentMethod x) as [m|]; [|discriminate]. simpl in H.
    apply String.eqb_eq in H. subst m. reflexivity.
Qed.

Lemma count_assignFirst (p : Payable -> bool) (id : string) (f : Payable -> Payable)
  (l : list Payable) (x0 : Payable) :
  find (fun x => p_id x =? id) l = Some x0 ->
  count p (assignFirst id f l) + (if p x0 then 1 else 0)
  = count p l + (if p (f x0) then 1 else 0).
Proof.
  unfold count. induction l as [|x l IH]; simpl; [discriminate|].
  destruct (p_id x =? id); simpl.
  - intros H. inversion H; subst x0.
    destruct (p x), (p (f x)); simpl; lia.
  - intros H. specialize (IH H). destruct (p x); simpl; lia.
Qed.

(** X12.  What recording a payment does to the payments chart.  When
    the target names a record, each column of the chart changes by that
    record alone: it loses the record if the record counted for it before
    and gains it if the record counts for it with its new method and date.
    Recording "card", or removing the payment, therefore never adds to a
    column. *)
Theorem payment_changes_chart (led : Ledger) (target : Target) (method date : string)
  (fromDate toDate : string) (x0 : Payable) :
  targetRecord led target = Some x0 ->
  let x1 := {| p_id := p_id x0;
               paymentMethod := Some method;
               paymentDate := Some (if negb (method =? "") then date else "") |} in
  let before := aggregatePaymentsByMethod led fromDate toDate in
  let after :=
    aggregatePaymentsByMethod (setPaymentState led target method date) fromDate toDate in
  let one := fun b : bool => if b then 1 else 0 in
  fst after + one (countsAs "cash" fromDate toDate x0)
  = fst before + one (countsAs "cash" fromDate toDate x1)
  /\ snd after + one (countsAs "bank" fromDate toDate x0)
     = snd before + one (countsAs "bank" fromDate toDate x1)
  /\ (method <> "cash" -> fst after <= fst before)
  /\ (method <> "bank" -> snd after <= snd before).
Proof.
  intros Hrec x1 before after one.
  set (assign := fun x : Payable =>
    {| p_id := p_id x;
       paymentMethod := Some method;
       paymentDate := Some (if negb (method =? "") then date else "") |}).
  assert (Hcount : forall p,
            count p (allPayables (setPaymentState led target method date)) + one (p x0)
            = count p (allPayables led) + one (p x1)).
  { intros p. unfold allPayables, setPaymentState, targetRecord in *. fold assign.
    destruct (targetType target =? "invoice").
    - simpl. rewrite !count_app.
      generalize (@count_assignFirst p (targetId target) assign _ _ Hrec).
      unfold one, x1, assign. lia.
    - destruct (targetType target =? "other"); [|discriminate].
      simpl. rewrite !count_app.
      generalize (@count_assignFirst p (targetId target) assign _ _ Hrec).
      unfold one, x1, assign. lia. }
  destruct (payments_chart_cols led fromDate toDate) as [B1 B2].
  destruct (payments_chart_cols (setPaymentState led target method date) fromDate toDate)
    as [A1 A2].
  fold before in B1, B2. fold after in A1, A2. rewrite A1, A2, B1, B2.
  split; [apply Hcount|]. split; [apply Hcount|].
  assert (Hno : forall m, method <> m -> countsAs m fromDate toDate x1 = false).
  { intros m Hm. unfold countsAs, x1. simpl.
    destruct (String.eqb_spec method m); [contradiction|reflexivity]. }
  split; intros Hm.
  - generalize (Hcount (countsAs "cash" fromDate toDate)). rewrite (Hno _ Hm).
    unfold one. destruct (countsAs "cash" fromDate toDate x0); lia.
  - generalize (Hcount (countsAs "bank" fromDate toDate)). rewrite (Hno _ Hm).
    unfold one. destruct (countsAs "bank" fromDate toDate x0); lia.
Qed.

Lemma payment_changes_chart_witness :
  let target := {| targetType := "invoice"; targetId := "inv_1" |} in
  let before := aggregatePaymentsByMethod sampleLedger "" "" in
  let after :=
    aggregatePaymentsByMethod (setPaymentState sampleLedger target "cash" "2024-03-05") "" "" in
  targetRecord sampleLedger target
  = Some {| p_id := "inv_1"; paymentMethod := None; paymentDate := None |}
  /\ fst after + 0 = fst before + 1
  /\ snd after + 0 = snd before + 0.
Proof.
  intros target before after.
  assert (Hrec : targetRecord sampleLedger target
                 = Some {| p_id := "inv_1"; paymentMethod := None; paymentDate := None |})
    by reflexivity.
  split; [exact Hrec|].
  destruct (@payment_changes_chart sampleLedger target "cash" "2024-03-05" "" "" _ Hrec)
    as (H1 & H2 & _).
  split; [exact H1|exact H2].
Defined.

(** ** The operating expenses of a month *)

Lemma mapWeight_set (w : Row -> Qc) (rows : Js.map Row) (k : string) (r : Row) :
  mapWeight w (Js.set rows k r)
  = (mapWeight w rows
     - match Js.get rows k with
       | Some r0 => w r0
       | None => 0
       end
     + w r)%Qc.
Proof.
  unfold mapWeight, sumOver, Js.values. induction rows as [|[k0 r0] rows IH]; simpl.
  - ring.
  - destruct (k0 =? k); simpl; [ring|]. rewrite IH. ring.
Qed.

Lemma mapWeight_modify (w : Row -> Qc) (rows : Js.map Row) (k : string) (f : Row -> Row) :
  mapWeight w (Js.modify rows k f)
  = (mapWeight w rows
     + match Js.get rows k with
       | Some r0 => w (f r0) - w r0
       | None => 0
       end)%Qc.
Proof.
  unfold mapWeight, sumOver, Js.values. induction rows as [|[k0 r0] rows IH]; simpl.
  - ring.
  - destruct (k0 =? k); simpl; [ring|]. rewrite IH. ring.
Qed.

Lemma mapWeight_zero (w : Row -> Qc) (zs : Js.map Row) :
  w initRow = 0%Qc -> Forall (fun r => r = initRow) (Js.values zs) -> mapWeight w zs = 0%Qc.
Proof.
  unfold mapWeight. intros Hw H. apply sumOver_zero. rewrite Forall_forall in H.
  intros r Hr. rewrite (H r Hr). exact Hw.
Qed.

Section OperatingMonth.
Context {host : Host}.
Variables (year : Z) (m : nat).
Hypothesis Hm : m < 12.

Local Abbreviation slot := (fun r : Row => nth m r 0%Qc).
Local Abbreviation onMonth :=
  (fun e : OtherExpense => inYear year (oe_date e) && isMonth m (getMonth (oe_date e))).

Lemma mapWeight_expenseStep (ts : list ExpenseType) (rows : Js.map Row) (e : OtherExpense) :
  twelveWide rows ->
  twelveWide (expenseStep year ts rows e)
  /\ mapWeight slot (expenseStep year ts rows e)
     = (mapWeight slot rows + if onMonth e then parseNumber (oe_amount e) else 0)%Qc.
Proof.
  intros Hw. unfold expenseStep. rewrite outsideYear_inYear.
  destruct (inYear year (oe_date e)); simpl; [|split; [exact Hw|ring]].
  set (name := expenseName ts e).
  set (rows' := if negb (Js.has rows name) then Js.set rows name initRow else rows).
  assert (Hw' : twelveWide rows').
  { unfold rows'. destruct (Js.has rows name); simpl; [exact Hw|].
    apply twelveWide_set; [exact Hw|reflexivity]. }
  assert (Ht' : mapWeight slot rows' = mapWeight slot rows).
  { unfold rows'. unfold Js.has. destruct (Js.get rows name) eqn:E; simpl; [reflexivity|].
    rewrite mapWeight_set, E, nth_initRow. ring. }
  assert (Hget : exists r0, Js.get rows' name = Some r0).
  { unfold rows'. unfold Js.has. destruct (Js.get rows name) eqn:E; simpl.
    - exists r. exact E.
    - exists initRow. apply get_set_eq. }
  destruct Hget as (r0 & Hr0). split.
  - apply twelveWide_modify; [|exact Hw']. intros r. apply length_add_at_index.
  - rewrite mapWeight_modify, Hr0, Ht'.
    assert (Hl : m < List.length r0) by (rewrite (get_twelveWide _ Hw' Hr0); exact Hm).
    destruct (getMonth (oe_date e)) as [i|]; simpl.
    + rewrite nth_add_at by exact Hl. destruct (i =? m)%nat; ring.
    + ring.
Qed.

Lemma mapWeight_expenseFold (ts : list ExpenseType) (exps : list OtherExpense)
  (rows : Js.map Row) :
  twelveWide rows ->
  mapWeight slot (fold_left (expenseStep year ts) exps rows)
  = (mapWeight slot rows
     + monthSum (fun e => inYear year (oe_date e)) (fun e => getMonth (oe_date e))
         (fun e => parseNumber (oe_amount e)) m exps)%Qc.
Proof.
  unfold monthSum, sumOver. revert rows; induction exps as [|e exps IH]; intros rows Hw; simpl;
    [ring|].
  destruct (mapWeight_expenseStep ts e Hw) as (Hw' & Ht).
  rewrite IH by exact Hw'. rewrite Ht.
  destruct (inYear year (oe_date e) && isMonth m (getMonth (oe_date e))); simpl; ring.
Qed.

Lemma mapWeight_seededRows (st : State) :
  mapWeight slot (seededRows (expenseTypes st) (snd (invoiceRows year (invoices st))))
  = if declaresInvoiceExpenses (expenseTypes st) then 0%Qc
    else monthSum (otherOfYear year) (fun inv => getMonth (invoiceDate inv)) invoiceTotal m
           (invoices st).
Proof.
  unfold seededRows, declaresInvoiceExpenses. rewrite invoiceExpenseRows_shape.
  destruct (existsb (otherOfYear year) (invoices st)) eqn:E.
  - destruct (@seed_head (Js.values (typeById (expenseTypes st))) "Invoice Expenses"
                (bucketFold (otherOfYear year) (fun inv => getMonth (invoiceDate inv))
                   invoiceTotal (invoices st) initRow) []) as (zs' & -> & Hz); [constructor|].
    unfold mapWeight, sumOver. simpl. fold (sumOver slot (Js.values zs')).
    fold (mapWeight slot zs'). rewrite (@mapWeight_zero slot zs' (nth_initRow m) Hz).
    destruct (set_has (Js.values (typeById (expenseTypes st))) "Invoice Expenses").
    + rewrite nth_initRow. ring.
    + rewrite nth_bucketFold by exact Hm. rewrite nth_initRow. ring.
  - rewrite (@mapWeight_zero slot _ (nth_initRow m)) by (apply seed_empty; constructor).
    destruct (set_has (Js.values (typeById (expenseTypes st))) "Invoice Expenses");
      [reflexivity|].
    symmetry. apply monthSum_none, E.
Qed.

Lemma operating_month (st : State) :
  nth m (otherExpensesSum (calcPLForYear st year)) 0%Qc
  = ((if declaresInvoiceExpenses (expenseTypes st) then 0
      else monthSum (otherOfYear year) (fun inv => getMonth (invoiceDate inv)) invoiceTotal m
             (invoices st))
     + monthSum (fun e => inYear year (oe_date e)) (fun e => getMonth (oe_date e))
         (fun e => parseNumber (oe_amount e)) m (otherExpenses st))%Qc.
Proof.
  destruct (calcPL_fields st year) as (_ & _ & Hrows & _ & -> & _).
  rewrite nth_sumCols by exact Hm. rewrite Hrows.
  generalize (mapWeight_expenseFold (expenseTypes st) (otherExpenses st)
                (twelveWide_seededRows st year)).
  rewrite mapWeight_seededRows. unfold mapWeight. intros H. exact H.
Qed.

End OperatingMonth.



(** ** Deleting an expense type *)

Lemma get_without (V : Type) (id k : string) (m : Js.map V) :
  Js.get (without id m) k = if k =? id then None else Js.get m k.
Proof.
  unfold without. induction m as [|[k0 v0] m IH]; simpl.
  - destruct (k =? id); reflexivity.
  - destruct (String.eqb_spec k0 id) as [E0|E0]; simpl.
    + rewrite IH. destruct (String.eqb_spec k id) as [E|E]; [reflexivity|].
      destruct (String.eqb_spec k0 k) as [E1|E1]; [congruence|reflexivity].
    + rewrite IH. destruct (String.eqb_spec k0 k) as [E1|E1]; [|reflexivity].
      destruct (String.eqb_spec k id) as [E|E]; [congruence|reflexivity].
Qed.

Lemma without_set (V : Type) (id k : string) (v : V) (m : Js.map V) :
  without id (Js.set m k v) = if k =? id then without id m else Js.set (without id m) k v.
Proof.
  unfold without. induction m as [|[k0 v0] m IH]; simpl.
  - destruct (k =? id); reflexivity.
  - destruct (String.eqb_spec k0 k) as [E1|E1]; simpl.
    + subst k0. destruct (k =? id); simpl; [reflexivity|].
      rewrite String.eqb_refl. reflexivity.
    + rewrite IH. destruct (String.eqb_spec k0 id) as [E0|E0]; simpl.
      * destruct (k =? id); reflexivity.
      * destruct (k =? id); [reflexivity|]. simpl.
        destruct (String.eqb_spec k0 k); [contradiction|reflexivity].
Qed.

Lemma of_entries_without (V : Type) (id : string) (l : list (string * V)) :
  Js.of_entries (filter (fun kv => negb (fst kv =? id)) l) = without id (Js.of_entries l).
Proof.
  unfold Js.of_entries. change (@nil (string * V)) with (without id (@nil (string * V))) at 1.
  generalize (@nil (string * V)).
  induction l as [|[k v] l IH]; intros m0; simpl; [reflexivity|].
  rewrite <- IH, without_set. destruct (k =? id); reflexivity.
Qed.

Lemma typeById_without (id : string) (ts : list ExpenseType) :
  typeById (filter (fun t => negb (et_id t =? id)) ts) = without id (typeById ts).
Proof.
  unfold typeById. rewrite <- of_entries_without. f_equal.
  induction ts as [|t ts IH]; simpl; [reflexivity|].
  destruct (et_id t =? id); simpl; rewrite IH; reflexivity.
Qed.

Section DeleteType.
Context {host : Host}.
Variables (st : State) (id : string) (confirmed : bool).

Local Abbreviation st' := (deleteExpenseType st id confirmed).

Lemma delete_cases :
  st' = st
  \/ (existsb (fun e => eq_field (typeId e) id) (otherExpenses st) = false
      /\ st' = {| sellEntries := sellEntries st;
                  invoices := invoices st;
                  expenseTypes := filter (fun t => negb (et_id t =? id)) (expenseTypes st);
                  otherExpenses := otherExpenses st |}).
Proof.
  unfold deleteExpenseType.
  destruct (existsb (fun e => eq_field (typeId e) id) (otherExpenses st)); [left; reflexivity|].
  destruct confirmed; simpl; [right; split; reflexivity|left; reflexivity].
Qed.

Lemma delete_keeps_ledger :
  sellEntries st' = sellEntries st /\ invoices st' = invoices st
  /\ otherExpenses st' = otherExpenses st.
Proof. destruct delete_cases as [->|[_ ->]]; repeat split; reflexivity. Qed.

Lemma delete_keeps_names (e : OtherExpense) :
  In e (otherExpenses st) ->
  expenseName (expenseTypes st') e = expenseName (expenseTypes st) e.
Proof.
  intros Hin. destruct delete_cases as [->|[Hused ->]]; [reflexivity|].
  simpl expenseTypes. unfold expenseName. rewrite typeById_without.
  destruct (typeId e) as [k|] eqn:Ek; [|reflexivity]. simpl.
  rewrite get_without. destruct (String.eqb_spec k id) as [->|Hk]; [|reflexivity].
  exfalso. assert (Hex : existsb (fun e => eq_field (typeId e) id) (otherExpenses st) = true).
  { apply existsb_exists. exists e. split; [exact Hin|]. rewrite Ek. simpl.
    apply String.eqb_refl. }
  congruence.
Qed.

Lemma delete_keeps_declared :
  (forall t, In t (expenseTypes st) -> et_id t = id -> et_name t <> "Invoice Expenses") ->
  declaresInvoiceExpenses (expenseTypes st') = declaresInvoiceExpenses (expenseTypes st).
Proof.
  intros Hname. destruct delete_cases as [->|[_ ->]]; [reflexivity|].
  simpl expenseTypes. unfold declaresInvoiceExpenses. rewrite typeById_without.
  apply eq_true_iff_eq. rewrite !set_has_In. unfold Js.values, without.
  rewrite !in_map_iff. split.
  - intros ([k v] & Hv & Hin). apply filter_In in Hin. exists (k, v). tauto.
  - intros ([k v] & Hv & Hin). exists (k, v). split; [exact Hv|].
    apply filter_In. split; [exact Hin|]. simpl in *. subst v.
    apply negb_true_iff, String.eqb_neq. intros ->.
    apply In_of_entries, in_map_iff in Hin. destruct Hin as (t & Ht & Hint).
    inversion Ht. apply (Hname t Hint); assumption.
Qed.

End DeleteType.

Lemma pl_rows_ext (host : Host) (st1 st2 : State) (year : Z) :
  sellEntries st1 = sellEntries st2 -> invoices st1 = invoices st2 ->
  otherExpenses st1 = otherExpenses st2 ->
  declaresInvoiceExpenses (expenseTypes st1) = declaresInvoiceExpenses (expenseTypes st2) ->
  let pl1 := calcPLForYear st1 year in
  let pl2 := calcPLForYear st2 year in
  sales pl1 = sales pl2 /\ cogs pl1 = cogs pl2 /\ grossProfit pl1 = grossProfit pl2
  /\ otherExpensesSum pl1 = otherExpensesSum pl2 /\ ebit pl1 = ebit pl2
  /\ net pl1 = net pl2 /\ pl_totals pl1 = pl_totals pl2.
Proof.
  intros Hs Hi He Hd pl1 pl2.
  destruct (calcPL_fields st1 year) as (S1 & _ & _ & G1 & O1 & E1 & N1).
  destruct (calcPL_fields st2 year) as (S2 & _ & _ & G2 & O2 & E2 & N2).
  fold pl1 in S1, G1, O1, E1, N1. fold pl2 in S2, G2, O2, E2, N2.
  assert (Hsales : sales pl1 = sales pl2) by (rewrite S1, S2, Hs; reflexivity).
  assert (Hcogs : cogs pl1 = cogs pl2) by (unfold pl1, pl2; rewrite !cogs_bucket, Hi; reflexivity).
  assert (Hgp : grossProfit pl1 = grossProfit pl2) by (rewrite G1, G2, Hsales, Hcogs; reflexivity).
  assert (Hop : otherExpensesSum pl1 = otherExpensesSum pl2).
  { apply (nth_ext _ _ 0%Qc 0%Qc).
    - rewrite O1, O2, !length_sumCols. reflexivity.
    - intros m Hm. rewrite O1, length_sumCols in Hm. unfold pl1, pl2.
      rewrite !operating_month by exact Hm. rewrite Hd, Hi, He. reflexivity. }
  assert (Hebit : ebit pl1 = ebit pl2) by (rewrite E1, E2, Hgp, Hop; reflexivity).
  assert (Hnet : net pl1 = net pl2) by (rewrite N1, N2; exact Hebit).
  repeat (split; [assumption|]).
  unfold pl1, pl2. rewrite !totals_calcPL. cbv zeta. fold pl1 pl2.
  rewrite Hsales, Hcogs, Hgp, Hop, Hebit, Hnet. reflexivity.
Qed.


(** ** The invoice form *)

Lemma Qcltb_lt (x y : Qc) : Qcltb x y = true <-> (x < y)%Qc.
Proof.
  unfold Qcltb. destruct (Qclt_le_dec x y) as [H|H]; split; auto; try discriminate.
  intros H'. exfalso. exact (Qcle_not_lt _ _ H H').
Qed.

Lemma Qcleb_le (x y : Qc) : Qcleb x y = true <-> (x <= y)%Qc.
Proof.
  unfold Qcleb. destruct (Qclt_le_dec y x) as [H|H]; split; auto; try discriminate.
  intros H'. exfalso. exact (Qcle_not_lt _ _ H' H).
Qed.

Lemma Qcmult_nonneg (x y : Qc) : (0 <= x)%Qc -> (0 <= y)%Qc -> (0 <= x * y)%Qc.
Proof.
  intros Hx Hy. rewrite <- (Qcmult_0_l y). apply Qcmult_le_compat_r; assumption.
Qed.

Lemma sumOver_nonneg (A : Type) (f : A -> Qc) (l : list A) :
  (forall a, In a l -> (0 <= f a)%Qc) -> (0 <= sumOver f l)%Qc.
Proof.
  unfold sumOver. induction l as [|a l IH]; intros H; simpl; [apply Qcle_refl|].
  rewrite <- (Qcplus_0_l 0). apply Qcplus_le_compat.
  - apply H. left; reflexivity.
  - apply IH. intros b Hb. apply H. right; exact Hb.
Qed.

Section InvoiceFormFacts.
Context {host : Host}.

Lemma keepItem_plain (i : FormItem) : keepItem i = true -> plainItem (lineItem i).
Proof.
  unfold keepItem, plainItem, lineItem. intros H. simpl.
  apply andb_prop in H. destruct H as [H Hq]. apply andb_prop in H. destruct H as [_ Hp].
  apply Qcltb_lt in Hq. apply Qcleb_le in Hp. split; [right; exact Hq|exact Hp].
Qed.

Lemma price_or_zero (s : string) :
  parseNumber (or (Str s) (Num (Fin 0%Qc))) = parseNumber (Str s).
Proof.
  unfold or. simpl. destruct (String.eqb_spec s "") as [->|]; simpl; [|reflexivity].
  unfold parseNumber. simpl. rewrite empty_string_zero. reflexivity.
Qed.

Lemma recalc_sum (rows : list ItemRow) : recalcInvoiceTotal rows = sumOver rowAmount rows.
Proof.
  unfold recalcInvoiceTotal. cbv zeta.
  rewrite (fold_left_sum (fun row => rowQty row
                                     * parseNumber (or (Str (itemPrice row)) (Num (Fin 0%Qc))))%Qc).
  rewrite Qcplus_0_l. apply sumOver_ext. intros row _. unfold rowAmount.
  rewrite price_or_zero. reflexivity.
Qed.

Lemma filter_map_comm (A B : Type) (g : A -> B) (p : B -> bool) (l : list A) :
  filter p (List.map g l) = List.map g (filter (fun a => p (g a)) l).
Proof.
  induction l as [|a l IH]; simpl; [reflexivity|].
  destruct (p (g a)); simpl; rewrite IH; reflexivity.
Qed.

Lemma saved_total (rows : list ItemRow) :
  computeInvoiceTotal (savedItems rows)
  = sumOver rowAmount (filter (fun row => keepItem (readItem row)) rows).
Proof.
  rewrite computeInvoiceTotal_sum. unfold savedItems, formItems.
  rewrite filter_map_comm. unfold sumOver. rewrite !map_map.
  f_equal. apply map_ext_in. intros row Hrow. apply filter_In in Hrow.
  destruct Hrow as [_ E].
  assert (Hq : (0 < fi_qty (readItem row))%Qc).
  { unfold keepItem in E. apply andb_prop in E. destruct E as [_ E]. apply Qcltb_lt, E. }
  change (qty (lineItem (readItem row))) with (Num (Fin (fi_qty (readItem row)))).
  rewrite (positive_quantity (Num (Fin (fi_qty (readItem row))))) by exact Hq.
  reflexivity.
Qed.

End InvoiceFormFacts.


(** ** Password hashes *)

Lemma toInt32_range (z : Z) : (- 2 ^ 31 <= toInt32 z < 2 ^ 31)%Z.
Proof.
  unfold toInt32. generalize (Z.mod_pos_bound (z + 2 ^ 31) (2 ^ 32) ltac:(lia)). lia.
Qed.

Lemma toInt32_congr (a b : Z) :
  ((a - b) mod 2 ^ 32 = 0)%Z -> toInt32 a = toInt32 b.
Proof.
  intros H. unfold toInt32. f_equal.
  apply Z.mod_divide in H; [|lia]. destruct H as (k & Hk).
  replace (a + 2 ^ 31)%Z with (b + 2 ^ 31 + k * 2 ^ 32)%Z by lia.
  apply Z.mod_add. lia.
Qed.

Lemma toInt32_diff (a : Z) : exists k, (toInt32 a = a + k * 2 ^ 32)%Z.
Proof.
  unfold toInt32. exists (- ((a + 2 ^ 31) / 2 ^ 32))%Z.
  generalize (Z.div_mod (a + 2 ^ 31) (2 ^ 32) ltac:(lia)). lia.
Qed.

Lemma hashStep_poly (h : Z) (c : ascii) :
  hashStep h c = toInt32 (31 * h + charCode c).
Proof.
  unfold hashStep. cbv zeta. rewrite Z.land_diag. apply toInt32_congr.
  rewrite Z.shiftl_mul_pow2 by lia.
  destruct (toInt32_diff h) as (k1 & ->).
  destruct (toInt32_diff ((h + k1 * 2 ^ 32) * 2 ^ 5)) as (k2 & ->).
  replace ((h + k1 * 2 ^ 32) * 2 ^ 5 + k2 * 2 ^ 32 - h + charCode c
           - (31 * h + charCode c))%Z
    with ((k1 * 2 ^ 5 + k2) * 2 ^ 32)%Z by lia.
  apply Z.mod_mul. lia.
Qed.

Lemma hashFold_poly (l : list ascii) (h p : Z) :
  h = toInt32 p ->
  fold_left hashStep l h = toInt32 (fold_left (fun a c => (31 * a + charCode c)%Z) l p).
Proof.
  revert h p; induction l as [|c l IH]; intros h p Hh; cbn [fold_left]; [exact Hh|].
  apply IH. rewrite hashStep_poly, Hh. apply toInt32_congr.
  destruct (toInt32_diff p) as (k & ->).
  replace (31 * (p + k * 2 ^ 32) + charCode c - (31 * p + charCode c))%Z
    with (31 * k * 2 ^ 32)%Z by lia.
  apply Z.mod_mul. lia.
Qed.

(** X16.  [hashPassword] is a polynomial hash.  Its result is the
    decimal text of the value, wrapped to the signed 32-bit range, of the
    polynomial whose coefficients are the code units of the password, taken
    at 31; the value lies between -2^31 and 2^31 - 1, and two passwords
    have the same hash whenever their polynomial values differ by a
    multiple of 2^32. *)
Theorem hashPassword_polynomial (password other : string) :
  hashPassword password = string_of_Z (toInt32 (poly31 password))
  /\ (- 2 ^ 31 <= hashValue password < 2 ^ 31)%Z
  /\ (((poly31 password - poly31 other) mod 2 ^ 32 = 0)%Z ->
      hashPassword password = hashPassword other).
Proof.
  assert (H : forall s, hashValue s = toInt32 (poly31 s)).
  { intros s. unfold hashValue, poly31. apply hashFold_poly. reflexivity. }
  split; [unfold hashPassword; rewrite H; reflexivity|].
  split; [rewrite H; apply toInt32_range|].
  intros Hc. unfold hashPassword. rewrite !H. f_equal. apply toInt32_congr, Hc.
Qed.

(** ** Registration and login *)

Lemma find_snoc (A : Type) (p : A -> bool) (l : list A) (u : A) :
  find p (l ++ [u])
  = match find p l with
    | Some x => Some x
    | None => if p u then Some u else None
    end.
Proof.
  induction l as [|x l IH]; simpl; [reflexivity|].
  destruct (p x); [reflexivity|exact IH].
Qed.

Lemma register_cases (users : list User) (f : RegisterFields) (newId now : string) :
  register users f newId now = users
  \/ (trim (f_name f) <> "" /\ trim (f_surname f) <> "" /\ trim (f_username f) <> ""
      /\ f_password f <> "" /\ f_password f = f_confirm f
      /\ 6 <= String.length (f_password f)
      /\ find (fun u => u_username u =? trim (f_username f)) users = None
      /\ register users f newId now
         = (users ++ [ {| u_id := newId; u_name := trim (f_name f);
                          u_surname := trim (f_surname f);
                          u_description := trim (f_description f);
                          u_username := trim (f_username f);
                          passwordHash := hashPassword (f_password f);
                          createdAt := now |} ])%list).
Proof.
  unfold register. cbv zeta.
  destruct (String.eqb_spec (trim (f_name f)) "") as [|H1]; [left; reflexivity|].
  destruct (String.eqb_spec (trim (f_surname f)) "") as [|H2]; [left; reflexivity|].
  destruct (String.eqb_spec (trim (f_username f)) "") as [|H3]; [left; reflexivity|].
  destruct (String.eqb_spec (f_password f) "") as [|H4]; [left; reflexivity|].
  cbn [orb]. destruct (String.eqb_spec (f_password f) (f_confirm f)) as [H5|];
    [|left; reflexivity].
  cbn [negb]. destruct (Nat.ltb_spec (String.length (f_password f)) 6) as [|H6];
    [left; reflexivity|].
  destruct (find (fun u => u_username u =? trim (f_username f)) users) eqn:E;
    [left; reflexivity|].
  right. repeat split; assumption.
Qed.

(** X17.  Registering and logging in.  When the registration form adds
    a user (the user list changes), the trimmed name, surname and username
    and the password were not empty, the password was repeated correctly
    and has at least six characters, and the username was free.  The new
    user goes to the end of the list with the hash of the password; pairwise
    distinct usernames stay pairwise distinct; logging in with the same
    username field and password succeeds as that user; every login that
    succeeded before succeeds as before; and any non-empty password with
    the same hash value logs in as well. *)
Theorem register_then_login (users : list User) (f : RegisterFields) (newId now : string) :
  register users f newId now <> users ->
  let users' := register users f newId now in
  let fresh := {| cu_id := newId; cu_name := trim (f_name f);
                  cu_surname := trim (f_surname f);
                  cu_username := trim (f_username f) |} in
  (exists u, users' = (users ++ [u])%list
             /\ u_username u = trim (f_username f)
             /\ passwordHash u = hashPassword (f_password f))
  /\ (trim (f_username f) <> "" /\ 6 <= String.length (f_password f)
      /\ ~ In (trim (f_username f)) (List.map u_username users))
  /\ (NoDup (List.map u_username users) -> NoDup (List.map u_username users'))
  /\ login users' (f_username f) (f_password f) = Some fresh
  /\ (forall name password c, login users name password = Some c ->
        login users' name password = Some c)
  /\ (forall password, password <> "" -> hashValue password = hashValue (f_password f) ->
        login users' (f_username f) password = Some fresh).
Proof.
  intros Hchanged users' fresh.
  destruct (register_cases users f newId now)
    as [H|(H1 & H2 & H3 & H4 & H5 & H6 & Hfree & Hreg)]; [contradiction|].
  fold users' in Hreg.
  assert (Hnot : ~ In (trim (f_username f)) (List.map u_username users)).
  { intros Hin. apply in_map_iff in Hin. destruct Hin as (u & Hu & Hin).
    apply (find_none _ _ Hfree) in Hin. rewrite Hu, String.eqb_refl in Hin. discriminate. }
  assert (Hlogin : forall password, password <> "" ->
            hashValue password = hashValue (f_password f) ->
            login users' (f_username f) password = Some fresh).
  { intros password Hp Hh. unfold login. cbv zeta.
    destruct (String.eqb_spec (trim (f_username f)) ""); [contradiction|].
    destruct (String.eqb_spec password ""); [contradiction|]. cbn [orb].
    rewrite Hreg, find_snoc, Hfree. cbn [u_username]. rewrite String.eqb_refl.
    cbn [passwordHash u_id u_name u_surname u_username]. unfold hashPassword.
    rewrite Hh, String.eqb_refl. reflexivity. }
  split.
  { eexists. split; [exact Hreg|]. split; reflexivity. }
  split; [repeat split; assumption|].
  split.
  { intros Hnd. rewrite Hreg, map_app. simpl.
    apply NoDup_app; [exact Hnd|repeat constructor; intros []|].
    intros x Hx [<-|[]]. exact (Hnot Hx). }
  split; [apply Hlogin; [exact H4|reflexivity]|].
  split; [|exact Hlogin].
  intros name password c. unfold login. cbv zeta.
  destruct ((trim name =? "") || (password =? "")); [discriminate|].
  rewrite Hreg, find_snoc.
  destruct (find (fun u => u_username u =? trim name) users); [auto|discriminate].
Qed.

Lemma register_then_login_witness :
  let f := {| f_name := "Ada"; f_surname := "Lovelace"; f_description := "";
              f_username := " ada "; f_password := "AaAaAa"; f_confirm := "AaAaAa" |} in
  let users' := register [] f "user_1" "2024-01-01T00:00:00.000Z" in
  login users' " ada " "AaAaAa"
  = Some {| cu_id := "user_1"; cu_name := "Ada"; cu_surname := "Lovelace";
            cu_username := "ada" |}
  /\ login users' " ada " "BBBBBB"
     = Some {| cu_id := "user_1"; cu_name := "Ada"; cu_surname := "Lovelace";
               cu_username := "ada" |}.
Proof.
  intros f users'.
  assert (Hc : register [] f "user_1" "2024-01-01T00:00:00.000Z" <> []) by discriminate.
  destruct (@register_then_login [] f "user_1" "2024-01-01T00:00:00.000Z" Hc)
    as (_ & _ & _ & H1 & _ & H2).
  split; [exact H1|]. apply H2; [discriminate|reflexivity].
Defined.

(** ** The entry forms and the reports *)

Lemma monthSum_snoc (A : Type) (keep : A -> bool) (idx : A -> option nat)
  (val : A -> Qc) (m : nat) (l : list A) (a : A) :
  monthSum keep idx val m (l ++ [a])
  = (monthSum keep idx val m l + if keep a && isMonth m (idx a) then val a else 0)%Qc.
Proof.
  unfold monthSum. rewrite filter_app, sumOver_app. f_equal. cbn [filter].
  destruct (keep a && isMonth m (idx a)); [|reflexivity].
  unfold sumOver. cbn [List.map sumList fold_right]. apply Qcplus_0_r.
Qed.

Lemma net_month (host : Host) (st : State) (year : Z) (m : nat) :
  m < 12 ->
  let pl := calcPLForYear st year in
  nth m (net pl) 0%Qc
  = (nth m (sales pl) 0 - nth m (cogs pl) 0 - nth m (otherExpensesSum pl) 0)%Qc.
Proof.
  intros Hm pl.
  destruct (calcPL_fields st year) as (_ & _ & _ & Hgp & _ & Hebit & Hnet).
  fold pl in Hgp, Hebit, Hnet.
  assert (Hls : List.length (sales pl) = 12) by apply length_sales.
  assert (Hlg : List.length (grossProfit pl) = 12) by apply length_grossProfit.
  rewrite Hnet, Hebit. rewrite (nth_map_indexed _ _ 0%Qc) by (rewrite Hlg; exact Hm).
  cbn [fst snd]. rewrite Hgp at 1.
  rewrite (nth_map_indexed _ _ 0%Qc) by (rewrite Hls; exact Hm). reflexivity.
Qed.

Lemma sales_month (host : Host) (st : State) (year : Z) (m : nat) :
  m < 12 ->
  nth m (sales (calcPLForYear st year)) 0%Qc
  = monthSum (fun e => inYear year (se_date e)) (fun e => getMonth (se_date e))
      (fun e => parseNumber (se_amount e)) m (sellEntries st).
Proof.
  intros Hm. rewrite sales_calcPL, salesRow_bucket, nth_bucketFold by exact Hm.
  rewrite nth_initRow. apply Qcplus_0_l.
Qed.

Lemma cogs_month (host : Host) (st : State) (year : Z) (m : nat) :
  m < 12 ->
  nth m (cogs (calcPLForYear st year)) 0%Qc
  = monthSum (productOfYear year) (fun inv => getMonth (invoiceDate inv)) invoiceTotal m
      (invoices st).
Proof.
  intros Hm. rewrite cogs_bucket, nth_bucketFold by exact Hm.
  rewrite nth_initRow. apply Qcplus_0_l.
Qed.

Section FormFacts.
Context {host : Host}.
Variables (st : State) (date type description amountField : string).

Lemma submitSell_cases :
  submitSell st date type description amountField = st
  \/ (date <> "" /\ type <> "" /\ trim description <> ""
      /\ (0 <= parseNumber (Str amountField))%Qc
      /\ submitSell st date type description amountField
         = {| sellEntries :=
                (sellEntries st
                 ++ [ {| se_date := Some date; se_type := Some type;
                         se_amount := Num (Fin (parseNumber (Str amountField))) |} ])%list;
              invoices := invoices st;
              expenseTypes := expenseTypes st;
              otherExpenses := otherExpenses st |}).
Proof.
  unfold submitSell. cbv zeta.
  destruct (String.eqb_spec date "") as [|H1]; [left; reflexivity|].
  destruct (String.eqb_spec type "") as [|H2]; [left; reflexivity|].
  destruct (String.eqb_spec (trim description) "") as [|H3]; [left; reflexivity|].
  cbn [orb]. unfold Qcltb.
  destruct (Qclt_le_dec (parseNumber (Str amountField)) 0) as [|H4]; [left; reflexivity|].
  right. repeat split; assumption.
Qed.

Lemma submitOtherExpense_cases :
  submitOtherExpense st date type description amountField = st
  \/ (date <> "" /\ type <> "" /\ trim description <> ""
      /\ (0 <= parseNumber (Str amountField))%Qc
      /\ submitOtherExpense st date type description amountField
         = {| sellEntries := sellEntries st;
              invoices := invoices st;
              expenseTypes := expenseTypes st;
              otherExpenses :=
                (otherExpenses st
                 ++ [ {| oe_date := Some date; typeId := Some type;
                         oe_amount := Num (Fin (parseNumber (Str amountField))) |} ])%list |}).
Proof.
  unfold submitOtherExpense. cbv zeta.
  destruct (String.eqb_spec date "") as [|H1]; [left; reflexivity|].
  destruct (String.eqb_spec type "") as [|H2]; [left; reflexivity|].
  destruct (String.eqb_spec (trim description) "") as [|H3]; [left; reflexivity|].
  cbn [orb]. unfold Qcltb.
  destruct (Qclt_le_dec (parseNumber (Str amountField)) 0) as [|H4]; [left; reflexivity|].
  right. repeat split; assumption.
Qed.

End FormFacts.





(** ** The years on offer *)

Lemma leb_total (a b : string) : String.leb a b = false -> String.leb b a = true.
Proof.
  intros H. assert (Hlt : String.ltb b a = true) by (rewrite ltb_negb_leb, H; reflexivity).
  unfold String.ltb in Hlt. unfold String.leb.
  destruct (String.compare b a); try discriminate. reflexivity.
Qed.

Lemma strLt_leb (a b : string) : strLt a b -> String.leb a b = true.
Proof.
  unfold strLt, String.ltb, String.leb. destruct (String.compare a b); try discriminate.
  reflexivity.
Qed.

Lemma leb_refl (a : string) : String.leb a a = true.
Proof. unfold String.leb. rewrite compare_refl_eq. reflexivity. Qed.

Lemma leb_trans (a b c : string) :
  String.leb a b = true -> String.leb b c = true -> String.leb a c = true.
Proof.
  intros Hab Hbc.
  destruct (leb_cases _ _ Hab) as [->|Hab']; [exact Hbc|].
  destruct (leb_cases _ _ Hbc) as [<-|Hbc']; [exact Hab|].
  apply strLt_leb. exact (strLt_trans Hab' Hbc').
Qed.

Lemma In_insertYear (y x : Z) (l : list Z) : In x (insertYear y l) <-> x = y \/ In x l.
Proof.
  induction l as [|z l IH]; simpl.
  - intuition.
  - destruct (String.leb (string_of_Z y) (string_of_Z z)); simpl; [intuition|].
    rewrite IH. intuition.
Qed.

Lemma In_sortYears (l : list Z) (x : Z) : In x (sortYears l) <-> In x l.
Proof.
  unfold sortYears. induction l as [|y l IH]; simpl; [tauto|].
  rewrite In_insertYear, IH. intuition.
Qed.

Lemma Permutation_insertYear (y : Z) (l : list Z) : Permutation (insertYear y l) (y :: l).
Proof.
  induction l as [|x l IH]; simpl; [reflexivity|].
  destruct (String.leb (string_of_Z y) (string_of_Z x)); [reflexivity|].
  rewrite IH. apply perm_swap.
Qed.

Lemma Permutation_sortYears (l : list Z) : Permutation (sortYears l) l.
Proof.
  unfold sortYears. induction l as [|y l IH]; simpl; [reflexivity|].
  rewrite Permutation_insertYear. constructor. exact IH.
Qed.

Lemma sorted_insertYear (y : Z) (l : list Z) :
  StronglySorted textLe l -> StronglySorted textLe (insertYear y l).
Proof.
  induction l as [|x l IH]; intros Hs; simpl.
  - constructor; constructor.
  - apply StronglySorted_inv in Hs. destruct Hs as [Hl Hx].
    destruct (String.leb (string_of_Z y) (string_of_Z x)) eqn:E.
    + constructor; [constructor; assumption|].
      constructor; [exact E|].
      rewrite Forall_forall in Hx |- *. intros w Hw. exact (leb_trans _ _ _ E (Hx w Hw)).
    + constructor; [apply IH, Hl|].
      apply Forall_forall. intros w Hw. apply In_insertYear in Hw.
      destruct Hw as [->|Hw]; [apply leb_total, E|].
      rewrite Forall_forall in Hx. apply Hx, Hw.
Qed.

Lemma sorted_sortYears (l : list Z) : StronglySorted textLe (sortYears l).
Proof.
  unfold sortYears. induction l as [|y l IH]; simpl; [constructor|].
  apply sorted_insertYear, IH.
Qed.

Section YearFacts.
Context {host : Host}.

Lemma addYear_fold (dates : list (option string)) (years : list Z) :
  NoDup years ->
  NoDup (fold_left addYear dates years)
  /\ forall y, In y (fold_left addYear dates years)
               <-> In y years \/ exists d, In d dates /\ yearOf d = Some y.
Proof.
  revert years; induction dates as [|d dates IH]; intros years Hnd; simpl.
  - split; [exact Hnd|]. intros y. split; [auto|]. intros [H|(d & [] & _)]. exact H.
  - assert (Hstep : NoDup (addYear years d)
                    /\ forall y, In y (addYear years d) <-> In y years \/ yearOf d = Some y).
    { unfold addYear. destruct (yearOf d) as [y0|].
      - destruct (existsb (Z.eqb y0) years) eqn:E.
        + split; [exact Hnd|]. intros y. split; [auto|].
          intros [H|H]; [exact H|]. inversion H; subst y0.
          apply existsb_exists in E. destruct E as (x & Hx & Hxy).
          apply Z.eqb_eq in Hxy. subst x. exact Hx.
        + split.
          * apply NoDup_app; [exact Hnd|repeat constructor; intros []|].
            intros x Hx [Hxy|[]].
            assert (Hex : existsb (Z.eqb y0) years = true)
              by (apply existsb_exists; exists x; split; [exact Hx|apply Z.eqb_eq, Hxy]).
            congruence.
          * intros y. rewrite in_app_iff. simpl. split.
            -- intros [H|[<-|[]]]; [left; exact H|right; reflexivity].
            -- intros [H|H]; [left; exact H|]. inversion H. right; left; reflexivity.
      - split; [exact Hnd|]. intros y. split; [auto|]. intros [H|H]; [exact H|discriminate]. }
    destruct Hstep as [Hnd' Hin']. destruct (IH _ Hnd') as [Hnd'' Hin''].
    split; [exact Hnd''|]. intros y. rewrite Hin'', Hin'. split.
    + intros [[H|H]|(d' & Hd' & Hy)]; [left; exact H|right; exists d; auto|].
      right. exists d'. auto.
    + intros [H|(d' & [<-|Hd'] & Hy)]; [left; left; exact H|left; right; exact Hy|].
      right. exists d'. auto.
Qed.

Lemma years_collected (st : State) :
  let years :=
    fold_left addYear (List.map oe_date (otherExpenses st))
      (fold_left addYear (List.map invoiceDate (invoices st))
         (fold_left addYear (List.map se_date (sellEntries st)) [])) in
  NoDup years
  /\ forall y, In y years <-> exists d, In d (allDates st) /\ yearOf d = Some y.
Proof.
  intros years. unfold years.
  destruct (addYear_fold (List.map se_date (sellEntries st)) (NoDup_nil Z)) as [N1 I1].
  destruct (addYear_fold (List.map invoiceDate (invoices st)) N1) as [N2 I2].
  destruct (addYear_fold (List.map oe_date (otherExpenses st)) N2) as [N3 I3].
  split; [exact N3|]. intros y. rewrite I3, I2, I1. unfold allDates. split.
  - intros [[[[]|(d & Hd & Hy)]|(d & Hd & Hy)]|(d & Hd & Hy)]; exists d;
      (split; [|exact Hy]); rewrite !in_app_iff; auto.
  - intros (d & Hd & Hy). rewrite !in_app_iff in Hd.
    destruct Hd as [Hd|[Hd|Hd]]; [left; left; right|left; right|right]; exists d; auto.
Qed.

End YearFacts.

(** X20.  The years the Profit & Loss selector offers.  The list is
    never empty, has no year twice and is in ascending order of the decimal
    texts of the years.  It holds the years of all sell entry, invoice and
    other expense dates that are not empty and that the engine can read,
    and nothing else; when there is no such date it holds the current year
    alone.  On an engine that reads calendar dates as they are written,
    every record dated with a calendar date of a year from 1000 on finds
    its year on offer, is counted by the table of that year, and is skipped
    by the table of every other year from 1000 to 9999. *)
Theorem years_on_offer (host : Host) (st : State) (currentYear : Z) :
  let years := getAllYearsFromData st currentYear in
  years <> []
  /\ NoDup years
  /\ StronglySorted textLe years
  /\ (forall y, In y years
        <-> (exists d, In d (allDates st) /\ yearOf d = Some y)
            \/ ((forall d, In d (allDates st) -> yearOf d = None) /\ y = currentYear))
  /\ (readsDatesAsWritten ->
      forall s y m d, In (Some s) (allDates st) -> parseCalendarDate s = Some (y, m, d) ->
                      1000 <= y ->
        In (Z.of_nat y) years
        /\ outsideYear (Z.of_nat y) (Some s) = false
        /\ (forall y', (1000 <= y' <= 9999)%Z -> y' <> Z.of_nat y ->
                       outsideYear y' (Some s) = true)).
Proof.
  intros years.
  destruct (years_collected st) as [Hnd Hin]. cbv zeta in Hnd, Hin.
  set (collected :=
         fold_left addYear (List.map oe_date (otherExpenses st))
           (fold_left addYear (List.map invoiceDate (invoices st))
              (fold_left addYear (List.map se_date (sellEntries st)) []))) in *.
  assert (Hyears : years
                   = sortYears (if (List.length collected =? 0)%nat then [currentYear]
                                else collected)) by reflexivity.
  assert (Hmem : forall y, In y years
            <-> (exists d, In d (allDates st) /\ yearOf d = Some y)
                \/ ((forall d, In d (allDates st) -> yearOf d = None) /\ y = currentYear)).
  { intros y. rewrite Hyears, In_sortYears.
    destruct collected as [|y0 rest] eqn:Ec; simpl.
    - split.
      + intros [<-|[]]. right. split; [|reflexivity].
        intros d Hd. destruct (yearOf d) as [yd|] eqn:E; [|reflexivity].
        exfalso. apply (proj2 (Hin yd)). exists d. auto.
      + intros [(d & Hd & Hy)|[_ ->]]; [|left; reflexivity].
        exfalso. apply (proj2 (Hin y)). exists d. auto.
    - change (y0 = y \/ In y rest) with (In y (y0 :: rest)). rewrite Hin. split; [auto|].
      intros [H|[Hnone _]]; [exact H|]. exfalso.
      destruct (proj1 (Hin y0) (or_introl eq_refl)) as (d & Hd & Hy).
      rewrite (Hnone d Hd) in Hy. discriminate. }
  split.
  { rewrite Hyears. intros Hnil.
    assert (Hp := Permutation_sortYears
                    (if (List.length collected =? 0)%nat then [currentYear] else collected)).
    rewrite Hnil in Hp. apply Permutation_nil in Hp.
    destruct collected; simpl in Hp; discriminate. }
  split.
  { rewrite Hyears. apply (Permutation_NoDup (l := if (List.length collected =? 0)%nat
                                                   then [currentYear] else collected)).
    - symmetry. apply Permutation_sortYears.
    - destruct collected; simpl; [repeat constructor; intros []|exact Hnd]. }
  split; [rewrite Hyears; apply sorted_sortYears|].
  split; [exact Hmem|].
  intros Hread s y m d Hs Hcal Hy.
  assert (Hrange : (1000 <= Z.of_nat y <= 9999)%Z).
  { unfold parseCalendarDate in Hcal.
    destruct (dateFields s) as [[[y0 m0] d0]|] eqn:Ef; [|discriminate].
    destruct (isCalendarDay y0 m0 d0); [|discriminate]. inversion Hcal; subst.
    destruct (dateFields_shape _ Ef) as (a & b & c & d' & _ & _ & _ & _ & _ & Ha & Hb & Hc
                                         & Hd & _ & _ & _ & _ & Hyy & _).
    lia. }
  split.
  { apply Hmem. left. exists (Some s). split; [exact Hs|].
    unfold yearOf. destruct s as [|c s']; [discriminate Hcal|].
    cbn [truthy_field negb String.eqb]. rewrite (Hread _ _ _ _ Hcal). reflexivity. }
  split.
  { rewrite (outsideYear_calendar _ Hrange Hcal), Z.eqb_refl. reflexivity. }
  intros y' Hy' Hne. rewrite (outsideYear_calendar _ Hy' Hcal).
  destruct (Z.eqb_spec (Z.of_nat y) y'); [congruence|reflexivity].
Qed.

Lemma utcHost_reads_as_written : readsDatesAsWritten (host := utcHost).
Proof.
  intros s y m d H. simpl. unfold utcDateFields. rewrite H. reflexivity.
Qed.

Lemma years_on_offer_witness :
  getAllYearsFromData (host := utcHost) scenario 2030 = [2023; 2024]%Z
  /\ In 2023%Z (getAllYearsFromData (host := utcHost) scenario 2030)
  /\ outsideYear 2023 (Some "2023-12-31") = false
  /\ outsideYear 2024 (Some "2023-12-31") = true.
Proof.
  destruct (@years_on_offer utcHost scenario 2030) as (_ & _ & _ & _ & H).
  assert (Hin : In (Some "2023-12-31") (allDates scenario)) by (right; left; reflexivity).
  assert (Hy : 1000 <= 2023) by (apply Nat.leb_le; reflexivity).
  destruct (H utcHost_reads_as_written "2023-12-31" 2023 12 31 Hin eq_refl Hy)
    as (H1 & H2 & H3).
  split; [reflexivity|]. split; [exact H1|]. split; [exact H2|].
  apply H3; [lia|discriminate].
Defined.

(** ** The drill-down of a cell *)

Lemma prefix_cons (c c' : ascii) (p s : string) :
  String.prefix (String c p) (String c' s) = if ascii_dec c c' then String.prefix p s else false.
Proof. reflexivity. Qed.

Lemma prefix_cons_iff (c c' : ascii) (p s : string) :
  String.prefix (String c p) (String c' s) = true <-> c = c' /\ String.prefix p s = true.
Proof.
  rewrite prefix_cons. destruct (ascii_dec c c') as [E|E].
  - split; [intros H; split; assumption|intros [_ H]; exact H].
  - split; [discriminate|intros [H _]; contradiction].
Qed.

Lemma pad_month (m : nat) :
  m < 12 ->
  padStart 2 "0" (string_of_nat (m + 1))
  = String (digitChar ((m + 1) / 10)) (String (digitChar ((m + 1) mod 10)) "").
Proof.
  intros Hm. do 12 (destruct m as [|m]; [reflexivity|]). lia.
Qed.

Section DrillDown.
Context {host : Host}.
Hypothesis Hread : readsDatesAsWritten.
Variables (year : Z) (m : nat).
Hypothesis Hyear : (1000 <= year <= 9999)%Z.
Hypothesis Hm : m < 12.

Local Abbreviation monthStr :=
  (string_of_Z year ++ "-" ++ padStart 2 "0" (string_of_nat (m + 1)))%string.

Lemma month_prefix (d : option string) :
  calendarField d ->
  startsWith (or_field d "") monthStr = inYear year d && isMonth m (getMonth d).
Proof.
  intros (s & -> & Hs). unfold isCalendarDate in Hs.
  destruct (parseCalendarDate s) as [[[y mo] dd]|] eqn:Hcal; [|discriminate]. clear Hs.
  assert (Hin : inYear year (Some s) = (Z.of_nat y =? year)%Z).
  { generalize (outsideYear_calendar _ Hyear Hcal). rewrite outsideYear_inYear.
    destruct (inYear year (Some s)), (Z.of_nat y =? year)%Z; simpl; congruence. }
  rewrite Hin. unfold getMonth. rewrite (Hread _ Hcal). cbn [isMonth].
  assert (Hcal' := Hcal). unfold parseCalendarDate in Hcal'.
  destruct (dateFields s) as [[[y0 m0] d0]|] eqn:Ef; [|discriminate].
  destruct (isCalendarDay y0 m0 d0) eqn:Ec; [|discriminate].
  inversion Hcal'; subst y0 m0 d0. clear Hcal'.
  destruct (dateFields_shape _ Ef)
    as (a & b & c & d' & e & f & g & h & -> & Ha & Hb & Hc & Hd & He & Hf & Hg & Hh
        & Hy & Hmo & Hdd).
  destruct (four_digits_of_year Hyear) as (a0 & b0 & c0 & d0 & Ha0 & Hb0 & Hc0 & Hd0 & Hz).
  assert (HY : string_of_Z year = fourDigits a0 b0 c0 d0).
  { generalize (@forDigits_spec _ string_of_four_digits a0 b0 c0 d0
                  ltac:(lia) Hb0 Hc0 Hd0).
    cbv beta. rewrite <- Hz. destruct (Nat.eqb_spec a0 0); [lia|].
    rewrite orb_false_l. apply String.eqb_eq. }
  assert (Hmonth : 1 <= mo <= 12).
  { unfold isCalendarDay in Ec. apply andb_prop in Ec. destruct Ec as [Ec _].
    apply andb_prop in Ec. destruct Ec as [Ec _]. apply andb_prop in Ec.
    destruct Ec as [E1 E2]. apply Nat.leb_le in E1, E2. lia. }
  assert (Htruthy : or_field (Some (fourDigits a b c d' ++ monthDayText e f g h)%string) ""
                    = (fourDigits a b c d' ++ monthDayText e f g h)%string) by reflexivity.
  rewrite Htruthy, HY, pad_month by exact Hm. unfold startsWith.
  rewrite !four_app. unfold monthDayText.
  change ("-" ++ String (digitChar ((m + 1) / 10)) (String (digitChar ((m + 1) mod 10)) ""))%string
    with (String "-" (String (digitChar ((m + 1) / 10))
                        (String (digitChar ((m + 1) mod 10)) ""))).
  assert (Hdiv : (m + 1) / 10 < 10 /\ (m + 1) mod 10 < 10
                 /\ m + 1 = 10 * ((m + 1) / 10) + (m + 1) mod 10).
  { generalize (Nat.div_mod (m + 1) 10 ltac:(lia)).
    generalize (Nat.mod_upper_bound (m + 1) 10 ltac:(lia)).
    generalize (Nat.Div0.div_le_upper_bound (m + 1) 10 2 ltac:(lia)). lia. }
  destruct Hdiv as (Hq & Hr & Hqr).
  apply eq_true_iff_eq. rewrite andb_true_iff, Z.eqb_eq, Nat.eqb_eq.
  rewrite !prefix_cons_iff, prefix_nil. split.
  - intros (E1 & E2 & E3 & E4 & _ & E5 & E6 & _).
    apply digitChar_inj in E1, E2, E3, E4, E5, E6; lia.
  - intros [E1 E2].
    assert (Hd4 : a = a0 /\ b = b0 /\ c = c0 /\ d' = d0) by lia.
    assert (Hd2 : e = (m + 1) / 10 /\ f = (m + 1) mod 10) by lia.
    destruct Hd4 as (-> & -> & -> & ->). destruct Hd2 as (-> & ->).
    repeat split; reflexivity.
Qed.

End DrillDown.

Lemma filter_both (A : Type) (p q : A -> bool) (l : list A) :
  filter p (filter q l) = filter (fun x => q x && p x) l.
Proof.
  induction l as [|x l IH]; simpl; [reflexivity|].
  destruct (q x); simpl; [destruct (p x); rewrite IH; reflexivity|exact IH].
Qed.

Lemma NoDup_map_eq (A B : Type) (f : A -> B) (l : list A) (x y : A) :
  NoDup (List.map f l) -> In x l -> In y l -> f x = f y -> x = y.
Proof.
  induction l as [|a l IH]; intros Hnd Hx Hy Hf; [destruct Hx|].
  simpl in Hnd. inversion Hnd as [|? ? Ha Hnd']; subst.
  destruct Hx as [->|Hx], Hy as [->|Hy].
  - reflexivity.
  - exfalso. apply Ha. rewrite Hf. apply in_map, Hy.
  - exfalso. apply Ha. rewrite <- Hf. apply in_map, Hx.
  - apply IH; assumption.
Qed.

Lemma get_In (V : Type) (m : Js.map V) (k : string) (v : V) :
  Js.get m k = Some v -> In (k, v) m.
Proof.
  induction m as [|[k0 v0] m IH]; simpl; [discriminate|].
  destruct (String.eqb_spec k0 k) as [->|]; [intros H; inversion H; auto|auto].
Qed.

Lemma get_NoDup (V : Type) (m : Js.map V) (k : string) (v : V) :
  NoDup (Js.keys m) -> In (k, v) m -> Js.get m k = Some v.
Proof.
  unfold Js.keys. induction m as [|[k0 v0] m IH]; intros Hnd Hin; [destruct Hin|].
  simpl in *. inversion Hnd as [|? ? Hk Hnd']; subst.
  destruct Hin as [E|Hin].
  - inversion E; subst. rewrite String.eqb_refl. reflexivity.
  - destruct (String.eqb_spec k0 k) as [->|]; [|apply IH; assumption].
    exfalso. apply Hk. apply (in_map fst) in Hin. exact Hin.
Qed.

Lemma typeById_entries (ts : list ExpenseType) :
  NoDup (List.map et_id ts) ->
  typeById ts = List.map (fun t => (et_id t, et_name t)) ts.
Proof.
  intros Hnd. unfold typeById, Js.of_entries. rewrite fold_set_fresh.
  - reflexivity.
  - rewrite map_map. exact Hnd.
  - intros k _ [].
Qed.

Section DrillDownRows.
Context {host : Host}.
Variable ts : list ExpenseType.
Hypothesis Hids : NoDup (List.map et_id ts).
Hypothesis Hnames : NoDup (List.map et_name ts).

Lemma resolves_to_type (t : ExpenseType) (e : OtherExpense) :
  In t ts -> et_name t <> "" -> et_name t <> "Other" ->
  eq_field (typeId e) (et_id t) = (expenseName ts e =? et_name t).
Proof.
  intros Ht Hne Hno. unfold expenseName, Js.get_field.
  assert (Hkeys : NoDup (Js.keys (typeById ts))).
  { rewrite (@typeById_entries ts Hids). unfold Js.keys. rewrite map_map. exact Hids. }
  destruct (typeId e) as [i|]; cbn [eq_field].
  - destruct (String.eqb_spec i (et_id t)) as [->|Hi].
    + rewrite (@get_NoDup _ (typeById ts) (et_id t) (et_name t) Hkeys).
      * unfold or_field, truthy_field. apply String.eqb_neq in Hne. rewrite Hne.
        cbn [negb]. symmetry. apply String.eqb_refl.
      * rewrite (@typeById_entries ts Hids). apply in_map_iff. exists t. auto.
    + symmetry. apply String.eqb_neq. intros Hk.
      destruct (Js.get (typeById ts) i) as [n|] eqn:E.
      * unfold or_field, truthy_field in Hk.
        destruct (String.eqb_spec n "") as [->|Hn]; cbn [negb] in Hk;
          [apply Hno; symmetry; exact Hk|].
        subst n. apply get_In in E. rewrite (@typeById_entries ts Hids) in E.
        apply in_map_iff in E. destruct E as (t' & Ht' & Hin'). inversion Ht'; subst.
        apply Hi. f_equal. apply (@NoDup_map_eq _ _ et_name ts); assumption.
      * unfold or_field in Hk. apply Hno. symmetry. exact Hk.
  - symmetry. apply String.eqb_neq. unfold or_field. intros Hk. apply Hno. symmetry.
    exact Hk.
Qed.

Lemma find_type (t : ExpenseType) :
  In t ts -> find (fun t' => et_name t' =? et_name t) ts = Some t.
Proof.
  intros Ht. destruct (find (fun t' => et_name t' =? et_name t) ts) as [t'|] eqn:E.
  - apply find_some in E. destruct E as [Hin Hn]. apply String.eqb_eq in Hn.
    f_equal. apply (@NoDup_map_eq _ _ et_name ts); assumption.
  - exfalso. apply (find_none _ _ E) in Ht. rewrite String.eqb_refl in Ht. discriminate.
Qed.

End DrillDownRows.

(** X21.  The drill-down of a cell lists the records behind the cell.
    On an engine that reads calendar dates as they are written, for a year
    from 1000 to 9999 and a month index below 12, when every invoice and
    other expense carries a zero-padded calendar date: the drill-down of
    the cost-of-goods row lists exactly the product invoices of the year
    that fall on the month, that of "Invoice Expenses" exactly the other
    invoices of the year on the month, and, when the ids and the names of
    the expense types are pairwise distinct, the drill-down of the row of a
    type whose name is not empty, not "Other" and not the label of an
    invoice row lists exactly the expenses of the year and month that
    resolve to this name.  These are the records whose amounts the table
    adds up in the cell. *)
Theorem drilldown_lists_cell_records (host : Host) (st : State) (year : Z) (m : nat) :
  readsDatesAsWritten -> (1000 <= year <= 9999)%Z -> m < 12 ->
  (forall inv, In inv (invoices st) -> calendarField (invoiceDate inv)) ->
  (forall e, In e (otherExpenses st) -> calendarField (oe_date e)) ->
  let month := padStart 2 "0" (string_of_nat (m + 1)) in
  openPLDetails st year month "Cost of Goods Sold (Purchases)"
  = InvoiceDetails
      (filter (fun inv => productOfYear year inv && isMonth m (getMonth (invoiceDate inv)))
         (invoices st))
  /\ openPLDetails st year month "Invoice Expenses"
     = InvoiceDetails
         (filter (fun inv => otherOfYear year inv && isMonth m (getMonth (invoiceDate inv)))
            (invoices st))
  /\ (NoDup (List.map et_id (expenseTypes st)) ->
      NoDup (List.map et_name (expenseTypes st)) ->
      forall t, In t (expenseTypes st) ->
        et_name t <> "" -> et_name t <> "Other" -> et_name t <> "Invoice Expenses" ->
        et_name t <> "Cost of Goods Sold (Purchases)" ->
        openPLDetails st year month (et_name t)
        = ExpenseDetails
            (filter (fun e => expenseOfRow year (expenseTypes st) (et_name t) e
                              && isMonth m (getMonth (oe_date e)))
               (otherExpenses st))).
Proof.
  intros Hread Hyear Hm Hinv Hexp month.
  split.
  { unfold openPLDetails, month. cbv zeta. cbn [String.eqb Ascii.eqb Bool.eqb]. f_equal.
    rewrite filter_both. apply filter_ext_in. intros inv Hin.
    rewrite (month_prefix Hread Hyear Hm (Hinv inv Hin)). unfold productOfYear.
    destruct (isProduct inv), (inYear year (invoiceDate inv)),
      (isMonth m (getMonth (invoiceDate inv))); reflexivity. }
  split.
  { unfold openPLDetails, month. cbv zeta. cbn [String.eqb Ascii.eqb Bool.eqb]. f_equal.
    rewrite filter_both. apply filter_ext_in. intros inv Hin.
    rewrite (month_prefix Hread Hyear Hm (Hinv inv Hin)). unfold otherOfYear.
    destruct (isProduct inv), (inYear year (invoiceDate inv)),
      (isMonth m (getMonth (invoiceDate inv))); reflexivity. }
  intros Hids Hnames t Ht Hne Hno Hie Hcogs. unfold openPLDetails, month. cbv zeta.
  apply String.eqb_neq in Hie, Hcogs. rewrite Hie, Hcogs.
  rewrite (@find_type (expenseTypes st) Hnames t Ht). f_equal.
  assert (Hid : or_field (Some (et_id t)) "" = et_id t).
  { unfold or_field, truthy_field. destruct (String.eqb_spec (et_id t) ""); simpl; congruence. }
  rewrite Hid, filter_both. apply filter_ext_in. intros e Hin.
  rewrite (month_prefix Hread Hyear Hm (Hexp e Hin)).
  rewrite (@resolves_to_type (expenseTypes st) Hids Hnames t e Ht Hne Hno). unfold expenseOfRow.
  destruct (expenseName (expenseTypes st) e =? et_name t), (inYear year (oe_date e)),
    (isMonth m (getMonth (oe_date e))); reflexivity.
Qed.

Lemma drilldown_lists_cell_records_witness :
  openPLDetails scenario 2024 "01" "Cost of Goods Sold (Purchases)"
  = InvoiceDetails
      [ {| invoiceDate := Some "2024-01-20"; inv_type := Some "Product";
           items := twoAtThirty |} ]
  /\ openPLDetails scenario 2024 "02" "Invoice Expenses" = InvoiceDetails []
  /\ openPLDetails scenario 2024 "02" "Rent"
     = ExpenseDetails
         [ {| oe_date := Some "2024-02-01"; typeId := Some "rent"; oe_amount := num 50 |} ].
Proof.
  assert (Hy : (1000 <= 2024 <= 9999)%Z) by lia.
  assert (Hi : forall inv, In inv (invoices scenario) -> calendarField (invoiceDate inv)).
  { intros e He. simpl in He.
    repeat (destruct He as [<-|He]; [eexists; split; [reflexivity|reflexivity]|]).
    destruct He. }
  assert (He : forall e, In e (otherExpenses scenario) -> calendarField (oe_date e)).
  { intros e He. simpl in He.
    repeat (destruct He as [<-|He]; [eexists; split; [reflexivity|reflexivity]|]).
    destruct He. }
  assert (H0 : 0 < 12) by lia.
  assert (H1 : 1 < 12) by lia.
  destruct (@drilldown_lists_cell_records utcHost scenario 2024 0
              utcHost_reads_as_written Hy H0 Hi He) as (Hc & _ & _).
  destruct (@drilldown_lists_cell_records utcHost scenario 2024 1
              utcHost_reads_as_written Hy H1 Hi He) as (_ & Ho & Ht).
  split; [|split].
  - refine (eq_trans Hc _). vm_compute. reflexivity.
  - refine (eq_trans Ho _). vm_compute. reflexivity.
  - assert (Hids : NoDup (List.map et_id (expenseTypes scenario))).
    { repeat constructor. intros []. }
    assert (Hnames : NoDup (List.map et_name (expenseTypes scenario))).
    { repeat constructor. intros []. }
    refine (eq_trans (Ht Hids Hnames {| et_id := "rent"; et_name := "Rent" |}
                        (or_introl eq_refl) _ _ _ _) _);
      [discriminate | discriminate | discriminate | discriminate |].
    vm_compute. reflexivity.
Defined.
